(** * Orchestration glue of the demo services, embedded shallowly

    Three Python programs are modelled, one module each:

    - [Guard]       [livewire-daz/server/core/tool_handler.py] and
                    [computer_agent/runner.py]: the process-wide slot that
                    admits one browser-automation task at a time;
    - [Transcribe]  [gemini-3-transcribe/gemini_transcribe_cli.py] and
                    [app.py]: transfer policy, token accounting, cost
                    estimate and model selection;
    - [Translator]  [chirp2-translator/app.py]: the translation adapter,
                    the audio buffering of a session and the worker loop that
                    accumulates the transcript.

    Python dictionaries are [gmap]s keyed by strings, exceptions are an
    explicit outcome type, and module-level globals are fields of a state
    record that every operation threads through. *)

From Stdlib Require Import ZArith QArith Qround Ascii String List Lia.
From Stdlib Require Import Strings.Byte.
From stdpp Require Import base option list gmap strings.

Local Open Scope string_scope.

(** ** Exceptions and the state-and-exception monad shared by the modules *)

(** The three layers of Python's exception hierarchy the sources tell
    apart: [asyncio.CancelledError] (a [BaseException] since 3.8), the
    subclasses of [Exception], and the remaining [BaseException]s, which
    [except Exception] lets through. *)
Inductive exn : Type :=
  | CancelledError
  | Exception (msg : string)
  | BaseException (msg : string).

Inductive outcome (A : Type) : Type :=
  | Returned (a : A)
  | Raised (e : exn).
Arguments Returned {A} a.
Arguments Raised {A} e.

Section Monad.
Context {St : Type}.

Definition M (A : Type) : Type := St -> outcome A * St.

Definition ret {A} (a : A) : M A := fun s => (Returned a, s).

Definition raise {A} (e : exn) : M A := fun s => (Raised e, s).

Definition bind {A B} (m : M A) (k : A -> M B) : M B :=
  fun s =>
    match m s with
    | (Returned a, s') => k a s'
    | (Raised e, s') => (Raised e, s')
    end.

Definition get : M St := fun s => (Returned s, s).

Definition modify (f : St -> St) : M unit := fun s => (Returned tt, f s).

(** [try: body except ...: handler].  [handler e = None] when no [except]
    clause matches [e].  An exception raised by the handler itself is not
    offered to the sibling clauses. *)
Definition try_except {A} (body : M A) (handler : exn -> option (M A)) : M A :=
  fun s =>
    match body s with
    | (Returned a, s') => (Returned a, s')
    | (Raised e, s') =>
        match handler e with
        | Some h => h s'
        | None => (Raised e, s')
        end
    end.

(** [try: body finally: fin].  [fin] runs whatever [body] did; the
    outcome of [body] is kept unless [fin] raises. *)
Definition try_finally {A} (body : M A) (fin : M unit) : M A :=
  fun s =>
    match body s with
    | (r, s') =>
        match fin s' with
        | (Returned _, s'') => (r, s'')
        | (Raised e, s'') => (Raised e, s'')
        end
    end.

(** Awaiting (or calling) something external whose outcome is given. *)
Definition await {A} (o : outcome A) : M A := fun s => (o, s).

(** A computation takes every state to one related to it by [R]. *)
Definition respects {A} (R : St -> St -> Prop) (m : M A) : Prop :=
  forall s, R s (snd (m s)).

(** A computation leaves the observation [f] of the state as it was. *)
Definition unchanged {B} (f : St -> B) : St -> St -> Prop :=
  fun s s' => f s' = f s.
End Monad.

Notation "'let*' x := m 'in' k" := (bind m (fun x => k))
  (at level 10, x name, m at level 100, k at level 200).
Notation "'let*' ' p := m 'in' k" := (bind m (fun x => match x with p => k end))
  (at level 10, p strict pattern, m at level 100, k at level 200).
Notation "m >> k" := (bind m (fun _ => k))
  (at level 100, k at level 200, right associativity).

(** Python truthiness of an optional string: [None] and [""] are falsy. *)
Definition truthy_str (o : option string) : bool :=
  match o with
  | Some s => negb (bool_decide (s = ""))
  | None => false
  end.

(** ** The single-flight guard of the browser-automation tool *)
Module Guard.

(** A result dictionary, as [run_computer_agent_task] and [execute_tool]
    build them. *)
Abbreviation dict := (gmap string string).

(** A scheduled [asyncio.Task]: what it was created for, whether the loop
    has entered its coroutine (a task is scheduled by [create_task] and
    runs its first step on a later iteration of the loop), whether
    [cancel()] was requested and whether it is [done()]. *)
Record task : Type := Task {
  task_query : string;
  task_session : nat;
  task_started : bool;
  task_cancelling : bool;
  task_done : bool;
}.

(** The module-level globals of [tool_handler.py] and [runner.py], the
    task objects the slot may refer to, and the turns each conversation
    ([genai_session], by identifier) has received. *)
Record state : Type := State {
  background_task : option nat;
  tasks : list task;
  agent_stop_event : bool;
  turns : list (nat * string);
}.

Definition initial : state :=
  {| background_task := None; tasks := []; agent_stop_event := false; turns := [] |}.

(** Every task that has not completed is the one the slot refers to. *)
Definition single_flight (s : state) : Prop :=
  forall t tk, tasks s !! t = Some tk -> task_done tk = false -> background_task s = Some t.

Definition set_background_task (b : option nat) (s : state) : state :=
  {| background_task := b; tasks := tasks s;
     agent_stop_event := agent_stop_event s; turns := turns s |}.

Definition set_tasks (ts : list task) (s : state) : state :=
  {| background_task := background_task s; tasks := ts;
     agent_stop_event := agent_stop_event s; turns := turns s |}.

Definition set_agent_stop_event (b : bool) (s : state) : state :=
  {| background_task := background_task s; tasks := tasks s;
     agent_stop_event := b; turns := turns s |}.

Definition add_turn (t : nat * string) (s : state) : state :=
  {| background_task := background_task s; tasks := tasks s;
     agent_stop_event := agent_stop_event s; turns := turns s ++ [t] |}.

(** *** runner.py *)

(** What [agent.agent_loop()] and the following [bring_to_front] did:
    ended with some [final_reasoning], or raised. *)
Inductive agent_run : Type :=
  | AgentReturns (final_reasoning : option string)
  | AgentRaises (e : exn).

Definition run_computer_agent_task (query : string) (agent : agent_run) : M (St := state) dict :=
  try_finally
    (try_except
       (modify (set_agent_stop_event false) >>
        match agent with
        | AgentReturns final_reasoning =>
            let final_summary :=
              if truthy_str final_reasoning
              then default "" final_reasoning
              else "Task completed, but no final summary was generated." in
            ret {[ "status" := "success"; "summary" := final_summary ]}
        | AgentRaises e => raise e
        end)
       (fun e =>
          match e with
          | Exception msg => Some (ret {[ "status" := "error"; "summary" := msg ]})
          | _ => None
          end))
    (modify (set_agent_stop_event false)).

(** *** tool_handler.py *)

Section Handler.
(** [genai_session.send(input=msg, end_of_turn=True)] is external: given
    the turns delivered so far it either delivers the turn or raises. *)
Variable send_raises : list (nat * string) -> nat -> string -> option exn.

Definition send (genai_session : nat) (input : string) : M (St := state) unit :=
  let* s := get in
  match send_raises (turns s) genai_session input with
  | Some e => raise e
  | None => modify (add_turn (genai_session, input))
  end.

(** [result and result.get("status") == "success"] *)
Definition is_success (result : option dict) : bool :=
  match result with
  | Some d => negb (bool_decide (d = ∅)) && bool_decide (d !! "status" = Some "success")
  | None => false
  end.

Definition run_and_log_task (coro : outcome (option dict)) (query : string)
    (genai_session : nat) : M (St := state) unit :=
  try_finally
    (try_except
       (let* result := await coro in
        if is_success result then
          let summary := default "The task is complete." (result ≫= (.!! "summary")) in
          send genai_session summary
        else ret tt)
       (fun e =>
          match e with
          | CancelledError => Some (send genai_session "The task has been cancelled.")
          | Exception _ => Some (send genai_session "An error occurred during the task.")
          | BaseException _ => None
          end))
    (modify (set_background_task None)).

(** [background_task and not background_task.done()]: the slot refers
    to a task object and that object has not completed. *)
Definition slot_busy (s : state) : bool :=
  match background_task s with
  | Some t =>
      match tasks s !! t with
      | Some tk => negb (task_done tk)
      | None => false
      end
  | None => false
  end.

(** [background_task.cancel()] on the task the slot refers to. *)
Definition cancel_slot_task (s : state) : state :=
  match background_task s with
  | Some t =>
      set_tasks (alter (fun tk => Task (task_query tk) (task_session tk) (task_started tk)
                                       true (task_done tk))
                       t (tasks s)) s
  | None => s
  end.

(** [asyncio.create_task(run_and_log_task(...))]: a fresh task object,
    scheduled but not yet entered, to which the slot is made to refer. *)
Definition create_task (query : string) (genai_session : nat) (s : state) : state :=
  set_background_task (Some (length (tasks s)))
    (set_tasks (tasks s ++ [Task query genai_session false false false]) s).

(** The registry of [config.py] and the HTTP exchange with a registered
    endpoint, whose every failure the source turns into a dictionary. *)
Variable CLOUD_FUNCTIONS : gmap string (option string).
Variable cloud_function : option string -> dict -> dict.

Definition execute_tool (tool_name : string) (params : dict)
    (genai_session : option nat) (s : state) : dict * state :=
  if bool_decide (tool_name = "stop_computer_task") then
    if slot_busy s then
      ({[ "status" := "success"; "summary" := "Stop signal sent." ]},
       cancel_slot_task (set_agent_stop_event true s))
    else
      ({[ "status" := "no_task"; "summary" := "No task is running." ]}, s)
  else if bool_decide (tool_name = "execute_computer_task") then
    if slot_busy s then
      ({[ "status" := "already_running"; "summary" := "A task is in progress." ]}, s)
    else
      let query := params !! "query" in
      if negb (truthy_str query) then ({[ "error" := "Missing query" ]}, s)
      else
        match genai_session with
        | None => ({[ "error" := "Missing session" ]}, s)
        | Some session =>
            let q := default "" query in
            ({[ "status" := "started";
                "summary" := "Task '" +:+ q +:+ "' has started." ]},
             create_task q session s)
        end
  else
    match CLOUD_FUNCTIONS !! tool_name with
    | None => ({[ "error" := "Unknown tool: " +:+ tool_name ]}, s)
    | Some base_url => (cloud_function base_url params, s)
    end.

(** *** The event loop, as far as the guard is concerned

    Tool calls arrive one at a time on the loop.  A task that was
    scheduled is entered by the loop on a later iteration ([TaskStarts]):
    its wrapper then runs up to [await coro].  If [cancel()] was requested
    before that first step, the loop throws [CancelledError] into the
    coroutine before any of its body has run: the task is done without the
    wrapper, its [try] or its [finally] having been entered.  A task that
    was entered terminates once ([TaskEnds]), when what it awaits ([coro],
    the executor future of [run_computer_agent_task], or the cancellation
    thrown into that await) has an outcome and the wrapper has run to its
    end; that run is one step, during which the slot and the task's
    completion are what they were before it (the slot is cleared last,
    and the task is done only after).  The agent's thread, of its own,
    clears the stop signal when it enters [run_computer_agent_task] and in
    its [finally] ([AgentClears]). *)
Inductive event : Type :=
  | ToolCall (tool_name : string) (params : dict) (genai_session : option nat)
  | TaskStarts (t : nat)
  | TaskEnds (t : nat) (coro : outcome (option dict))
  | AgentClears.

Definition mark_started (t : nat) (s : state) : state :=
  set_tasks (alter (fun tk => Task (task_query tk) (task_session tk) true
                                   (task_cancelling tk) (task_done tk)) t (tasks s)) s.

Definition mark_done (t : nat) (s : state) : state :=
  set_tasks (alter (fun tk => Task (task_query tk) (task_session tk) (task_started tk)
                                   (task_cancelling tk) true) t (tasks s)) s.

Definition step (s : state) (e : event) : state :=
  match e with
  | ToolCall tool_name params genai_session =>
      snd (execute_tool tool_name params genai_session s)
  | TaskStarts t =>
      match tasks s !! t with
      | Some tk =>
          if task_started tk || task_done tk then s
          else if task_cancelling tk then mark_done t s
          else mark_started t s
      | None => s
      end
  | TaskEnds t coro =>
      match tasks s !! t with
      | Some tk =>
          if task_started tk && negb (task_done tk) then
            mark_done t
              (snd (run_and_log_task coro (task_query tk) (task_session tk) s))
          else s
      | None => s
      end
  | AgentClears => set_agent_stop_event false s
  end.

Definition run (es : list event) (s : state) : state := fold_left step es s.

(** What awaiting the executor future gives when the agent thread ran
    [run_computer_agent_task] to its end. *)
Definition executor_outcome (query : string) (agent : agent_run) (s : state)
    : outcome (option dict) :=
  match fst (run_computer_agent_task query agent s) with
  | Returned d => Returned (Some d)
  | Raised e => Raised e
  end.
End Handler.

End Guard.

(** ** Python strings, as far as the sources use them

    Keys, messages and URLs are [string]s, whose characters are the code
    points below 256.  The texts of the translator, which come from speech
    recognition in any language, are lists of code points ([Translator.pystr]). *)

(** [str.isspace] on one code point: U+0009..U+000D, U+001C..U+0020,
    U+0085, U+00A0, U+1680, U+2000..U+200A, U+2028, U+2029, U+202F, U+205F
    and U+3000. *)
Definition py_isspace (n : N) : bool :=
  ((9 <=? n) && (n <=? 13) || (28 <=? n) && (n <=? 32) || (n =? 133) || (n =? 160)
   || (n =? 5760) || (8192 <=? n) && (n <=? 8202) || (n =? 8232) || (n =? 8233)
   || (n =? 8239) || (n =? 8287) || (n =? 12288))%N.

Fixpoint lstrip (s : string) : string :=
  match s with
  | String c s' => if py_isspace (N_of_ascii c) then lstrip s' else s
  | EmptyString => EmptyString
  end.

(** [s.strip()] *)
Definition strip (s : string) : string :=
  String.rev (lstrip (String.rev (lstrip s))).

Fixpoint is_prefix (p s : string) : bool :=
  match p, s with
  | EmptyString, _ => true
  | String a p', String b s' => bool_decide (a = b) && is_prefix p' s'
  | String _ _, EmptyString => false
  end.

(** [sub in s] *)
Fixpoint contains (sub s : string) : bool :=
  is_prefix sub s ||
  match s with
  | String _ s' => contains sub s'
  | EmptyString => false
  end.

(** ** The transcription orchestrator *)
Module Transcribe.

(** *** Arithmetic

    Token counts are Python [int]s ([Z]).  Prices, durations and costs are
    Python [float]s: the operations the sources apply to them are kept
    abstract, so that what is proved holds for IEEE doubles as it does for
    exact rationals, which is the instance used to compute examples. *)
Class PyFloat (F : Type) : Type := {
  float_of_literal : Q -> F;      (* a decimal literal of the source *)
  float_of_int : Z -> F;          (* an int operand of a float operation *)
  int_truediv : Z -> Z -> F;      (* int / int *)
  fadd : F -> F -> F;
  fmul : F -> F -> F;
  fdiv : F -> F -> F;
  fround : Z -> F -> F;           (* round(x, ndigits) *)
}.

#[export] Instance PyFloat_Q : PyFloat Q := {
  float_of_literal q := q;
  float_of_int z := inject_Z z;
  int_truediv a b := Qdiv (inject_Z a) (inject_Z b);
  fadd := Qplus;
  fmul := Qmult;
  fdiv := Qdiv;
  fround n q :=
    let scale := inject_Z (10 ^ n) in
    Qdiv (inject_Z (Qfloor (Qplus (Qmult q scale) (1 # 2)))) scale;
}.

(** Python's [sum(costs, 0.0)]. *)
Definition fsum {F} `{PyFloat F} (costs : list F) : F :=
  fold_left fadd costs (float_of_literal 0.0).

(** *** gemini_transcribe_cli.py: constants *)

Definition SUPPORTED_FORMATS : list string :=
  [".mp3"; ".wav"; ".aac"; ".flac"; ".m4a"; ".ogg"; ".aiff"].

Definition MAX_FILE_SIZE_MB : Q := 100.

Record model_info (F : Type) : Type := ModelInfo {
  info_name : string;
  max_output_tokens : Z;
  price_input_per_1k : F;
  price_output_per_1k : F;
  price_audio_per_second : F;
}.
Arguments ModelInfo {F}.
Arguments info_name {F}.
Arguments max_output_tokens {F}.
Arguments price_input_per_1k {F}.
Arguments price_output_per_1k {F}.
Arguments price_audio_per_second {F}.

Definition DEFAULT_MODEL : string := "gemini-2.5-flash".

(** What [estimate_cost] returns. *)
Record usage (F : Type) : Type := Usage {
  usage_model : string;
  input_tokens : Z;
  output_tokens : Z;
  audio_seconds : F;
  text_input_cost : F;
  output_cost : F;
  audio_cost : F;
  total_cost : F;
}.
Arguments Usage {F}.
Arguments usage_model {F}.
Arguments input_tokens {F}.
Arguments output_tokens {F}.
Arguments audio_seconds {F}.
Arguments text_input_cost {F}.
Arguments output_cost {F}.
Arguments audio_cost {F}.
Arguments total_cost {F}.

(** A media file on disk: [Path.stem], [Path.suffix.lower()] and the
    bytes; [os.path.getsize] is the number of bytes. *)
Record file : Type := File {
  stem : string;
  suffix : string;
  content : list byte;
}.

Definition getsize (f : file) : Z := Z.of_nat (length (content f)).

(** [size / (1024 * 1024)].  The quotient of a size by a power of two and
    its comparison with 20 or 100 are exact in double precision, so the
    size in MB is kept as a rational. *)
Definition size_mb (f : file) : Q := Qmake (getsize f) (2 ^ 20).

(** What is handed to the model: bytes embedded in the request, or the
    handle of an uploaded file. *)
Inductive audio_content : Type :=
  | InlineData (mime_type : string) (data : list byte)
  | UploadedFile (handle : string).

(** An attribute read: absent ([AttributeError]), raising something
    else, or there. *)
Inductive attr (A : Type) : Type :=
  | Missing
  | Faulty (e : exn)
  | Present (a : A).
Arguments Missing {A}.
Arguments Faulty {A} e.
Arguments Present {A} a.

Record usage_metadata_t : Type := UsageMetadata {
  candidates_token_count : attr Z;
}.

(** A [generate_content] response: [usage_metadata] (which may be
    [None]) and the [text] property, which raises when the response
    carries no text. *)
Record response : Type := Response {
  usage_metadata : attr (option usage_metadata_t);
  text : outcome string;
}.

(** The contents of a request to the model. *)
Inductive contents : Type :=
  | CountTest
  | TranscribeAudio (system_instruction : option string) (prompt : string)
      (audio : audio_content)
  | SummarizeText (prompt : string).

(** A step taken against the outside world, in order. *)
Inductive action : Type :=
  | ProcessInline (f : file)
  | UploadFile (f : file)
  | GenerateContent (model : string) (c : contents)
  | DeleteFile (handle : string).

(** The [AudioTranscriber] object and the record of what was done. *)
Record tstate (F : Type) : Type := TState {
  model_name : string;
  last_usage : option (usage F);
  actions : list action;
}.
Arguments TState {F}.
Arguments model_name {F}.
Arguments last_usage {F}.
Arguments actions {F}.

(** The two ways of handing the audio to the model, and which of them a
    recorded step is. *)
Inductive transfer : Type :=
  | Inline
  | Upload.

Definition transfer_of (a : action) : option transfer :=
  match a with
  | ProcessInline _ => Some Inline
  | UploadFile _ => Some Upload
  | _ => None
  end.

(** The contents of a recorded call of the model. *)
Definition generate_of (a : action) : option contents :=
  match a with
  | GenerateContent _ c => Some c
  | _ => None
  end.

(** The transfers a computation performs from state [st] on. *)
Definition chosen {F A} (m : M (St := tstate F) A) (st : tstate F) : list transfer :=
  omap transfer_of (drop (length (actions st)) (actions (snd (m st)))).

(** The transfer policy in the specification's words: an explicit
    override decides; without one, a size at or under the threshold goes
    inline and a larger one is uploaded. *)
Definition spec_transfer (inlineThreshold s : Q) (override : option transfer) : transfer :=
  match override with
  | Some forced => forced
  | None => if Qle_bool s inlineThreshold then Inline else Upload
  end.

(** The override that the flags of the command line express; [--upload]
    prevails over [--inline]. *)
Definition cli_override (upload inline : bool) : option transfer :=
  if upload then Some Upload else if inline then Some Inline else None.

Section Orchestrator.
Context {F : Type} `{PyFloat F}.

Definition lit (q : Q) : F := float_of_literal q.

Definition gemini_2_5_flash : model_info F :=
  ModelInfo "Gemini 2.5 Flash" 65536 (lit 0.000075) (lit 0.0003) (lit 0.000015).

(** Available models with their pricing. *)
Definition AVAILABLE_MODELS : gmap string (model_info F) :=
  {[ "gemini-2.5-flash" := gemini_2_5_flash;
     "gemini-2.5-pro" :=
       ModelInfo "Gemini 2.5 Pro" 65536
         (lit 0.00125) (lit 0.005) (lit 0.00025);
     "gemini-3-pro-preview" :=
       ModelInfo "Gemini 3 Pro Preview" 65536
         (lit 0.00025) (lit 0.0005) (lit 0.000625) ]}.

(** [AVAILABLE_MODELS[DEFAULT_MODEL]] *)
Definition default_model_info : model_info F :=
  default gemini_2_5_flash (AVAILABLE_MODELS !! DEFAULT_MODEL).

Definition estimate_cost (model_name : string) (input_tokens output_tokens : Z)
    (audio_seconds : F) : usage F :=
  let model_info := default default_model_info (AVAILABLE_MODELS !! model_name) in
  let text_input_cost := fmul (int_truediv input_tokens 1000) (price_input_per_1k model_info) in
  let output_cost := fmul (int_truediv output_tokens 1000) (price_output_per_1k model_info) in
  let audio_cost := fmul audio_seconds (price_audio_per_second model_info) in
  let total_cost := fadd (fadd text_input_cost output_cost) audio_cost in
  Usage model_name input_tokens output_tokens audio_seconds
        text_input_cost output_cost audio_cost total_cost.

(** *** The outside world

    The video download, the duration probe of [pydub], and the calls of
    the generative API, each by its outcome. *)
Variable download_youtube_audio : string -> outcome file.
Variable audio_length_ms : file -> outcome Z.
Variable api_count_tokens : string -> contents -> outcome Z.
Variable api_generate_content : string -> contents -> outcome response.
(** [AudioTranscriber.upload_file], polling included: the handle of the
    active file, or what it raised. *)
Variable api_upload_file : file -> outcome string.
Variable api_delete_file : string -> outcome unit.

Definition get_audio_duration_seconds (f : file) : F :=
  match audio_length_ms f with
  | Returned ms => fdiv (float_of_int ms) (lit 1000.0)
  | Raised _ => lit 0.0
  end.

Definition log (a : action) : M (St := tstate F) unit :=
  modify (fun s => TState (model_name s) (last_usage s) (actions s ++ [a])).

(** [AudioTranscriber.__init__] *)
Definition AudioTranscriber (requested : string) : tstate F :=
  let model_name :=
    if bool_decide (requested ∈ dom AVAILABLE_MODELS) then requested else DEFAULT_MODEL in
  TState model_name None [].

(** [AudioTranscriber.count_tokens]: a failed count is reported as 0. *)
Definition count_tokens (c : contents) : M (St := tstate F) Z :=
  let* s := get in
  match api_count_tokens (model_name s) c with
  | Returned n => ret n
  | Raised (Exception _) => ret 0%Z
  | Raised e => raise e
  end.

Definition process_inline (f : file) : M (St := tstate F) audio_content :=
  let mime_types : gmap string string :=
    {[ ".mp3" := "audio/mp3"; ".wav" := "audio/wav"; ".aac" := "audio/aac";
       ".flac" := "audio/flac"; ".m4a" := "audio/mp4"; ".ogg" := "audio/ogg";
       ".aiff" := "audio/aiff" ]} in
  let mime_type := default "audio/mp3" (mime_types !! suffix f) in
  log (ProcessInline f) >> ret (InlineData mime_type (content f)).

Definition upload_file (f : file) : M (St := tstate F) audio_content :=
  log (UploadFile f) >>
  let* handle := await (api_upload_file f) in
  ret (UploadedFile handle).

(** [hasattr(response, 'usage_metadata')] *)
Definition hasattr_usage_metadata (r : response) : outcome bool :=
  match usage_metadata r with
  | Missing => Returned false
  | Faulty e => Raised e
  | Present _ => Returned true
  end.

(** [getattr(response.usage_metadata, 'candidates_token_count', 0)] *)
Definition getattr_candidates_token_count (r : response) : outcome Z :=
  match usage_metadata r with
  | Missing => Raised (Exception "AttributeError")
  | Faulty e => Raised e
  | Present None => Returned 0%Z
  | Present (Some md) =>
      match candidates_token_count md with
      | Missing => Returned 0%Z
      | Faulty e => Raised e
      | Present n => Returned n
      end
  end.

(** The output-token count that [transcribe] and [summarize] record:
<<
    output_tokens = 0
    try:
        if hasattr(response, 'usage_metadata'):
            output_tokens = getattr(response.usage_metadata, 'candidates_token_count', 0)
    except Exception:
        output_tokens = len(response.text) // 4
>> *)
Definition extract_output_tokens (r : response) : M (St := tstate F) Z :=
  try_except
    (let* has := await (hasattr_usage_metadata r) in
     if (has : bool) then await (getattr_candidates_token_count r)
     else ret 0%Z)
    (fun e =>
       match e with
       | Exception _ =>
           Some (let* t := await (text r) in
                 ret (Z.of_nat (String.length t) / 4)%Z)
       | _ => None
       end).

Definition set_last_usage (u : usage F) : M (St := tstate F) unit :=
  modify (fun s => TState (model_name s) (Some u) (actions s)).

(** [AudioTranscriber.transcribe] *)
Definition AudioTranscriber_transcribe (audio : audio_content)
    (system_instruction : option string) (use_timestamps : bool)
    (start_time end_time : option string) (audio_duration_seconds : F)
    : M (St := tstate F) string :=
  let prompt :=
    if use_timestamps && truthy_str start_time && truthy_str end_time then
      "Provide a complete and full transcript of the speech from "
      +:+ default "" start_time +:+ " to " +:+ default "" end_time
      +:+ ". Do not truncate or summarize - include every word spoken."
    else
      "Generate a complete and full transcript of the speech. 
Important instructions:
- Include ALL spoken content from the ENTIRE audio file
- Do not truncate, summarize, or stop early
- Transcribe every word from beginning to end
- If the audio is long, continue transcribing until the very end" in
  let contents :=
    TranscribeAudio (if truthy_str system_instruction then system_instruction else None)
                    prompt audio in
  let* input_tokens := count_tokens contents in
  let* self := get in
  log (GenerateContent (model_name self) contents) >>
  let* response := await (api_generate_content (model_name self) contents) in
  let* output_tokens := extract_output_tokens response in
  set_last_usage (estimate_cost (model_name self) input_tokens output_tokens
                                audio_duration_seconds) >>
  await (text response).

(** [AudioTranscriber.summarize]: the summary and its usage record. *)
Definition AudioTranscriber_summarize (transcript : string)
    : M (St := tstate F) (string * usage F) :=
  let prompt :=
    "Please provide a concise summary of the following text.
        Include the main points and key information.
        Text to summarize:
        " +:+ transcript +:+ "
        " in
  let* input_tokens := count_tokens (SummarizeText prompt) in
  let* self := get in
  log (GenerateContent (model_name self) (SummarizeText prompt)) >>
  let* response := await (api_generate_content (model_name self) (SummarizeText prompt)) in
  let* output_tokens := extract_output_tokens response in
  let summary_usage :=
    estimate_cost (model_name self) input_tokens output_tokens (float_of_int 0) in
  let* t := await (text response) in
  ret (t, summary_usage).

(** [u] is the estimate that a call of model [model_name] with contents
    [c] records: the API answers [c] with a response; the input tokens
    are what [count_tokens] gives for [c] and the output tokens what
    [transcribe] and [summarize] read off that response, whatever the
    state of a transcriber of that model; and [u] is [estimate_cost] of
    these for [audio_seconds]. *)
Definition call_estimate (model_name : string) (c : contents) (audio_seconds : F)
    (u : usage F) : Prop :=
  exists (r : response) (input_tokens output_tokens : Z),
    api_generate_content model_name c = Returned r
    /\ (forall st : tstate F, Transcribe.model_name st = model_name ->
          count_tokens c st = (Returned input_tokens, st))
    /\ (forall st : tstate F, extract_output_tokens r st = (Returned output_tokens, st))
    /\ u = estimate_cost model_name input_tokens output_tokens audio_seconds.

(** [AudioTranscriber.cleanup_file]: a failed deletion is only logged. *)
Definition cleanup_file (handle : string) : M (St := tstate F) unit :=
  log (DeleteFile handle) >>
  match api_delete_file handle with
  | Raised (Exception _) => ret tt
  | Raised e => raise e
  | Returned _ => ret tt
  end.

(** [validate_file], for a file that exists: its size in MB. *)
Definition validate_file (f : file) : M (St := tstate F) Q :=
  if bool_decide (suffix f ∈ SUPPORTED_FORMATS) then ret (size_mb f)
  else raise (Exception ("Unsupported format. Supported: "
                         +:+ String.concat ", " SUPPORTED_FORMATS)).

(** [AudioTranscriber.check_api_enabled].  [permission_denied msg] tells
    whether the exception carrying [msg] is a [PermissionDenied]. *)
Variable permission_denied : string -> bool.

Definition check_api_enabled : M (St := tstate F) bool :=
  let* self := get in
  match api_count_tokens (model_name self) CountTest with
  | Returned _ => ret true
  | Raised (Exception msg) =>
      if permission_denied msg && negb (contains "API has not been enabled" msg)
      then raise (Exception msg)
      else ret false
  | Raised e => raise e
  end.

(** *** The transfer decision of the command-line tool (lines 515-524)
<<
    if args.upload or (file_size_mb > MAX_FILE_SIZE_MB and not args.inline):
        audio_content = transcriber.upload_file(audio_file_path)
    else:
        audio_content = transcriber.process_inline(audio_file_path)
>> *)
Definition Qgt_bool (x y : Q) : bool := negb (Qle_bool x y).

Definition main_transfer (upload inline : bool) (f : file) (file_size_mb : Q)
    : M (St := tstate F) (audio_content * option string) :=
  if upload || (Qgt_bool file_size_mb MAX_FILE_SIZE_MB && negb inline) then
    let* audio := upload_file f in
    ret (audio, match audio with UploadedFile h => Some h | _ => None end)
  else
    let* audio := process_inline f in
    ret (audio, None).

(** *** app.py *)

(** Web app inline limit (smaller than CLI due to request size limits). *)
Definition WEB_INLINE_LIMIT_MB : Q := 20.

Record request : Type := Request {
  youtube_url : option string;
  generate_summary : bool;
  save_audio : bool;
  model : option string;
}.

Record body : Type := Body {
  transcription : string;
  video_title : string;
  audio_duration_seconds : F;
  estimated_cost : F;
  model_used : string;
  summary : option string;
  audio_base64 : option (list byte);   (* the bytes the reply encodes in base64 *)
}.

(** A JSON reply with its status code. *)
Inductive reply : Type :=
  | Ok200 (b : body)
  | Failure (status : nat) (error : string).

(** The transfer decision of the web handler (lines 197-206). *)
Definition transcribe_transfer (f : file) (file_size_mb : Q)
    : M (St := tstate F) (audio_content * option string) :=
  if Qle_bool file_size_mb WEB_INLINE_LIMIT_MB then
    let* audio := process_inline f in
    ret (audio, None)
  else
    let* audio := upload_file f in
    ret (audio, match audio with UploadedFile h => Some h | _ => None end).

(** The model the handler works with (lines 128-132). *)
Definition validated_model (data : request) : string :=
  let model_name := default DEFAULT_MODEL (model data) in
  if bool_decide (model_name ∈ dom AVAILABLE_MODELS) then model_name else DEFAULT_MODEL.

(** The body of the handler's [try], once the URL was accepted. *)
Definition transcribe_body (API_KEY : string) (data : request) (url model_name : string)
    : M (St := tstate F) reply :=
  let total_cost := lit 0.0 in
  let* mp3_path := await (download_youtube_audio url) in
  let* file_size_mb := validate_file mp3_path in
  let audio_duration := get_audio_duration_seconds mp3_path in
  let audio_base64 := if save_audio data then Some (content mp3_path) else None in
  modify (fun _ => AudioTranscriber model_name) >>
  let* enabled := check_api_enabled in
  if negb enabled then
    ret (Failure 500
           "Gemini API is not enabled. Please check your API key and project settings.")
  else
    let* '(audio, uploaded_file) := transcribe_transfer mp3_path file_size_mb in
    let* transcription :=
      AudioTranscriber_transcribe audio None false None None audio_duration in
    let* self := get in
    let total_cost :=
      fadd total_cost
           (match last_usage self with
            | Some usage => Transcribe.total_cost usage
            | None => float_of_int 0
            end) in
    let* '(summary, total_cost) :=
      (if generate_summary data then
         let* '(summary, summary_usage) := AudioTranscriber_summarize transcription in
         ret (Some summary, fadd total_cost (Transcribe.total_cost summary_usage))
       else ret (None, total_cost)) in
    (match uploaded_file with
     | Some h => cleanup_file h
     | None => ret tt
     end) >>
    ret (Ok200 {| transcription := transcription;
                  video_title := stem mp3_path;
                  audio_duration_seconds := audio_duration;
                  estimated_cost := fround 4 total_cost;
                  model_used := model_name;
                  summary := if truthy_str summary then summary else None;
                  audio_base64 :=
                    match audio_base64 with
                    | Some [] => None
                    | a => a
                    end |}).

(** The [/transcribe] handler. *)
Definition transcribe (API_KEY : option string) (data : request)
    : M (St := tstate F) reply :=
  if negb (truthy_str API_KEY) then
    ret (Failure 500 "GEMINI_API_KEY environment variable not set. Create a .env file with GEMINI_API_KEY=your_key")
  else
    let url := strip (default "" (youtube_url data)) in
    let model_name := validated_model data in
    if bool_decide (url = "") then
      ret (Failure 400 "Please provide a YouTube URL")
    else if negb (contains "youtube.com" url || contains "youtu.be" url) then
      ret (Failure 400 "Invalid YouTube URL. Please provide a valid YouTube video URL.")
    else
      try_except (transcribe_body (default "" API_KEY) data url model_name)
        (fun e =>
           match e with
           | Exception error_msg => Some (ret (Failure 500 error_msg))
           | _ => None
           end).
End Orchestrator.

(** *** A sample outside world, to run the handler on

    Every download gives a three-byte mp3 of 60 seconds; the API counts
    1000 input tokens, answers every prompt with a text of eight
    characters and reports 2000 output tokens; uploads and deletions
    succeed.  Floats are exact rationals here. *)
Definition sample_file : file := File "talk" ".mp3" ["x"; "y"; "z"]%byte.

Definition sample_response : response :=
  Response (Present (Some (UsageMetadata (Present 2000%Z)))) (Returned "abcdefgh").

Definition sample_transcribe : option string -> request -> M (St := tstate Q) (reply (F := Q)) :=
  transcribe (F := Q)
    (fun _ => Returned sample_file)
    (fun _ => Returned 60000%Z)
    (fun _ _ => Returned 1000%Z)
    (fun _ _ => Returned sample_response)
    (fun _ => Returned "files/abc")
    (fun _ => Returned tt)
    (fun _ => false).

Definition sample_request (model : option string) (generate_summary : bool) : request :=
  Request (Some "https://youtu.be/VIDEO_ID") generate_summary false model.
End Transcribe.

(** ** The live transcription-and-translation service *)
Module Translator.
Local Open Scope list_scope.

(** A text, by its code points, and the literals of the source. *)
Abbreviation pystr := (list N).

Definition cp (s : string) : pystr := map N_of_ascii (list_ascii_of_string s).

Fixpoint lstrip_cp (t : pystr) : pystr :=
  match t with
  | c :: t' => if py_isspace c then lstrip_cp t' else t
  | [] => []
  end.

(** [t.strip()] *)
Definition strip_cp (t : pystr) : pystr := rev (lstrip_cp (rev (lstrip_cp t))).

Abbreviation bytes := (list byte).

(** *** GeminiTranslator *)

Section Adapter.
(** The state the adapter runs in, of which it only touches the record of
    prompts sent to the generative API. *)
Context {St : Type}.
Variable sent_prompt : pystr -> St -> St.
(** [self.model.generate_content(prompt)] followed by [response.text]. *)
Variable api_generate_text : pystr -> outcome pystr.

Definition translation_prompt (text target_language : pystr) : pystr :=
  cp "Translate the following text to " ++ target_language
  ++ cp ". Only return the translation, nothing else:" ++ [10; 10]%N ++ text.

Definition translate (text target_language : pystr) : M (St := St) pystr :=
  if bool_decide (strip_cp text = []) then ret []
  else
    try_except
      (let prompt := translation_prompt text target_language in
       modify (sent_prompt prompt) >>
       let* response_text := await (api_generate_text prompt) in
       ret (strip_cp response_text))
      (fun e =>
         match e with
         | Exception msg => Some (ret (cp "[Translation error: " ++ cp msg ++ cp "]"))
         | _ => None
         end).

(** The API raises nothing but subclasses of [Exception]. *)
Definition only_exceptions : Prop :=
  forall prompt,
    match api_generate_text prompt with
    | Raised CancelledError | Raised (BaseException _) => False
    | _ => True
    end.

(** What [translate] returns for a text, when the API raises nothing but
    subclasses of [Exception]. *)
Definition translation_of (text target_language : pystr) : pystr :=
  if bool_decide (strip_cp text = []) then []
  else
    match api_generate_text (translation_prompt text target_language) with
    | Returned response_text => strip_cp response_text
    | Raised (Exception msg) => cp "[Translation error: " ++ cp msg ++ cp "]"
    | Raised _ => []
    end.
End Adapter.

(** *** The session record and the socket handlers *)

Record session : Type := Session {
  active : bool;
  audio_queue : list bytes;       (* queue.Queue: [put] at the end, [get] at the head *)
  audio_chunks : list bytes;
  original_text : pystr;
  translated_text : pystr;
  source_language : pystr;
  target_language : pystr;
  stream_active : bool;
  stream_thread : option nat;
  pending_audio : list bytes;
  show_timestamps : bool;
  tts_audio : option bytes;
  voice_gender : pystr;
}.

(** What the server emits to a connection. *)
Inductive emission : Type :=
  | connected (session_id : string)
  | session_started (source_language target_language : pystr)
      (show_timestamps : bool) (voice_gender : pystr)
  | session_stopped
  | error (message : pystr)
  | transcription (original : pystr) (translation : option pystr) (is_final : bool)
      (confidence : option Q) (chirp_timestamp : option Q).

(** The [sessions] table, the worker threads started so far and the
    messages emitted. *)
Record server : Type := Server {
  sessions : gmap string session;
  threads : list string;
  emitted : list (string * emission);
}.

Definition emit (session_id : string) (e : emission) (s : server) : server :=
  Server (sessions s) (threads s) (emitted s ++ [(session_id, e)]).

Definition set_session (session_id : string) (x : session) (s : server) : server :=
  Server (<[session_id := x]> (sessions s)) (threads s) (emitted s).

(** The record a connection starts with. *)
Definition new_session : session :=
  {| active := false; audio_queue := []; audio_chunks := [];
     original_text := []; translated_text := [];
     source_language := cp "en-US"; target_language := cp "Spanish";
     stream_active := false; stream_thread := None; pending_audio := [];
     show_timestamps := false; tts_audio := None;
     voice_gender := cp "NEUTRAL" |}.

(** A record whose stream has been switched on, as [start_session] does. *)
Definition handle_started (x : session) : session :=
  {| active := true; audio_queue := audio_queue x; audio_chunks := audio_chunks x;
     original_text := original_text x; translated_text := translated_text x;
     source_language := source_language x; target_language := target_language x;
     stream_active := true; stream_thread := stream_thread x;
     pending_audio := pending_audio x; show_timestamps := show_timestamps x;
     tts_audio := tts_audio x; voice_gender := voice_gender x |}.

Definition handle_connect (session_id : string) (s : server) : server :=
  emit session_id (connected session_id) (set_session session_id new_session s).

(** The payload of [start_session], each key possibly absent. *)
Record start_data : Type := StartData {
  data_source_language : option pystr;
  data_target_language : option pystr;
  data_show_timestamps : option bool;
  data_voice_gender : option pystr;
}.

(** [handle_start_session] up to [time.sleep(0.5)]: the record is
    updated in place and the worker thread started.  Without a record for
    the connection the [KeyError] is reported and the handler ends. *)
Definition handle_start_session_begin (session_id : string) (data : start_data)
    (s : server) : server :=
  let source_language := default (cp "en-US") (data_source_language data) in
  let target_language := default (cp "Spanish") (data_target_language data) in
  let show_timestamps := default false (data_show_timestamps data) in
  let voice_gender := default (cp "NEUTRAL") (data_voice_gender data) in
  match sessions s !! session_id with
  | None => emit session_id (error (cp "'" ++ cp session_id ++ cp "'")) s
  | Some x =>
      let x' :=
        {| active := true;
           source_language := source_language;
           target_language := target_language;
           show_timestamps := show_timestamps;
           voice_gender := voice_gender;
           audio_queue := [];
           audio_chunks := [];
           original_text := [];
           translated_text := [];
           stream_active := true;
           pending_audio := [];
           tts_audio := None;
           stream_thread := Some (length (threads s)) |} in
      Server (<[session_id := x']> (sessions s)) (threads s ++ [session_id]) (emitted s)
  end.

(** [handle_start_session] after the sleep: the pending chunks are put on
    the queue, the list is emptied and the start is acknowledged. *)
Definition handle_start_session_flush (session_id : string) (data : start_data)
    (s : server) : server :=
  let source_language := default (cp "en-US") (data_source_language data) in
  let target_language := default (cp "Spanish") (data_target_language data) in
  let show_timestamps := default false (data_show_timestamps data) in
  let voice_gender := default (cp "NEUTRAL") (data_voice_gender data) in
  match sessions s !! session_id with
  | None => emit session_id (error (cp "'" ++ cp session_id ++ cp "'")) s
  | Some x =>
      let pending := pending_audio x in
      let x' :=
        {| active := active x;
           audio_queue := audio_queue x ++ pending;
           audio_chunks := audio_chunks x;
           original_text := original_text x;
           translated_text := translated_text x;
           source_language := Translator.source_language x;
           target_language := Translator.target_language x;
           stream_active := stream_active x;
           stream_thread := stream_thread x;
           pending_audio := [];
           show_timestamps := Translator.show_timestamps x;
           tts_audio := tts_audio x;
           voice_gender := Translator.voice_gender x |} in
      emit session_id
        (session_started source_language target_language show_timestamps voice_gender)
        (set_session session_id x' s)
  end.

(** The whole handler; [during_sleep] is what the handlers of other
    messages, which run on threads of their own, did to the server while
    this one slept. *)
Definition handle_start_session (session_id : string) (data : start_data)
    (during_sleep : server -> server) (s : server) : server :=
  match sessions s !! session_id with
  | None => handle_start_session_begin session_id data s
  | Some _ =>
      handle_start_session_flush session_id data
        (during_sleep (handle_start_session_begin session_id data s))
  end.

(** [handle_audio_data]; [audio] is what [base64.b64decode(data['audio'])]
    gave. *)
Definition handle_audio_data (session_id : string) (audio : outcome bytes)
    (s : server) : server :=
  match sessions s !! session_id with
  | None => s
  | Some x =>
      match audio with
      | Raised (Exception msg) =>
          emit session_id (error (cp "Audio processing error: " ++ cp msg)) s
      | Raised _ => s
      | Returned audio_bytes =>
          let queued := stream_active x in
          set_session session_id
            {| active := active x;
               audio_queue :=
                 if queued then audio_queue x ++ [audio_bytes] else audio_queue x;
               audio_chunks := audio_chunks x ++ [audio_bytes];
               original_text := original_text x;
               translated_text := translated_text x;
               source_language := source_language x;
               target_language := target_language x;
               stream_active := stream_active x;
               stream_thread := stream_thread x;
               pending_audio :=
                 if queued then pending_audio x else pending_audio x ++ [audio_bytes];
               show_timestamps := show_timestamps x;
               tts_audio := tts_audio x;
               voice_gender := voice_gender x |} s
      end
  end.

(** Every chunk the worker of a connection can still be handed: what is
    on the queue, then what waits in [pending_audio]. *)
Definition deliverable (session_id : string) (s : server) : list bytes :=
  match sessions s !! session_id with
  | Some x => audio_queue x ++ pending_audio x
  | None => []
  end.

(** [handle_stop_session]: the stream is switched off, and after
    [time.sleep(1.0)] the session is marked inactive and the stop
    acknowledged; [during_sleep] is what the other handlers did meanwhile.
    Without a record for the connection only the acknowledgement is sent;
    if the record went away during the sleep, the [KeyError] ends the
    handler before the acknowledgement. *)
Definition handle_stop_session_begin (session_id : string) (s : server) : server :=
  match sessions s !! session_id with
  | None => s
  | Some x =>
      set_session session_id
        {| active := active x; audio_queue := audio_queue x; audio_chunks := audio_chunks x;
           original_text := original_text x; translated_text := translated_text x;
           source_language := source_language x; target_language := target_language x;
           stream_active := false; stream_thread := stream_thread x;
           pending_audio := pending_audio x; show_timestamps := show_timestamps x;
           tts_audio := tts_audio x; voice_gender := voice_gender x |} s
  end.

Definition handle_stop_session (session_id : string) (during_sleep : server -> server)
    (s : server) : server :=
  match sessions s !! session_id with
  | None => emit session_id session_stopped s
  | Some _ =>
      let s1 := during_sleep (handle_stop_session_begin session_id s) in
      match sessions s1 !! session_id with
      | None => s1
      | Some x =>
          emit session_id session_stopped
            (set_session session_id
               {| active := false; audio_queue := audio_queue x;
                  audio_chunks := audio_chunks x;
                  original_text := original_text x; translated_text := translated_text x;
                  source_language := source_language x;
                  target_language := target_language x;
                  stream_active := stream_active x; stream_thread := stream_thread x;
                  pending_audio := pending_audio x; show_timestamps := show_timestamps x;
                  tts_audio := tts_audio x; voice_gender := voice_gender x |} s1)
      end
  end.

(** What a handler does to the record that the worker of the connection
    holds.  The handlers above update the dictionary of the connection in
    place, and the worker works on that same dictionary
    ([session = sessions[session_id]]): it sees its record as the handler
    left it in the table. *)
Definition on_record (session_id : string) (handler : server -> server) (x : session)
    : session :=
  default x (sessions (handler (Server {[ session_id := x ]} [] [])) !! session_id).

(** *** The streaming worker *)

Record alternative : Type := Alternative {
  transcript : pystr;
  confidence : Q;
}.

(** One recognition result of a streaming response. *)
Record result : Type := Result {
  alternatives : list alternative;
  is_final : bool;
  result_end_offset : option Q;
}.

(** What the worker thread of a connection works on: the session record
    it holds a reference to, the prompts it sent to the generative API and
    the notifications it emitted. *)
Record worker : Type := Worker {
  its_session : session;
  prompts : list pystr;
  notifications : list emission;
}.

Definition sent_prompt (p : pystr) (w : worker) : worker :=
  Worker (its_session w) (prompts w ++ [p]) (notifications w).

Definition notify (e : emission) : M (St := worker) unit :=
  modify (fun w => Worker (its_session w) (prompts w) (notifications w ++ [e])).

Definition on_session (f : session -> session) : M (St := worker) unit :=
  modify (fun w => Worker (f (its_session w)) (prompts w) (notifications w)).

(** [session['original_text'] += t] *)
Definition add_original_text (t : pystr) (x : session) : session :=
  {| active := active x; audio_queue := audio_queue x; audio_chunks := audio_chunks x;
     original_text := original_text x ++ t;
     translated_text := translated_text x;
     source_language := source_language x; target_language := target_language x;
     stream_active := stream_active x; stream_thread := stream_thread x;
     pending_audio := pending_audio x; show_timestamps := show_timestamps x;
     tts_audio := tts_audio x; voice_gender := voice_gender x |}.

(** [session['translated_text'] += t] *)
Definition add_translated_text (t : pystr) (x : session) : session :=
  {| active := active x; audio_queue := audio_queue x; audio_chunks := audio_chunks x;
     original_text := original_text x;
     translated_text := translated_text x ++ t;
     source_language := source_language x; target_language := target_language x;
     stream_active := stream_active x; stream_thread := stream_thread x;
     pending_audio := pending_audio x; show_timestamps := show_timestamps x;
     tts_audio := tts_audio x; voice_gender := voice_gender x |}.

Section Worker.
Variable api_generate_text : pystr -> outcome pystr.
(** What the handlers of the connection, on their own threads, did to the
    session record by the time the worker looks at its [n]-th response. *)
Variable handlers : nat -> session -> session.

(** The handlers leave the two texts to the worker. *)
Definition texts_left_alone : Prop :=
  forall n x, original_text (handlers n x) = original_text x
              /\ translated_text (handlers n x) = translated_text x.

(** The handlers do not stop the stream. *)
Definition stream_kept_active : Prop :=
  forall n x, stream_active x = true -> stream_active (handlers n x) = true.

Definition gemini_translate : pystr -> pystr -> M (St := worker) pystr :=
  translate sent_prompt api_generate_text.

(** The body of [for result in response.results]. *)
Definition handle_result (show_timestamps : bool) (target_language : pystr)
    (r : result) : M (St := worker) unit :=
  match alternatives r with
  | [] => ret tt
  | first :: _ =>
      let transcript := transcript first in
      let confidence := if is_final r then confidence first else 0%Q in
      let result_end_offset := if show_timestamps then result_end_offset r else None in
      if is_final r then
        on_session (add_original_text (transcript ++ cp " ")) >>
        let* translation := gemini_translate transcript target_language in
        on_session (add_translated_text (translation ++ cp " ")) >>
        notify (Translator.transcription transcript (Some translation) true
                  (Some confidence) result_end_offset)
      else
        notify (Translator.transcription transcript None false None result_end_offset)
  end.

Fixpoint for_results (show_timestamps : bool) (target_language : pystr)
    (results : list result) : M (St := worker) unit :=
  match results with
  | [] => ret tt
  | r :: results' =>
      handle_result show_timestamps target_language r >>
      for_results show_timestamps target_language results'
  end.

(** [for response in responses], from the [n]-th response on;
    [stream_end] is the exception that ends the response stream, if one
    does. *)
Fixpoint for_responses (n : nat) (show_timestamps : bool) (target_language : pystr)
    (responses : list (list result)) (stream_end : option exn) : M (St := worker) unit :=
  match responses with
  | [] =>
      match stream_end with
      | Some e => raise e
      | None => ret tt
      end
  | response :: responses' =>
      on_session (handlers n) >>
      let* w := get in
      if negb (stream_active (its_session w)) then ret tt
      else
        for_results show_timestamps target_language response >>
        for_responses (S n) show_timestamps target_language responses' stream_end
  end.

Definition streaming_transcribe (responses : list (list result))
    (stream_end : option exn) : M (St := worker) unit :=
  let* w := get in
  let target_language := target_language (its_session w) in
  let show_timestamps := show_timestamps (its_session w) in
  try_except
    (for_responses 0 show_timestamps target_language responses stream_end)
    (fun e =>
       match e with
       | Exception msg => Some (notify (error (cp msg)))
       | _ => None
       end).
End Worker.

(** The finalized segment a result carries, if it does: the first
    alternative of a final result. *)
Definition final_segment (r : result) : list pystr :=
  match alternatives r with
  | first :: _ => if is_final r then [transcript first] else []
  | [] => []
  end.

(** The finalized segments of a response stream, in arrival order. *)
Definition finalized (responses : list (list result)) : list pystr :=
  concat (map (fun response => concat (map final_segment response)) responses).

(** The text that a sequence of segments adds up to: each followed by
    a space. *)
Definition joined (segments : list pystr) : pystr :=
  concat (map (fun t => t ++ cp " ") segments).

(** The session of [w'] has the texts of the session of [w], with
    something appended to each. *)
Definition extends (w w' : worker) : Prop :=
  (exists o, original_text (its_session w') = original_text (its_session w) ++ o)
  /\ (exists t, translated_text (its_session w') = translated_text (its_session w) ++ t).
End Translator.

(** ** More sample worlds for the transcription handler *)
Module HandlerSamples.
Import Transcribe.

(** An mp3 of one byte more than 20 MB. *)
Definition big_file : file :=
  File "lecture" ".mp3" (repeat "x"%byte (N.to_nat 20971521)).

(** The download gives [big_file]; the API counts tokens and accepts the
    upload, but every call of the model fails. *)
Definition failing_model_transcribe
    : option string -> request -> M (St := tstate Q) (reply (F := Q)) :=
  transcribe (F := Q)
    (fun _ => Returned big_file)
    (fun _ => Returned 60000%Z)
    (fun _ _ => Returned 1000%Z)
    (fun _ _ => Raised (Exception "quota exceeded"))
    (fun _ => Returned "files/abc")
    (fun _ => Returned tt)
    (fun _ => false).

(** The probe of the API is refused because the API is not enabled. *)
Definition disabled_api_transcribe
    : option string -> request -> M (St := tstate Q) (reply (F := Q)) :=
  transcribe (F := Q)
    (fun _ => Returned sample_file)
    (fun _ => Returned 60000%Z)
    (fun _ _ => Raised (Exception "403 API has not been enabled"))
    (fun _ _ => Returned sample_response)
    (fun _ => Returned "files/abc")
    (fun _ => Returned tt)
    (fun _ => true).
End HandlerSamples.

(** ** The translation service: downloads, speech and the end of a connection *)
Module Service.
Import Translator.
Local Open Scope list_scope.

(** *** WAV files (chirp2-translator/app.py, [create_wav_file]) *)

Definition SAMPLE_RATE : Z := 16000.
Definition CHANNELS : Z := 1.

Definition byte_of_Z (z : Z) : byte := default x00 (Byte.of_N (Z.to_N z)).

(** The [n] low-order bytes of [z], least significant first. *)
Fixpoint le_bytes (n : nat) (z : Z) : bytes :=
  match n with
  | O => []
  | S n' => byte_of_Z (z mod 256) :: le_bytes n' (z / 256)
  end.

(** The number that bytes stand for, least significant first. *)
Fixpoint le_value (bs : bytes) : Z :=
  match bs with
  | [] => 0
  | b :: bs' => Z.of_N (Byte.to_N b) + 256 * le_value bs'
  end.

(** An argument of [struct.pack] with its format character: ['4s'],
    ['I'] (unsigned, four bytes) and ['H'] (unsigned, two bytes).  The
    format of the source starts with ['<']: little-endian, no padding. *)
Inductive field : Type :=
  | Chars4 (s : bytes)
  | UInt (z : Z)
  | UShort (z : Z).

(** [struct.pack] raises [struct.error] for a number outside the range
    of its format; a string is cut or padded with zero bytes to its
    size. *)
Definition pack_field (f : field) : outcome bytes :=
  match f with
  | Chars4 s => Returned (take 4 (s ++ replicate 4 x00))
  | UInt z =>
      if ((0 <=? z) && (z <=? 4294967295))%Z then Returned (le_bytes 4 z)
      else Raised (Exception "struct.error: 'I' format requires 0 <= number <= 4294967295")
  | UShort z =>
      if ((0 <=? z) && (z <=? 65535))%Z then Returned (le_bytes 2 z)
      else Raised (Exception "struct.error: 'H' format requires 0 <= number <= 65535")
  end.

Fixpoint struct_pack (fields : list field) : outcome bytes :=
  match fields with
  | [] => Returned []
  | f :: fields' =>
      match pack_field f, struct_pack fields' with
      | Returned b, Returned bs => Returned (b ++ bs)
      | Raised e, _ => Raised e
      | Returned _, Raised e => Raised e
      end
  end.

Definition create_wav_file (audio_chunks : list bytes) : outcome bytes :=
  let audio_data := concat audio_chunks in
  let sample_rate := SAMPLE_RATE in
  let num_channels := CHANNELS in
  let bits_per_sample := 16%Z in
  let byte_rate := (sample_rate * num_channels * bits_per_sample / 8)%Z in
  let block_align := (num_channels * bits_per_sample / 8)%Z in
  let data_size := Z.of_nat (length audio_data) in
  match struct_pack
          [Chars4 (list_byte_of_string "RIFF");
           UInt (36 + data_size);
           Chars4 (list_byte_of_string "WAVE");
           Chars4 (list_byte_of_string "fmt ");
           UInt 16;
           UShort 1;
           UShort num_channels;
           UInt sample_rate;
           UInt byte_rate;
           UShort block_align;
           UShort bits_per_sample;
           Chars4 (list_byte_of_string "data");
           UInt data_size] with
  | Returned header => Returned (header ++ audio_data)
  | Raised e => Raised e
  end.

(** *** The download routes *)

(** What a route answers: a JSON error with its status, or a file sent
    as an attachment. *)
Inductive attachment : Type :=
  | JsonError (status : nat) (error : string)
  | SendFile (data : bytes) (mimetype download_name : string).

Definition download_audio (session_id : string) (s : server) : outcome attachment :=
  match sessions s !! session_id with
  | None => Returned (JsonError 404 "Session not found")
  | Some x =>
      match audio_chunks x with
      | [] => Returned (JsonError 404 "No audio recorded")
      | _ :: _ =>
          match create_wav_file (audio_chunks x) with
          | Returned wav_data =>
              Returned (SendFile wav_data "audio/wav"
                          ("recording_" +:+ session_id +:+ ".wav"))
          | Raised e => Raised e
          end
      end
  end.

Definition download_tts_audio (session_id : string) (s : server) : attachment :=
  match sessions s !! session_id with
  | None => JsonError 404 "Session not found"
  | Some x =>
      match tts_audio x with
      | None | Some [] => JsonError 404 "No TTS audio available"
      | Some tts_audio =>
          SendFile tts_audio "audio/mpeg" ("translation_audio_" +:+ session_id +:+ ".mp3")
      end
  end.

(** *** Text to speech *)

(** Language code mapping for Google TTS. *)
Definition TTS_LANGUAGE_MAP : gmap pystr string :=
  list_to_map
    [(cp "Spanish", "es-ES"); (cp "English", "en-US"); (cp "French", "fr-FR");
     (cp "German", "de-DE"); (cp "Italian", "it-IT"); (cp "Portuguese", "pt-BR");
     (cp "Japanese", "ja-JP"); (cp "Korean", "ko-KR"); (cp "Chinese", "zh-CN");
     (cp "Arabic", "ar-XA"); (cp "Danish", "da-DK"); (cp "Greek", "el-GR");
     (cp "Indonesian", "id-ID"); (cp "Polish", "pl-PL"); (cp "Thai", "th-TH");
     (cp "Turkish", "tr-TR"); (cp "Filipino", "fil-PH"); (cp "Cebuano", "ceb-PH")].

Inductive SsmlVoiceGender : Type :=
  | MALE
  | FEMALE
  | NEUTRAL.

(** The request sent to the speech client; the encoding is MP3, the
    speaking rate 1.0 and the pitch 0.0 in every request. *)
Record synthesis : Type := Synthesis {
  synthesis_text : pystr;
  language_code : string;
  ssml_gender : SsmlVoiceGender;
}.

(** The payload of [request_tts], each key possibly absent. *)
Record tts_data : Type := TtsData {
  tts_text : option pystr;
  tts_target_language : option pystr;
  tts_voice_gender : option pystr;
}.

(** The [tts_audio] message sent to a connection; the audio travels in
    base64. *)
Record tts_message : Type := TtsMessage {
  message_audio : bytes;
  message_format : string;
  message_voice_gender : pystr;
}.

Section Speech.
(** [str.upper], and [tts_client.synthesize_speech(...).audio_content]. *)
Variable upper : pystr -> pystr.
Variable synthesize_speech : synthesis -> outcome bytes.

Definition generate_speech (text target_language voice_gender : pystr) : outcome bytes :=
  let language_code := default "en-US" (TTS_LANGUAGE_MAP !! target_language) in
  let gender_map : gmap pystr SsmlVoiceGender :=
    {[ cp "MALE" := MALE; cp "FEMALE" := FEMALE; cp "NEUTRAL" := NEUTRAL ]} in
  let ssml_gender := default NEUTRAL (gender_map !! upper voice_gender) in
  synthesize_speech (Synthesis text language_code ssml_gender).

(** [handle_request_tts]: the server afterwards, and the [tts_audio]
    message if one is sent.  The server is taken as it is when the speech
    comes back, which is when the handler looks up the record. *)
Definition handle_request_tts (session_id : string) (data : tts_data) (s : server)
    : server * option tts_message :=
  let text := default [] (tts_text data) in
  let target_language := default (cp "Spanish") (tts_target_language data) in
  let voice_gender := default (cp "NEUTRAL") (tts_voice_gender data) in
  if bool_decide (strip_cp text = []) then (s, None)
  else
    match generate_speech text target_language voice_gender with
    | Returned audio_content =>
        let s' :=
          match sessions s !! session_id with
          | Some x =>
              set_session session_id
                {| active := active x; audio_queue := audio_queue x;
                   audio_chunks := audio_chunks x;
                   original_text := original_text x; translated_text := translated_text x;
                   source_language := source_language x;
                   target_language := Translator.target_language x;
                   stream_active := stream_active x; stream_thread := stream_thread x;
                   pending_audio := pending_audio x; show_timestamps := show_timestamps x;
                   tts_audio := Some audio_content;
                   voice_gender := Translator.voice_gender x |} s
          | None => s
          end in
        (s', Some (TtsMessage audio_content "mp3" voice_gender))
    | Raised (Exception msg) =>
        (emit session_id (error (cp "Text-to-speech error: " ++ cp msg)) s, None)
    | Raised _ => (s, None)   (* not an [Exception]: it leaves the handler *)
    end.
End Speech.

(** *** The end of a connection *)

(** [handle_disconnect]: the record is marked inactive, the worker is
    waited for (for two seconds at most; [during_join] is what the other
    handlers did meanwhile), and the record is removed from the table.
    No other handler removes a record, so [del] finds it. *)
Definition handle_disconnect (session_id : string) (during_join : server -> server)
    (s : server) : server :=
  match sessions s !! session_id with
  | None => s
  | Some x =>
      let s1 :=
        during_join
          (set_session session_id
             {| active := false; audio_queue := audio_queue x;
                audio_chunks := audio_chunks x;
                original_text := original_text x; translated_text := translated_text x;
                source_language := source_language x;
                target_language := target_language x;
                stream_active := false; stream_thread := stream_thread x;
                pending_audio := pending_audio x; show_timestamps := show_timestamps x;
                tts_audio := tts_audio x; voice_gender := voice_gender x |} s) in
      Server (delete session_id (sessions s1)) (threads s1) (emitted s1)
  end.

(** The chunks of a connection arrive one [audio_data] message each. *)
Definition receive_audio (session_id : string) (chunks : list bytes) (s : server) : server :=
  fold_left (fun s chunk => handle_audio_data session_id (Returned chunk) s) chunks s.
End Service.

(** ** What the streaming worker sends *)
Module WorkerMessages.
Import Translator.
Local Open Scope list_scope.

Section Messages.
Variable api_generate_text : pystr -> outcome pystr.

(** The [transcription] message of a result: none for a result without
    alternatives; for a final result the first alternative with its
    translation and confidence, for an interim one the first alternative
    alone; the offset only when timestamps were asked for. *)
Definition notification_of (show_timestamps : bool) (target_language : pystr)
    (r : result) : list emission :=
  match alternatives r with
  | [] => []
  | first :: _ =>
      let result_end_offset := if show_timestamps then result_end_offset r else None in
      if is_final r then
        [transcription (transcript first)
           (Some (translation_of api_generate_text (transcript first) target_language))
           true (Some (confidence first)) result_end_offset]
      else [transcription (transcript first) None false None result_end_offset]
  end.
End Messages.

(** The prompt that the translation of a segment takes: none for a blank
    one. *)
Definition prompt_of (target_language text : pystr) : list pystr :=
  if bool_decide (strip_cp text = []) then [] else [translation_prompt text target_language].

(** The [error] message for the exception that ended the response stream,
    if the worker catches it. *)
Definition closing_error (stream_end : option exn) : list emission :=
  match stream_end with
  | Some (Exception msg) => [error (cp msg)]
  | _ => []
  end.
End WorkerMessages.

(** ** The upload, with its wait for the file to be processed *)
Module Upload.

(** A file of the Files API: its name, the name of its state and its
    address. *)
Record remote_file : Type := RemoteFile {
  remote_name : string;
  state_name : string;
  uri : string;
}.

Section Polling.
(** [os.path.getsize] *)
Variable getsize : string -> outcome Z.
(** [genai.upload_file(path=file_path, display_name=...)] *)
Variable api_upload_file : string -> outcome remote_file.
(** The answer to the [n]-th call of [genai.get_file], by the name asked
    for. *)
Variable api_get_file : nat -> string -> outcome remote_file.

(** [while uploaded_file.state.name == "PROCESSING"]: two seconds of sleep
    and one call of [get_file] a round.  [polls] counts the calls made so
    far; the result is [None] when the file is still being processed after
    [fuel] rounds. *)
Fixpoint wait_while_processing (fuel polls : nat) (uploaded_file : remote_file)
    {struct fuel} : option (outcome remote_file * nat) :=
  if String.eqb (state_name uploaded_file) "PROCESSING" then
    match fuel with
    | O => None
    | S fuel' =>
        match api_get_file polls (remote_name uploaded_file) with
        | Returned uploaded_file' => wait_while_processing fuel' (S polls) uploaded_file'
        | Raised e => Some (Raised e, S polls)
        end
    end
  else Some (Returned uploaded_file, polls).

(** [AudioTranscriber.upload_file]: what it returns or raises, and the
    number of calls of [get_file] it made. *)
Definition upload_file (fuel : nat) (file_path : string)
    : option (outcome remote_file * nat) :=
  match getsize file_path with
  | Raised e => Some (Raised e, O)
  | Returned _ =>
      match api_upload_file file_path with
      | Raised e => Some (Raised e, O)
      | Returned uploaded_file =>
          match wait_while_processing fuel 0 uploaded_file with
          | None => None
          | Some (Raised e, polls) => Some (Raised e, polls)
          | Some (Returned uploaded_file, polls) =>
              if negb (String.eqb (state_name uploaded_file) "ACTIVE") then
                Some (Raised (Exception ("File upload failed with state: "
                                         ++ state_name uploaded_file)), polls)
              else Some (Returned uploaded_file, polls)
          end
      end
  end.

(** What the service has answered after [i] more calls of [get_file],
    each asking for the name in the answer before: [held] is the answer
    the first of them starts from, [polls] the calls made before it. *)
Fixpoint polled (polls : nat) (held : outcome remote_file) (i : nat)
    : outcome remote_file :=
  match i with
  | O => held
  | S i' =>
      match held with
      | Returned f => polled (S polls) (api_get_file polls (remote_name f)) i'
      | Raised e => Raised e
      end
  end.

(** The answer after [i] calls is a file that is still being processed. *)
Definition processing_at (file_path : string) (i : nat) : Prop :=
  exists f, polled 0 (api_upload_file file_path) i = Returned f
            /\ state_name f = "PROCESSING".
End Polling.
End Upload.

(** * Properties *)

(** ** The monad's combinators and the relations they respect *)
Section MonadFacts.
Context {St : Type} (R : St -> St -> Prop) `{!PreOrder R}.

Lemma respects_ret {A} (a : A) : respects R (ret a).
Proof. intros s. simpl. reflexivity. Qed.

Lemma respects_raise {A} (e : exn) : respects R (raise (A := A) e).
Proof. intros s. simpl. reflexivity. Qed.

Lemma respects_await {A} (o : outcome A) : respects R (await o).
Proof. intros s. simpl. reflexivity. Qed.

Lemma respects_get : respects R get.
Proof. intros s. simpl. reflexivity. Qed.

Lemma respects_modify (g : St -> St) : (forall s, R s (g s)) -> respects R (modify g).
Proof. intros Hg s. apply Hg. Qed.

Lemma respects_bind {A C} (m : M A) (k : A -> M C) :
  respects R m -> (forall a, respects R (k a)) -> respects R (bind m k).
Proof.
  intros Hm Hk s. unfold bind. specialize (Hm s).
  destruct (m s) as [[a | e] s']; simpl in *; [| exact Hm].
  transitivity s'; [exact Hm | apply Hk].
Qed.

Lemma respects_try_except {A} (body : M A) (handler : exn -> option (M A)) :
  respects R body -> (forall e h, handler e = Some h -> respects R h) ->
  respects R (try_except body handler).
Proof.
  intros Hb Hh s. unfold try_except. specialize (Hb s).
  destruct (body s) as [[a | e] s']; simpl in *; [exact Hb |].
  destruct (handler e) as [h |] eqn:E; simpl; [| exact Hb].
  transitivity s'; [exact Hb | apply (Hh e h E)].
Qed.

Lemma respects_try_finally {A} (body : M A) (fin : M unit) :
  respects R body -> respects R fin -> respects R (try_finally body fin).
Proof.
  intros Hb Hf s. unfold try_finally. specialize (Hb s).
  destruct (body s) as [r s']. specialize (Hf s').
  destruct (fin s') as [[u | e] s'']; simpl in *; transitivity s'; assumption.
Qed.
End MonadFacts.

#[export] Instance unchanged_preorder {St B} (f : St -> B) : PreOrder (unchanged f).
Proof. split; unfold unchanged; [intros s; reflexivity | intros x y z; congruence]. Qed.

(** What one bind that returned went through. *)
Lemma bind_returned {St A B} (m : M (St := St) A) (k : A -> M B) s b s' :
  bind m k s = (Returned b, s') ->
  exists a s1, m s = (Returned a, s1) /\ k a s1 = (Returned b, s').
Proof.
  unfold bind. destruct (m s) as [[a | e] s1]; [| discriminate].
  intros Hk. exists a, s1. split; [reflexivity | exact Hk].
Qed.

(** What a [try ... except] that returned went through: its body
    returned, or the body raised and a handler returned. *)
Lemma try_except_returned {St A} (body : M (St := St) A) handler s a s' :
  try_except body handler s = (Returned a, s') ->
  body s = (Returned a, s')
  \/ exists e h s1, body s = (Raised e, s1) /\ handler e = Some h /\ h s1 = (Returned a, s').
Proof.
  unfold try_except. destruct (body s) as [[a0 | e] s1]; [auto |].
  destruct (handler e) as [h |] eqn:E; [| discriminate].
  intros Hh. right. exists e, h, s1. auto.
Qed.


Create HintDb frame.

(** Decomposes a goal [respects R m] along the combinators of [m]. *)
Ltac frame_step :=
  first
    [ apply respects_ret; apply _
    | apply respects_raise; apply _
    | apply respects_await; apply _
    | apply respects_get; apply _
    | apply respects_modify; intros; reflexivity
    | apply respects_bind; [apply _ | | intros ?]
    | apply respects_try_finally; [apply _ | | ]
    | apply respects_try_except;
      [ apply _ | | let e := fresh "e" in
                    let h := fresh "h" in
                    let E := fresh "E" in
                    intros e h E; destruct e; inversion E; subst; clear E ]
    | solve [eauto with frame]
    | match goal with
      | |- respects _ (match ?x with _ => _ end) => destruct x
      end ].

Ltac frame := repeat frame_step.

(** Takes apart a hypothesis saying that a bind returned. *)
Tactic Notation "bind_inv" hyp(H) "as" ident(a) ident(s) ident(E) :=
  apply bind_returned in H as (a & s & E & H).

(** ** The single-flight guard *)
Module GuardProofs.
Import Guard.

Section Facts.
Variable send_raises : list (nat * string) -> nat -> string -> option exn.
Variable CLOUD_FUNCTIONS : gmap string (option string).
Variable cloud_function : option string -> dict -> dict.

Lemma send_keeps_tasks g msg : respects (unchanged tasks) (send send_raises g msg).
Proof.
  unfold send. apply respects_bind; [apply _ | apply respects_get; apply _ |].
  intros s. destruct (send_raises _ _ _).
  - apply respects_raise; apply _.
  - apply respects_modify. intros s'. reflexivity.
Qed.

(** Whatever the awaited call and the sends do, the wrapper ends with the
    slot empty. *)
Lemma run_and_log_task_slot coro query g s :
  background_task (snd (run_and_log_task send_raises coro query g s)) = None.
Proof.
  unfold run_and_log_task, try_finally, modify.
  destruct (try_except _ _ s) as [r s']. reflexivity.
Qed.

Lemma run_and_log_task_tasks coro query g :
  respects (unchanged tasks) (run_and_log_task send_raises coro query g).
Proof.
  unfold run_and_log_task.
  apply respects_try_finally; [apply _ | | apply respects_modify; reflexivity].
  apply respects_try_except; [apply _ | |].
  - apply respects_bind; [apply _ | apply respects_await; apply _ |].
    intros result. destruct (is_success result).
    + apply send_keeps_tasks.
    + apply respects_ret; apply _.
  - intros e h He. destruct e; inversion He; subst; apply send_keeps_tasks.
Qed.

Lemma slot_busy_pending s :
  slot_busy s = true ->
  exists t tk, background_task s = Some t /\ tasks s !! t = Some tk /\ task_done tk = false.
Proof.
  unfold slot_busy. destruct (background_task s) as [t |]; [| discriminate].
  destruct (tasks s !! t) as [tk |] eqn:E; [| discriminate].
  intros Hd. exists t, tk. repeat split; auto. destruct (task_done tk); auto; discriminate.
Qed.

Lemma single_flight_idle s t tk :
  single_flight s -> slot_busy s = false -> tasks s !! t = Some tk -> task_done tk = true.
Proof.
  intros Hs Hb Ht. destruct (task_done tk) eqn:Hd; [reflexivity |].
  pose proof (Hs t tk Ht Hd) as Hslot.
  unfold slot_busy in Hb. rewrite Hslot, Ht, Hd in Hb. discriminate.
Qed.

Lemma lookup_alter_task (g : task -> task) (t0 t : nat) (l : list task) (tk : task) :
  (forall x, task_done (g x) = task_done x) ->
  alter g t0 l !! t = Some tk ->
  exists tk0, l !! t = Some tk0 /\ task_done tk0 = task_done tk.
Proof.
  intros Hg Ht. destruct (decide (t0 = t)) as [-> | Hne].
  - rewrite list_lookup_alter_eq in Ht.
    destruct (l !! t) as [tk0 |]; simpl in Ht; [| discriminate].
    exists tk0. split; [reflexivity |]. inversion Ht; subst. symmetry. apply Hg.
  - rewrite list_lookup_alter_ne in Ht by exact Hne. exists tk. auto.
Qed.

Lemma create_task_single_flight q g s :
  single_flight s -> slot_busy s = false -> single_flight (create_task q g s).
Proof.
  intros Hs Hb t tk Ht Hd. unfold create_task in *. simpl in *.
  apply lookup_snoc_Some in Ht as [[Hlt Ht] | [-> _]]; [| reflexivity].
  rewrite (single_flight_idle s t tk Hs Hb Ht) in Hd. discriminate.
Qed.

Lemma execute_tool_single_flight tool_name params genai_session s :
  single_flight s ->
  single_flight (snd (execute_tool CLOUD_FUNCTIONS cloud_function tool_name params genai_session s)).
Proof.
  intros Hs. unfold execute_tool.
  case_bool_decide.
  { destruct (slot_busy s) eqn:Hb; simpl; [| exact Hs].
    intros t tk Ht Hd. unfold cancel_slot_task in *. simpl in *.
    destruct (background_task s) as [b |] eqn:Eb; simpl in *.
    - apply lookup_alter_task in Ht as (tk0 & Ht0 & Hd0); [| reflexivity].
      assert (task_done tk0 = false) as Hd1 by congruence.
      pose proof (Hs t tk0 Ht0 Hd1). congruence.
    - pose proof (Hs t tk Ht Hd). congruence. }
  case_bool_decide.
  { destruct (slot_busy s) eqn:Hb; simpl; [exact Hs |].
    destruct (negb (truthy_str (params !! "query"))); simpl; [exact Hs |].
    destruct genai_session as [g |]; simpl; [| exact Hs].
    apply create_task_single_flight; assumption. }
  destruct (CLOUD_FUNCTIONS !! tool_name); exact Hs.
Qed.

Lemma mark_started_single_flight t s : single_flight s -> single_flight (mark_started t s).
Proof.
  intros Hs t' tk' Ht' Hd'. unfold mark_started in *. simpl in *.
  apply lookup_alter_task in Ht' as (tk0 & Ht0 & Hd0); [| reflexivity].
  apply (Hs t' tk0 Ht0). congruence.
Qed.

Lemma mark_done_single_flight t s : single_flight s -> single_flight (mark_done t s).
Proof.
  intros Hs t' tk' Ht' Hd'. unfold mark_done in *. simpl in *.
  destruct (decide (t = t')) as [-> | Hne].
  - rewrite list_lookup_alter_eq in Ht'.
    destruct (tasks s !! t') as [tk0 |]; simpl in Ht'; [| discriminate].
    inversion Ht'; subst. discriminate.
  - rewrite list_lookup_alter_ne in Ht' by exact Hne. exact (Hs t' tk' Ht' Hd').
Qed.

Lemma step_single_flight s e :
  single_flight s -> single_flight (step send_raises CLOUD_FUNCTIONS cloud_function s e).
Proof.
  intros Hs. destruct e as [tool_name params g | t | t coro |]; simpl.
  - apply execute_tool_single_flight, Hs.
  - destruct (tasks s !! t) as [tk |] eqn:Et; [| exact Hs].
    destruct (task_started tk || task_done tk); [exact Hs |].
    destruct (task_cancelling tk).
    + apply mark_done_single_flight, Hs.
    + apply mark_started_single_flight, Hs.
  - destruct (tasks s !! t) as [tk |] eqn:Et; [| exact Hs].
    destruct (task_started tk && negb (task_done tk)) eqn:Erun; [| exact Hs].
    apply andb_true_iff in Erun as [_ Ed]. apply negb_true_iff in Ed.
    intros t' tk' Ht' Hd'. unfold mark_done in *. simpl in *.
    rewrite (run_and_log_task_tasks coro (task_query tk) (task_session tk) s) in Ht'.
    destruct (decide (t = t')) as [-> | Hne].
    + rewrite list_lookup_alter_eq, Et in Ht'. simpl in Ht'.
      inversion Ht'; subst. discriminate.
    + rewrite list_lookup_alter_ne in Ht' by exact Hne.
      pose proof (Hs t tk Et Ed) as H1. pose proof (Hs t' tk' Ht' Hd') as H2.
      congruence.
  - exact Hs.
Qed.

Lemma run_single_flight es s :
  single_flight s -> single_flight (run send_raises CLOUD_FUNCTIONS cloud_function es s).
Proof.
  revert s. induction es as [| e es IH]; intros s Hs; simpl; [exact Hs |].
  apply IH, step_single_flight, Hs.
Qed.

Lemma initial_single_flight : single_flight initial.
Proof. intros t tk Ht. discriminate. Qed.

(** C1. In every state the event loop can reach, a task that has not
    completed is the one in the slot, so there is at most one; and a start
    request that finds one there is answered [already_running], creates
    no task and leaves the whole state, slot and task included, as it
    was. *)
Theorem start_while_running_rejected es s params genai_session :
  s = run send_raises CLOUD_FUNCTIONS cloud_function es initial ->
  slot_busy s = true ->
  (forall t1 t2 tk1 tk2,
      tasks s !! t1 = Some tk1 -> task_done tk1 = false ->
      tasks s !! t2 = Some tk2 -> task_done tk2 = false ->
      t1 = t2 /\ background_task s = Some t1)
  /\ execute_tool CLOUD_FUNCTIONS cloud_function "execute_computer_task" params genai_session s
     = ({[ "status" := "already_running"; "summary" := "A task is in progress." ]}, s).
Proof.
  intros -> Hb. split.
  - intros t1 t2 tk1 tk2 H1 D1 H2 D2.
    pose proof (run_single_flight es initial initial_single_flight) as Hs.
    pose proof (Hs t1 tk1 H1 D1) as E1. pose proof (Hs t2 tk2 H2 D2) as E2.
    split; [congruence | exact E1].
  - unfold execute_tool. rewrite bool_decide_eq_false_2 by discriminate.
    rewrite bool_decide_eq_true_2 by reflexivity. rewrite Hb. reflexivity.
Qed.

(** A task whose cancellation was requested before the loop entered it
    ends without its wrapper: no turn is sent and the slot still refers
    to it.  The guard is idle all the same, for the task is done. *)
Lemma cancelled_before_start_skips_wrapper s t tk :
  tasks s !! t = Some tk ->
  task_started tk = false -> task_done tk = false -> task_cancelling tk = true ->
  background_task s = Some t ->
  let s' := step send_raises CLOUD_FUNCTIONS cloud_function s (TaskStarts t) in
  s' = mark_done t s
  /\ background_task s' = Some t
  /\ turns s' = turns s
  /\ slot_busy s' = false
  /\ (forall coro, step send_raises CLOUD_FUNCTIONS cloud_function s' (TaskEnds t coro) = s').
Proof.
  intros Ht Hst Hd Hc Hslot s'.
  assert (Hstep : s' = mark_done t s)
    by (subst s'; simpl; rewrite Ht, Hst, Hd, Hc; reflexivity).
  rewrite Hstep. clear Hstep s'.
  assert (Hl : tasks (mark_done t s) !! t
               = Some (Task (task_query tk) (task_session tk) false true true)).
  { unfold mark_done. simpl. rewrite list_lookup_alter_eq, Ht. simpl.
    rewrite Hst, Hc. reflexivity. }
  split; [reflexivity |]. split; [exact Hslot |]. split; [reflexivity |]. split.
  - unfold slot_busy.
    change (background_task (mark_done t s)) with (background_task s).
    rewrite Hslot, Hl. reflexivity.
  - intros coro. cbn [step]. rewrite Hl. reflexivity.
Qed.

(** The agent's thread does to the shared state what [AgentClears] does,
    whatever the agent did. *)
Lemma agent_thread_clears query agent s :
  snd (run_computer_agent_task query agent s)
  = step send_raises CLOUD_FUNCTIONS cloud_function s AgentClears.
Proof. destruct agent as [fr | [| msg | msg]]; reflexivity. Qed.




(** What the agent thread hands back when the agent raised an
    [Exception]: a dictionary whose status is [error]. *)
Lemma executor_outcome_error query msg s :
  executor_outcome query (AgentRaises (Exception msg)) s
  = Returned (Some {[ "status" := "error"; "summary" := msg ]}).
Proof. reflexivity. Qed.

Lemma success_dict_lookup (summary : string) :
  is_success (Some {[ "status" := "success"; "summary" := summary ]}) = true
  /\ ({[ "status" := "success"; "summary" := summary ]} : dict) !! "summary" = Some summary.
Proof.
  split.
  - unfold is_success. apply andb_true_intro. split.
    + apply negb_true_iff, bool_decide_eq_false_2. apply insert_non_empty.
    + apply bool_decide_eq_true_2, lookup_insert_eq.
  - rewrite lookup_insert_ne by discriminate. apply lookup_singleton_eq.
Qed.

(** When the agent ends normally, the wrapper forwards its summary, once. *)
Lemma success_forwarded_once query g s final_reasoning :
  let summary := if truthy_str final_reasoning then default "" final_reasoning
                 else "Task completed, but no final summary was generated." in
  send_raises (turns s) g summary = None ->
  turns (snd (run_and_log_task send_raises
                (executor_outcome query (AgentReturns final_reasoning) s) query g s))
  = (turns s ++ [(g, summary)])%list.
Proof.
  intros summary Hsend.
  assert (Ho : executor_outcome query (AgentReturns final_reasoning) s
               = Returned (Some {[ "status" := "success"; "summary" := summary ]}))
    by reflexivity.
  rewrite Ho. destruct (success_dict_lookup summary) as [Hs Hl].
  unfold run_and_log_task, try_finally, try_except, bind, await. rewrite Hs.
  simpl. rewrite Hl. simpl.
  unfold send, bind, get, modify, raise. rewrite Hsend. reflexivity.
Qed.

(** When the task is cancelled while it awaits the agent, the wrapper
    forwards the cancellation notice, once. *)
Lemma cancellation_forwarded_once query g s :
  send_raises (turns s) g "The task has been cancelled." = None ->
  turns (snd (run_and_log_task send_raises (Raised CancelledError) query g s))
  = (turns s ++ [(g, "The task has been cancelled.")])%list.
Proof.
  intros Hsend.
  unfold run_and_log_task, try_finally, try_except, bind, await. simpl.
  unfold send, bind, get, modify, raise. rewrite Hsend. reflexivity.
Qed.

(** C3, where the code departs from it. When the agent raises an
    [Exception], [run_computer_agent_task] turns it into a dictionary
    with status [error]; the wrapper, which forwards a summary only for
    status [success], returns normally having sent nothing to the
    conversation, whatever the sends would have done. The slot is
    cleared all the same. *)
Theorem agent_error_not_forwarded query msg g s :
  run_and_log_task send_raises
    (executor_outcome query (AgentRaises (Exception msg)) s) query g s
  = (Returned tt, set_background_task None s)
  /\ turns (snd (run_and_log_task send_raises
                   (executor_outcome query (AgentRaises (Exception msg)) s) query g s))
     = turns s.
Proof.
  rewrite executor_outcome_error.
  unfold run_and_log_task, try_finally, try_except, bind, await, modify, ret, is_success.
  simpl.
  assert (Hst : ({[ "status" := "error"; "summary" := msg ]} : dict) !! "status"
                = Some "error") by apply lookup_insert_eq.
  rewrite Hst.
  rewrite (bool_decide_eq_false_2 (Some "error" = Some "success")) by discriminate.
  rewrite andb_false_r. split; reflexivity.
Qed.
End Facts.

(** The guard at work: a first start is accepted, and a second one that
    arrives while the first task runs is turned away. *)
Lemma start_while_running_rejected_witness :
  let s := run (fun _ _ _ => None) ∅ (fun _ _ => ∅)
             [ToolCall "execute_computer_task" {[ "query" := "search for X" ]} (Some 0)]
             initial in
  (forall t1 t2 tk1 tk2,
      tasks s !! t1 = Some tk1 -> task_done tk1 = false ->
      tasks s !! t2 = Some tk2 -> task_done tk2 = false ->
      t1 = t2 /\ background_task s = Some t1)
  /\ execute_tool ∅ (fun _ _ => ∅) "execute_computer_task"
       {[ "query" := "search for Y" ]} (Some 0) s
     = ({[ "status" := "already_running"; "summary" := "A task is in progress." ]}, s).
Proof.
  apply (start_while_running_rejected (fun _ _ _ => None) ∅ (fun _ _ => ∅)
           [ToolCall "execute_computer_task" {[ "query" := "search for X" ]} (Some 0)]).
  - reflexivity.
  - vm_compute. reflexivity.
Defined.

End GuardProofs.

(** ** The transcription orchestrator *)
Module TranscribeProofs.
Import Transcribe.

Section Facts.
Context {F : Type} `{PyFloat F}.
Variable download_youtube_audio : string -> outcome file.
Variable audio_length_ms : file -> outcome Z.
Variable api_count_tokens : string -> contents -> outcome Z.
Variable api_generate_content : string -> contents -> outcome response.
Variable api_upload_file : file -> outcome string.
Variable api_delete_file : string -> outcome unit.
Variable permission_denied : string -> bool.

Local Abbreviation web_transcribe :=
  (transcribe download_youtube_audio audio_length_ms api_count_tokens
     api_generate_content api_upload_file api_delete_file permission_denied).
Local Abbreviation web_transcribe_body :=
  (transcribe_body download_youtube_audio audio_length_ms api_count_tokens
     api_generate_content api_upload_file api_delete_file permission_denied).
Local Abbreviation at_transcribe :=
  (AudioTranscriber_transcribe api_count_tokens api_generate_content).
Local Abbreviation at_summarize :=
  (AudioTranscriber_summarize api_count_tokens api_generate_content).
Local Abbreviation estimate_of_call :=
  (call_estimate api_count_tokens api_generate_content).

(** *** The transfer decision *)

Lemma log_actions (a : action) (st : tstate F) :
  actions (snd (log a st)) = (actions st ++ [a])%list.
Proof. reflexivity. Qed.

Lemma process_inline_actions f (st : tstate F) :
  actions (snd (process_inline f st)) = (actions st ++ [ProcessInline f])%list.
Proof. reflexivity. Qed.

Lemma upload_file_actions f (st : tstate F) :
  actions (snd (upload_file api_upload_file f st)) = (actions st ++ [UploadFile f])%list.
Proof.
  unfold upload_file, bind, log, modify, await, ret. simpl.
  destruct (api_upload_file f); reflexivity.
Qed.

Lemma chosen_one {A} (m : M (St := tstate F) A) st a t :
  actions (snd (m st)) = (actions st ++ [a])%list -> transfer_of a = Some t ->
  chosen m st = [t].
Proof.
  intros Ha Ht. unfold chosen. rewrite Ha, drop_app_length. simpl. rewrite Ht. reflexivity.
Qed.

Lemma transcribe_transfer_chosen f s (st : tstate F) :
  chosen (transcribe_transfer api_upload_file f s) st
  = [spec_transfer WEB_INLINE_LIMIT_MB s None].
Proof.
  unfold transcribe_transfer, spec_transfer.
  destruct (Qle_bool s WEB_INLINE_LIMIT_MB).
  - apply (chosen_one _ st (ProcessInline f)); reflexivity.
  - apply (chosen_one _ st (UploadFile f)); [| reflexivity].
    pose proof (upload_file_actions f st) as Hu.
    unfold bind. destruct (upload_file api_upload_file f st) as [[a | e] st']; exact Hu.
Qed.

Lemma main_transfer_chosen upload inline f s (st : tstate F) :
  chosen (main_transfer api_upload_file upload inline f s) st
  = [spec_transfer MAX_FILE_SIZE_MB s (cli_override upload inline)].
Proof.
  unfold main_transfer, spec_transfer, cli_override, Qgt_bool.
  assert (Hup : chosen (let* audio := upload_file api_upload_file f in
                        ret (audio, match audio with
                                    | UploadedFile h => Some h
                                    | _ => None
                                    end)) st = [Upload]).
  { apply (chosen_one _ st (UploadFile f)); [| reflexivity].
    pose proof (upload_file_actions f st) as Hu.
    unfold bind. destruct (upload_file api_upload_file f st) as [[a | e] st']; exact Hu. }
  assert (Hin : chosen (let* audio := process_inline f in
                        ret (audio, None : option string)) st = [Inline]).
  { apply (chosen_one _ st (ProcessInline f)); reflexivity. }
  destruct upload, inline, (Qle_bool s MAX_FILE_SIZE_MB); simpl; assumption.
Qed.

(** C4. Which transfer is made is the specification's policy applied to
    the size and the override flags alone, in the web handler (threshold
    20 MB, no override) and in the command-line tool (threshold 100 MB,
    [--upload] and [--inline]): the file and the state do not enter into
    it. At or under the threshold the audio goes inline, above it is
    uploaded, unless a flag forces the other way. *)
Theorem transfer_policy (f : file) (s : Q) (upload inline : bool) (st : tstate F) :
  let web := chosen (transcribe_transfer api_upload_file f s) st in
  let cli := chosen (main_transfer api_upload_file upload inline f s) st in
  web = [spec_transfer WEB_INLINE_LIMIT_MB s None]
  /\ cli = [spec_transfer MAX_FILE_SIZE_MB s (cli_override upload inline)]
  /\ (forall (f' : file) (st' : tstate F), chosen (transcribe_transfer api_upload_file f' s) st' = web
                     /\ chosen (main_transfer api_upload_file upload inline f' s) st' = cli)
  /\ ((s <= WEB_INLINE_LIMIT_MB)%Q -> web = [Inline])
  /\ ((WEB_INLINE_LIMIT_MB < s)%Q -> web = [Upload])
  /\ (upload = false -> inline = false -> (s <= MAX_FILE_SIZE_MB)%Q -> cli = [Inline])
  /\ (upload = false -> inline = false -> (MAX_FILE_SIZE_MB < s)%Q -> cli = [Upload])
  /\ (upload = true -> cli = [Upload])
  /\ (upload = false -> inline = true -> cli = [Inline]).
Proof.
  intros web cli. subst web cli.
  rewrite !transcribe_transfer_chosen, !main_transfer_chosen.
  split; [reflexivity |]. split; [reflexivity |].
  split.
  { intros f' st'. rewrite transcribe_transfer_chosen, main_transfer_chosen. auto. }
  unfold spec_transfer.
  repeat split.
  - intros Hle. apply Qle_bool_iff in Hle. rewrite Hle. reflexivity.
  - intros Hlt. destruct (Qle_bool s WEB_INLINE_LIMIT_MB) eqn:E; [| reflexivity].
    apply Qle_bool_iff in E. exfalso. apply (Qlt_not_le _ _ Hlt E).
  - intros -> -> Hle. simpl. apply Qle_bool_iff in Hle. rewrite Hle. reflexivity.
  - intros -> -> Hlt. simpl. destruct (Qle_bool s MAX_FILE_SIZE_MB) eqn:E; [| reflexivity].
    apply Qle_bool_iff in E. exfalso. apply (Qlt_not_le _ _ Hlt E).
  - intros ->. reflexivity.
  - intros -> ->. reflexivity.
Qed.

(** *** Output tokens *)

(** A count in the usage metadata is the one recorded. *)
Lemma present_metadata_counted r md n (st : tstate F) :
  usage_metadata r = Present (Some md) -> candidates_token_count md = Present n ->
  extract_output_tokens r st = (Returned n, st).
Proof.
  intros Hr Hmd.
  unfold extract_output_tokens, try_except, bind, await, hasattr_usage_metadata,
    getattr_candidates_token_count.
  rewrite Hr, Hmd. reflexivity.
Qed.

(** The estimate from the length of the text is made when reading the
    metadata raises. *)
Lemma faulty_metadata_estimated msg t (st : tstate F) :
  extract_output_tokens (Response (Faulty (Exception msg)) (Returned t)) st
  = (Returned (Z.of_nat (String.length t) / 4)%Z, st).
Proof. reflexivity. Qed.

(** C8, where the code departs from it. A response without usage
    metadata has its output tokens recorded as 0, whatever the length of
    its text: the estimate by a quarter of the length is made only in the
    [except] clause, which absent metadata does not reach. The same
    holds when the metadata is [None] or lacks the count. *)
Theorem absent_metadata_not_estimated (t : outcome string) (st : tstate F) :
  extract_output_tokens (Response Missing t) st = (Returned 0%Z, st)
  /\ extract_output_tokens (Response (Present None) t) st = (Returned 0%Z, st)
  /\ extract_output_tokens (Response (Present (Some (UsageMetadata Missing))) t) st
     = (Returned 0%Z, st).
Proof. repeat split. Qed.

(** *** Cost *)

Lemma default_model_available :
  AVAILABLE_MODELS (F := F) !! DEFAULT_MODEL = Some gemini_2_5_flash.
Proof. apply lookup_insert_eq. Qed.

Lemma validated_model_available data :
  validated_model (F := F) data ∈ dom (AVAILABLE_MODELS (F := F)).
Proof.
  unfold validated_model. case_bool_decide as Hin; [exact Hin |].
  apply elem_of_dom. rewrite default_model_available. eauto.
Qed.


(** The built-in table gives each of its models its own prices. *)
Lemma estimate_cost_total m info i o a :
  AVAILABLE_MODELS (F := F) !! m = Some info ->
  total_cost (estimate_cost m i o a)
  = fadd (fadd (fmul (int_truediv i 1000) (price_input_per_1k info))
               (fmul (int_truediv o 1000) (price_output_per_1k info)))
         (fmul a (price_audio_per_second info)).
Proof. intros Hm. unfold estimate_cost. rewrite Hm. reflexivity. Qed.

(** The transcriber keeps the model it was created with. *)
Lemma log_model a : respects (unchanged model_name) (log (F := F) a).
Proof. unfold log. frame. Qed.

Lemma count_tokens_model c :
  respects (unchanged model_name) (count_tokens (F := F) api_count_tokens c).
Proof. unfold count_tokens. frame. Qed.

Lemma extract_output_tokens_model r :
  respects (unchanged model_name) (extract_output_tokens (F := F) r).
Proof. unfold extract_output_tokens. frame. Qed.

Lemma set_last_usage_model u : respects (unchanged model_name) (set_last_usage (F := F) u).
Proof. unfold set_last_usage. frame. Qed.

#[local] Hint Resolve log_model count_tokens_model extract_output_tokens_model
  set_last_usage_model : frame.

Lemma process_inline_model f : respects (unchanged model_name) (process_inline (F := F) f).
Proof. unfold process_inline. frame. Qed.

Lemma upload_file_model f :
  respects (unchanged model_name) (upload_file (F := F) api_upload_file f).
Proof. unfold upload_file. frame. Qed.

Lemma cleanup_file_model h :
  respects (unchanged model_name) (cleanup_file (F := F) api_delete_file h).
Proof. unfold cleanup_file. frame. Qed.

Lemma check_api_enabled_model :
  respects (unchanged model_name)
    (check_api_enabled (F := F) api_count_tokens permission_denied).
Proof. unfold check_api_enabled. frame. Qed.

#[local] Hint Resolve process_inline_model upload_file_model cleanup_file_model
  check_api_enabled_model : frame.

Lemma transcribe_transfer_model f s :
  respects (unchanged model_name) (transcribe_transfer (F := F) api_upload_file f s).
Proof. unfold transcribe_transfer. frame. Qed.


Lemma at_summarize_model transcript :
  respects (unchanged model_name) (at_summarize transcript).
Proof. unfold AudioTranscriber_summarize. frame. Qed.

(** *** The calls of a request and their estimates *)

(** A count of tokens leaves the transcriber as it was, and depends on it
    through its model only. *)
Lemma count_tokens_run c (s : tstate F) i s1 :
  count_tokens api_count_tokens c s = (Returned i, s1) ->
  s1 = s
  /\ forall st : tstate F, model_name st = model_name s ->
                          count_tokens api_count_tokens c st = (Returned i, st).
Proof.
  unfold count_tokens, bind, get. intros Hrun. split.
  - destruct (api_count_tokens (model_name s) c) as [n | [| msg | msg]];
      inversion Hrun; reflexivity.
  - intros st ->.
    destruct (api_count_tokens (model_name s) c) as [n | [| msg | msg]];
      inversion Hrun; reflexivity.
Qed.

(** Reading the output tokens off a response does not involve the
    transcriber. *)
Lemma extract_output_tokens_run r (s : tstate F) o s1 :
  extract_output_tokens r s = (Returned o, s1) ->
  s1 = s /\ forall st : tstate F, extract_output_tokens r st = (Returned o, st).
Proof.
  unfold extract_output_tokens, try_except, bind, await, ret. intros Hrun.
  destruct (hasattr_usage_metadata r) as [[|] | [| msg | msg]].
  - destruct (getattr_candidates_token_count r) as [n | [| msg | msg]].
    + inversion Hrun. auto.
    + discriminate Hrun.
    + destruct (text r); inversion Hrun. auto.
    + discriminate Hrun.
  - inversion Hrun. auto.
  - discriminate Hrun.
  - destruct (text r); inversion Hrun. auto.
  - discriminate Hrun.
Qed.

(** A transcription that returned made one call of the transcriber's
    model and recorded the estimate of that very call. *)
Lemma at_transcribe_call audio si ts st et d (s : tstate F) t s' :
  at_transcribe audio si ts st et d s = (Returned t, s') ->
  exists c u,
    estimate_of_call (model_name s) c d u
    /\ s' = TState (model_name s) (Some u)
                   (actions s ++ [GenerateContent (model_name s) c])%list.
Proof.
  unfold AudioTranscriber_transcribe. intros Hrun.
  bind_inv Hrun as i s1 E1. apply count_tokens_run in E1 as [-> Hcount].
  bind_inv Hrun as self s2 E2. inversion E2; subst self s2. clear E2.
  bind_inv Hrun as u3 s3 E3. unfold log, modify in E3. inversion E3; subst s3. clear E3.
  bind_inv Hrun as response s4 E4.
  unfold await in E4. inversion E4 as [[Hgen Hs4]]. subst s4. clear E4.
  bind_inv Hrun as o s5 E5. apply extract_output_tokens_run in E5 as [-> Hout].
  bind_inv Hrun as u6 s6 E6.
  unfold set_last_usage, modify in E6. inversion E6; subst s6. clear E6.
  unfold await in Hrun. inversion Hrun as [[Htext Hs']]. simpl.
  eexists. exists (estimate_cost (model_name s) i o d). split; [| reflexivity].
  exists response, i, o. repeat split; auto.
Qed.

(** A summary that returned made one call of the transcriber's model and
    came with the estimate of that very call, which has no audio. *)
Lemma at_summarize_call transcript (s : tstate F) t su s' :
  at_summarize transcript s = (Returned (t, su), s') ->
  exists c,
    estimate_of_call (model_name s) c (float_of_int 0) su
    /\ s' = TState (model_name s) (last_usage s)
                   (actions s ++ [GenerateContent (model_name s) c])%list.
Proof.
  unfold AudioTranscriber_summarize. intros Hrun.
  bind_inv Hrun as i s1 E1. apply count_tokens_run in E1 as [-> Hcount].
  bind_inv Hrun as self s2 E2. inversion E2; subst self s2. clear E2.
  bind_inv Hrun as u3 s3 E3. unfold log, modify in E3. inversion E3; subst s3. clear E3.
  bind_inv Hrun as response s4 E4.
  unfold await in E4. inversion E4 as [[Hgen Hs4]]. subst s4. clear E4.
  bind_inv Hrun as o s5 E5. apply extract_output_tokens_run in E5 as [-> Hout].
  bind_inv Hrun as t' s6 E6.
  unfold await in E6. inversion E6 as [[Htext Hs6]]. subst s6. clear E6.
  unfold ret in Hrun. inversion Hrun as [[Ht Hsu Hs']]. simpl.
  eexists. split; [| reflexivity].
  exists response, i, o. repeat split; auto.
Qed.

Lemma check_api_enabled_run (s : tstate F) r s1 :
  check_api_enabled api_count_tokens permission_denied s = (r, s1) -> s1 = s.
Proof.
  unfold check_api_enabled, bind, get.
  destruct (api_count_tokens (model_name s) CountTest) as [n | [| msg | msg]];
    try (intros E; inversion E; reflexivity).
  destruct (_ && _); intros E; inversion E; reflexivity.
Qed.

Lemma transcribe_transfer_run f size (s : tstate F) audio uploaded s1 :
  transcribe_transfer api_upload_file f size s = (Returned (audio, uploaded), s1) ->
  exists a, generate_of a = None
            /\ s1 = TState (model_name s) (last_usage s) (actions s ++ [a])%list.
Proof.
  unfold transcribe_transfer. destruct (Qle_bool size WEB_INLINE_LIMIT_MB).
  - unfold process_inline, bind, log, modify, ret. intros E. inversion E.
    exists (ProcessInline f). auto.
  - unfold upload_file, bind, log, modify, await, ret.
    destruct (api_upload_file f) as [h |]; intros E; inversion E.
    exists (UploadFile f). auto.
Qed.

Lemma cleanup_file_run h (s : tstate F) u s1 :
  cleanup_file api_delete_file h s = (Returned u, s1) ->
  s1 = TState (model_name s) (last_usage s) (actions s ++ [DeleteFile h])%list.
Proof.
  unfold cleanup_file, bind, log, modify.
  destruct (api_delete_file h) as [[] | [| msg | msg]]; intros E; inversion E; reflexivity.
Qed.

(** What a request that was answered with a transcript went through: the
    calls of the model it made, the estimates they recorded, and the total
    it reports. *)
Lemma transcribe_returns_ok key data st b st' :
  web_transcribe key data st = (Returned (Ok200 b), st') ->
  model_used b = validated_model data
  /\ exists (c : contents) (u : usage F),
       estimate_of_call (validated_model data) c (audio_duration_seconds b) u
       /\ last_usage st' = Some u
       /\ if generate_summary data
          then exists (c' : contents) (su : usage F),
                 estimate_of_call (validated_model data) c' (float_of_int 0) su
                 /\ omap generate_of (actions st') = [c; c']
                 /\ estimated_cost b = fround 4 (fsum [total_cost u; total_cost su])
          else omap generate_of (actions st') = [c]
               /\ estimated_cost b = fround 4 (fsum [total_cost u]).
Proof.
  unfold transcribe. intros Hrun.
  destruct (negb (truthy_str key)); [discriminate Hrun |].
  case_bool_decide; [discriminate Hrun |].
  destruct (negb _); [discriminate Hrun |].
  apply try_except_returned in Hrun as [Hbody | (e & h & s1 & _ & Hh & Hret)].
  2: { destruct e; inversion Hh; subst. discriminate Hret. }
  unfold transcribe_body in Hbody.
  bind_inv Hbody as mp3 s1 E1.
  bind_inv Hbody as size s2 E2.
  bind_inv Hbody as u3 s3 E3.
  bind_inv Hbody as enabled s4 E4.
  destruct (negb enabled); [discriminate Hbody |].
  bind_inv Hbody as au s5 E5. destruct au as [audio uploaded].
  bind_inv Hbody as transcription s6 E6.
  bind_inv Hbody as self s7 E7.
  bind_inv Hbody as sm s8 E8. destruct sm as [summary total].
  bind_inv Hbody as u9 s9 E9.
  unfold ret in Hbody. inversion Hbody; subst b st'. clear Hbody. simpl.
  unfold modify in E3. inversion E3; subst s3. clear E3.
  assert (Hm : AudioTranscriber (F := F) (validated_model data)
               = TState (validated_model data) None []).
  { unfold AudioTranscriber.
    rewrite bool_decide_eq_true_2 by apply validated_model_available. reflexivity. }
  rewrite Hm in E4. clear Hm.
  apply check_api_enabled_run in E4. subst s4.
  apply transcribe_transfer_run in E5 as (a5 & Ha5 & ->).
  apply at_transcribe_call in E6 as (c & u & Hu & ->). simpl in Hu.
  inversion E7; subst self s7. clear E7. simpl in E8.
  assert (Hend : last_usage s9 = last_usage s8
                 /\ omap generate_of (actions s9) = omap generate_of (actions s8)).
  { destruct uploaded as [h |].
    - apply cleanup_file_run in E9. subst s9. simpl.
      rewrite omap_app. simpl. rewrite app_nil_r. auto.
    - unfold ret in E9. inversion E9. auto. }
  destruct Hend as [Hlast Hcalls]. rewrite Hlast, Hcalls.
  split; [reflexivity |].
  exists c, u. split; [exact Hu |].
  destruct (generate_summary data).
  - bind_inv E8 as ssu s10 E10. destruct ssu as [summary' su].
    unfold ret in E8. inversion E8; subst summary total s8. clear E8.
    apply at_summarize_call in E10 as (c' & Hsu & ->). simpl in Hsu.
    simpl. split; [reflexivity |].
    exists c', su. split; [exact Hsu |]. split; [| reflexivity].
    rewrite ?omap_app. simpl. rewrite Ha5. reflexivity.
  - unfold ret in E8. inversion E8; subst summary total s8. clear E8.
    simpl. split; [reflexivity |]. split; [| reflexivity].
    rewrite ?omap_app. simpl. rewrite Ha5. reflexivity.
Qed.

(** C9, as amended.  For a model of the price table, the estimate of a
    call is its input tokens by the thousand times the model's input
    price, plus its output tokens by the thousand times the output price,
    plus the audio seconds times the price per second.  A request that
    was answered with a transcript called the model once for the
    transcription and, when a summary was asked for, once more, and
    nothing else; each call's estimate is the one for the tokens counted
    for that call and the output tokens of the response it got, for the
    model used, which is a model of the table; the estimate of the
    transcription is the one the transcriber recorded; and the total that
    the reply carries is the sum, from 0.0, of these estimates, rounded to
    four decimals. *)
Theorem cost_estimate m info i o a key data st b st' :
  AVAILABLE_MODELS (F := F) !! m = Some info ->
  web_transcribe key data st = (Returned (Ok200 b), st') ->
  total_cost (estimate_cost m i o a)
  = fadd (fadd (fmul (int_truediv i 1000) (price_input_per_1k info))
               (fmul (int_truediv o 1000) (price_output_per_1k info)))
         (fmul a (price_audio_per_second info))
  /\ model_used b ∈ dom (AVAILABLE_MODELS (F := F))
  /\ exists (c : contents) (u : usage F),
       estimate_of_call (model_used b) c (audio_duration_seconds b) u
       /\ last_usage st' = Some u
       /\ if generate_summary data
          then exists (c' : contents) (su : usage F),
                 estimate_of_call (model_used b) c' (float_of_int 0) su
                 /\ omap generate_of (actions st') = [c; c']
                 /\ estimated_cost b = fround 4 (fsum [total_cost u; total_cost su])
          else omap generate_of (actions st') = [c]
               /\ estimated_cost b = fround 4 (fsum [total_cost u]).
Proof.
  intros Hm Hrun. split; [exact (estimate_cost_total m info i o a Hm) |].
  destruct (transcribe_returns_ok key data st b st' Hrun) as (Hmodel & Hcalls).
  rewrite Hmodel. split; [apply validated_model_available | exact Hcalls].
Qed.

(** C10. A request that names a model outside the allow-list is not
    turned away for it.  The handler substitutes the default model and
    goes on exactly as for the same request naming the default model; so
    when the collaborators do their part for the default model (the
    download gives a supported file, the API counts tokens and answers
    the calls of the default model with a response that has a text and a
    token count, and the upload and the deletion, if the file needs them,
    succeed), the request is answered with the transcript, the model used
    is the default one, and the API was called with the default model
    only.  The transcriber's constructor makes the same substitution. *)
Theorem unknown_model_falls_back key data st m f n h r o t :
  model data = Some m ->
  m ∉ dom (AVAILABLE_MODELS (F := F)) ->
  truthy_str key = true ->
  strip (default "" (youtube_url data)) <> "" ->
  contains "youtube.com" (strip (default "" (youtube_url data)))
  || contains "youtu.be" (strip (default "" (youtube_url data))) = true ->
  download_youtube_audio (strip (default "" (youtube_url data))) = Returned f ->
  suffix f ∈ SUPPORTED_FORMATS ->
  (forall c, api_count_tokens DEFAULT_MODEL c = Returned n) ->
  api_upload_file f = Returned h ->
  api_delete_file h = Returned tt ->
  (forall c, api_generate_content DEFAULT_MODEL c = Returned r) ->
  usage_metadata r = Present (Some (UsageMetadata (Present o))) ->
  text r = Returned t ->
  validated_model (F := F) data = DEFAULT_MODEL
  /\ web_transcribe key data st
     = web_transcribe key
         (Request (youtube_url data) (generate_summary data) (save_audio data)
                  (Some DEFAULT_MODEL)) st
  /\ (exists b st',
         web_transcribe key data st = (Returned (Ok200 b), st')
         /\ model_used b = DEFAULT_MODEL
         /\ transcription b = t
         /\ model_name st' = DEFAULT_MODEL
         /\ Forall (fun a => match a with
                             | GenerateContent model _ => model = DEFAULT_MODEL
                             | _ => True
                             end) (actions st'))
  /\ (forall b st', web_transcribe key data st = (Returned (Ok200 b), st') ->
                    model_used b = DEFAULT_MODEL)
  /\ AudioTranscriber (F := F) m = AudioTranscriber DEFAULT_MODEL.
Proof.
  intros Hm Hout Hkey Hurl Hyt Hdl Hsuf Hcount Hup Hdel Hgen Hmeta Htext.
  assert (Hdef : DEFAULT_MODEL ∈ dom (AVAILABLE_MODELS (F := F))).
  { apply elem_of_dom. rewrite default_model_available. eauto. }
  assert (Hv : validated_model (F := F) data = DEFAULT_MODEL).
  { unfold validated_model. rewrite Hm. simpl.
    rewrite bool_decide_eq_false_2 by exact Hout. reflexivity. }
  assert (Hat : AudioTranscriber (F := F) DEFAULT_MODEL = TState DEFAULT_MODEL None []).
  { unfold AudioTranscriber. rewrite bool_decide_eq_true_2 by exact Hdef. reflexivity. }
  split; [exact Hv |]. split; [| split; [| split]].
  - destruct data as [url gs sa mo]. simpl in *.
    unfold transcribe. rewrite Hv.
    assert (Hv' : validated_model (F := F) (Request url gs sa (Some DEFAULT_MODEL))
                  = DEFAULT_MODEL).
    { unfold validated_model. simpl. rewrite bool_decide_eq_true_2 by exact Hdef.
      reflexivity. }
    rewrite Hv'. reflexivity.
  - unfold transcribe. rewrite Hkey, Hv. cbn [negb].
    rewrite (bool_decide_eq_false_2 _ Hurl), Hyt. cbn [negb].
    cbv [try_except transcribe_body bind await validate_file ret modify raise
         check_api_enabled get transcribe_transfer upload_file process_inline log
         AudioTranscriber_transcribe AudioTranscriber_summarize count_tokens
         set_last_usage extract_output_tokens hasattr_usage_metadata
         getattr_candidates_token_count cleanup_file
         model_name actions last_usage].
    rewrite Hdl, (bool_decide_eq_true_2 _ Hsuf), Hat, Hcount.
    cbv beta iota zeta delta [negb].
    destruct (Qle_bool (size_mb f) WEB_INLINE_LIMIT_MB);
      destruct (generate_summary data);
      rewrite ?Hup; cbv beta iota zeta;
      repeat (first [rewrite Hcount | rewrite Hgen | rewrite Hmeta | rewrite Htext
                    | rewrite Hdel];
              cbv beta iota zeta delta [candidates_token_count]);
      (eexists; eexists; split; [reflexivity |]);
      cbn [model_used transcription model_name actions app];
      (split; [reflexivity |]); (split; [reflexivity |]); (split; [reflexivity |]);
      repeat constructor.
  - intros b st' Hrun.
    destruct (transcribe_returns_ok key data st b st' Hrun) as (Hmodel & _).
    rewrite Hmodel. exact Hv.
  - unfold AudioTranscriber.
    rewrite bool_decide_eq_false_2 by exact Hout.
    rewrite bool_decide_eq_true_2 by exact Hdef. reflexivity.
Qed.
End Facts.

(** A file of 150 MB is uploaded by the web handler and, without flags,
    by the command-line tool; its bytes play no part. *)
Lemma transfer_policy_witness :
  let st : tstate Q := AudioTranscriber "gemini-2.5-flash" in
  let up := fun _ : file => Returned "files/abc" in
  let web := chosen (transcribe_transfer up sample_file 150) st in
  let cli := chosen (main_transfer up false false sample_file 150) st in
  web = [spec_transfer WEB_INLINE_LIMIT_MB 150 None]
  /\ cli = [spec_transfer MAX_FILE_SIZE_MB 150 (cli_override false false)]
  /\ (forall (f' : file) (st' : tstate Q),
        chosen (transcribe_transfer up f' 150) st' = web
        /\ chosen (main_transfer up false false f' 150) st' = cli)
  /\ ((150 <= WEB_INLINE_LIMIT_MB)%Q -> web = [Inline])
  /\ ((WEB_INLINE_LIMIT_MB < 150)%Q -> web = [Upload])
  /\ (false = false -> false = false -> (150 <= MAX_FILE_SIZE_MB)%Q -> cli = [Inline])
  /\ (false = false -> false = false -> (MAX_FILE_SIZE_MB < 150)%Q -> cli = [Upload])
  /\ (false = true -> cli = [Upload])
  /\ (false = false -> false = true -> cli = [Inline]).
Proof.
  exact (transfer_policy (fun _ => Returned "files/abc") sample_file 150 false false
           (AudioTranscriber "gemini-2.5-flash")).
Defined.

(** The sample request with a summary, for the model [gemini-2.5-pro]: two
    calls, whose estimates add up to the total that the reply carries. *)
Lemma cost_estimate_witness :
  exists (b : body (F := Q)) (st' : tstate Q),
    sample_transcribe (Some "key") (sample_request (Some "gemini-2.5-pro") true)
      (AudioTranscriber "gemini-2.5-flash") = (Returned (Ok200 b), st')
    /\ total_cost (estimate_cost (F := Q) "gemini-2.5-pro" 1000 2000 60%Q)
       = fadd (fadd (fmul (int_truediv 1000 1000) (lit 0.00125))
                    (fmul (int_truediv 2000 1000) (lit 0.005)))
              (fmul 60%Q (lit 0.00025))
    /\ model_used b ∈ dom (AVAILABLE_MODELS (F := Q))
    /\ exists (c : contents) (u : usage Q),
         call_estimate (fun _ _ => Returned 1000%Z) (fun _ _ => Returned sample_response)
           (model_used b) c (audio_duration_seconds b) u
         /\ last_usage st' = Some u
         /\ if generate_summary (sample_request (Some "gemini-2.5-pro") true)
            then exists (c' : contents) (su : usage Q),
                   call_estimate (fun _ _ => Returned 1000%Z)
                     (fun _ _ => Returned sample_response)
                     (model_used b) c' (float_of_int 0) su
                   /\ omap generate_of (actions st') = [c; c']
                   /\ estimated_cost b = fround 4 (fsum [total_cost u; total_cost su])
            else omap generate_of (actions st') = [c]
                 /\ estimated_cost b = fround 4 (fsum [total_cost u]).
Proof.
  destruct (sample_transcribe (Some "key") (sample_request (Some "gemini-2.5-pro") true)
              (AudioTranscriber "gemini-2.5-flash")) as [[[b | code msg] | e] st'] eqn:E;
    [| vm_compute in E; discriminate E | vm_compute in E; discriminate E].
  exists b, st'. split; [reflexivity |].
  apply (cost_estimate (F := Q)
           (fun _ => Returned sample_file) (fun _ => Returned 60000%Z)
           (fun _ _ => Returned 1000%Z) (fun _ _ => Returned sample_response)
           (fun _ => Returned "files/abc") (fun _ => Returned tt) (fun _ => false)
           "gemini-2.5-pro"
           (ModelInfo "Gemini 2.5 Pro" 65536 (lit 0.00125) (lit 0.005) (lit 0.00025))
           1000%Z 2000%Z 60%Q (Some "key") (sample_request (Some "gemini-2.5-pro") true)
           (AudioTranscriber "gemini-2.5-flash") b st').
  - reflexivity.
  - exact E.
Defined.

(** C9 as it is stated does not hold of the code: the total that the
    reply carries is not the sum of the estimates but that sum rounded to
    four decimals.  For the sample request without a summary the one
    estimate, which is also the sum, is 0.001575, and the reply carries
    0.0016. *)
Lemma reported_total_is_rounded :
  exists (b : body (F := Q)) (st' : tstate Q) (u : usage Q),
    sample_transcribe (Some "key") (sample_request None false)
      (AudioTranscriber "gemini-2.5-flash") = (Returned (Ok200 b), st')
    /\ last_usage st' = Some u
    /\ omap generate_of (actions st') <> []
    /\ length (omap generate_of (actions st')) = 1
    /\ (fsum [total_cost u] == 63 # 40000)%Q
    /\ (estimated_cost b == 1 # 625)%Q
    /\ ~ (estimated_cost b == fsum [total_cost u])%Q.
Proof.
  eexists. eexists. eexists.
  split; [vm_compute; reflexivity |].
  split; [reflexivity |].
  split; [discriminate |].
  split; [reflexivity |].
  split; [vm_compute; reflexivity |].
  split; [vm_compute; reflexivity |].
  intros Heq. vm_compute in Heq. discriminate Heq.
Qed.

(** The sample request naming a model that does not exist is answered,
    with the default model. *)
Lemma unknown_model_falls_back_witness :
  validated_model (F := Q) (sample_request (Some "gemini-9-ultra") false) = DEFAULT_MODEL
  /\ sample_transcribe (Some "key") (sample_request (Some "gemini-9-ultra") false)
       (AudioTranscriber "gemini-2.5-flash")
     = sample_transcribe (Some "key")
         (Request (youtube_url (sample_request (Some "gemini-9-ultra") false))
                  (generate_summary (sample_request (Some "gemini-9-ultra") false))
                  (save_audio (sample_request (Some "gemini-9-ultra") false))
                  (Some DEFAULT_MODEL))
         (AudioTranscriber "gemini-2.5-flash")
  /\ (exists b st',
         sample_transcribe (Some "key") (sample_request (Some "gemini-9-ultra") false)
           (AudioTranscriber "gemini-2.5-flash") = (Returned (Ok200 b), st')
         /\ model_used b = DEFAULT_MODEL
         /\ transcription b = "abcdefgh"
         /\ model_name st' = DEFAULT_MODEL
         /\ Forall (fun a => match a with
                             | GenerateContent model _ => model = DEFAULT_MODEL
                             | _ => True
                             end) (actions st'))
  /\ (forall b st',
        sample_transcribe (Some "key") (sample_request (Some "gemini-9-ultra") false)
          (AudioTranscriber "gemini-2.5-flash") = (Returned (Ok200 b), st') ->
        model_used b = DEFAULT_MODEL)
  /\ AudioTranscriber (F := Q) "gemini-9-ultra" = AudioTranscriber DEFAULT_MODEL.
Proof.
  apply (unknown_model_falls_back (F := Q)
           (fun _ => Returned sample_file) (fun _ => Returned 60000%Z)
           (fun _ _ => Returned 1000%Z) (fun _ _ => Returned sample_response)
           (fun _ => Returned "files/abc") (fun _ => Returned tt) (fun _ => false)
           (Some "key") (sample_request (Some "gemini-9-ultra") false)
           (AudioTranscriber "gemini-2.5-flash") "gemini-9-ultra"
           sample_file 1000%Z "files/abc" sample_response 2000%Z "abcdefgh").
  - reflexivity.
  - apply not_elem_of_dom. vm_compute. reflexivity.
  - reflexivity.
  - vm_compute. discriminate.
  - vm_compute. reflexivity.
  - reflexivity.
  - vm_compute. apply list_elem_of_here.
  - reflexivity.
  - reflexivity.
  - reflexivity.
  - reflexivity.
  - reflexivity.
  - reflexivity.
Defined.
(** The request of the witness above does succeed, with the default model. *)
Example unknown_model_request_succeeds :
  exists b st',
    sample_transcribe (Some "key") (sample_request (Some "gemini-9-ultra") false)
      (AudioTranscriber "gemini-2.5-flash") = (Returned (Ok200 b), st')
    /\ model_used b = "gemini-2.5-flash"
    /\ transcription b = "abcdefgh".
Proof. eexists. eexists. split; [vm_compute; reflexivity |]. split; reflexivity. Qed.
End TranscribeProofs.

(** ** The live transcription-and-translation service *)
Module TranslatorProofs.
Import Translator.
Local Open Scope list_scope.

(** *** The translation adapter *)

Lemma lstrip_cp_blank (t : pystr) :
  Forall (fun c => py_isspace c = true) t -> lstrip_cp t = [].
Proof.
  induction 1 as [| c t Hc _ IH]; simpl; [reflexivity |]. rewrite Hc. exact IH.
Qed.

Lemma strip_cp_blank (t : pystr) :
  Forall (fun c => py_isspace c = true) t -> strip_cp t = [].
Proof. intros Ht. unfold strip_cp. rewrite (lstrip_cp_blank t Ht). reflexivity. Qed.

(** C6. For a text that is empty or made of whitespace only, [translate]
    returns the empty string and leaves the state, the record of prompts
    sent to the generative API included, as it was: the API is not
    called, whatever it would have answered. *)
Theorem blank_text_not_translated {St : Type} (sent_prompt : pystr -> St -> St)
    (api_generate_text : pystr -> outcome pystr) (text target_language : pystr) (s : St) :
  Forall (fun c => py_isspace c = true) text ->
  translate sent_prompt api_generate_text text target_language s = (Returned [], s).
Proof.
  intros Hblank. unfold translate.
  rewrite bool_decide_eq_true_2 by (apply strip_cp_blank, Hblank). reflexivity.
Qed.

(** A space, a tab, a line feed and an em space make a blank text; the
    worker that translates it has sent no prompt. *)
Lemma blank_text_not_translated_witness :
  translate sent_prompt (fun _ => Returned (cp "hola")) [32; 9; 10; 8195]%N (cp "Spanish")
    (Worker new_session [] [])
  = (Returned [], Worker new_session [] []).
Proof.
  apply (blank_text_not_translated sent_prompt (fun _ => Returned (cp "hola"))
           [32; 9; 10; 8195]%N (cp "Spanish") (Worker new_session [] [])).
  repeat constructor.
Defined.

(** *** Audio that arrives before the session is started *)

(** C5, where the code departs from it. A chunk that arrives on a
    connection whose stream is not active is put in [pending_audio]; but
    [handle_start_session] resets [pending_audio] (and the queue) before
    it flushes, so once the session is started the chunk is neither on
    the worker's queue nor pending: it is never replayed. A chunk that
    arrives while the handler sleeps goes straight on the queue, once. *)
Theorem pending_audio_dropped_on_start (session_id : string) (a b : bytes)
    (data : start_data) (s0 : server) :
  let s1 := handle_audio_data session_id (Returned a) (handle_connect session_id s0) in
  deliverable session_id s1 = [a]
  /\ (exists x, sessions s1 !! session_id = Some x /\ pending_audio x = [a])
  /\ deliverable session_id (handle_start_session session_id data (fun s => s) s1) = []
  /\ deliverable session_id
       (handle_start_session session_id data
          (handle_audio_data session_id (Returned b)) s1) = [b].
Proof.
  intros s1. subst s1.
  unfold handle_connect, handle_audio_data, handle_start_session,
    handle_start_session_begin, handle_start_session_flush, deliverable, set_session, emit.
  simpl. repeat (rewrite ?lookup_insert_eq; simpl).
  split; [reflexivity |]. split; [eexists; split; reflexivity |].
  split; reflexivity.
Qed.

(** *** The transcript the worker accumulates *)

#[export] Instance extends_preorder : PreOrder extends.
Proof.
  split.
  - intros w. split; exists []; rewrite app_nil_r; reflexivity.
  - intros w1 w2 w3 [[o1 Ho1] [t1 Ht1]] [[o2 Ho2] [t2 Ht2]]. split.
    + exists (o1 ++ o2). rewrite Ho2, Ho1, app_assoc. reflexivity.
    + exists (t1 ++ t2). rewrite Ht2, Ht1, app_assoc. reflexivity.
Qed.

Section WorkerFacts.
Variable api_generate_text : pystr -> outcome pystr.
Variable handlers : nat -> session -> session.

Local Abbreviation worker_translate := (gemini_translate api_generate_text).
Local Abbreviation worker_result := (handle_result api_generate_text).
Local Abbreviation worker_results := (for_results api_generate_text).
Local Abbreviation worker_responses := (for_responses api_generate_text handlers).
Local Abbreviation worker_run := (streaming_transcribe api_generate_text handlers).

(** **** Whatever happens, the texts only grow *)

Lemma same_session_extends (w w' : worker) : its_session w' = its_session w -> extends w w'.
Proof.
  intros Hs. unfold extends. rewrite Hs. split; exists []; rewrite app_nil_r; reflexivity.
Qed.

Lemma notify_extends e : respects extends (notify e).
Proof.
  unfold notify. apply respects_modify. intros w. apply same_session_extends. reflexivity.
Qed.

Lemma translate_session text target_language :
  respects (unchanged its_session) (worker_translate text target_language).
Proof. unfold gemini_translate, translate. frame. Qed.

Lemma translate_extends text target_language :
  respects extends (worker_translate text target_language).
Proof.
  intros w. apply same_session_extends. apply (translate_session text target_language w).
Qed.

Lemma add_original_extends t : respects extends (on_session (add_original_text t)).
Proof.
  unfold on_session. apply respects_modify. intros w. split; simpl.
  - exists t. reflexivity.
  - exists []. rewrite app_nil_r. reflexivity.
Qed.

Lemma add_translated_extends t : respects extends (on_session (add_translated_text t)).
Proof.
  unfold on_session. apply respects_modify. intros w. split; simpl.
  - exists []. rewrite app_nil_r. reflexivity.
  - exists t. reflexivity.
Qed.

Lemma handlers_extend n : texts_left_alone handlers -> respects extends (on_session (handlers n)).
Proof.
  intros Hrely. unfold on_session. apply respects_modify. intros w.
  destruct (Hrely n (its_session w)) as [Ho Ht]. split; simpl.
  - exists []. rewrite app_nil_r. exact Ho.
  - exists []. rewrite app_nil_r. exact Ht.
Qed.

#[local] Hint Resolve notify_extends translate_extends add_original_extends
  add_translated_extends handlers_extend : frame.

Lemma handle_result_extends show_timestamps target_language r :
  respects extends (worker_result show_timestamps target_language r).
Proof. unfold handle_result. frame. Qed.

Lemma for_results_extends show_timestamps target_language results :
  respects extends (worker_results show_timestamps target_language results).
Proof.
  induction results as [| r results IH]; simpl.
  - frame.
  - apply respects_bind; [apply _ | apply handle_result_extends | intros _; exact IH].
Qed.

Lemma for_responses_extends n show_timestamps target_language responses stream_end :
  texts_left_alone handlers ->
  respects extends (worker_responses n show_timestamps target_language responses stream_end).
Proof.
  intros Hrely. revert n.
  induction responses as [| response responses IH]; intros n; simpl.
  - frame.
  - apply respects_bind; [apply _ | apply handlers_extend, Hrely | intros _].
    apply respects_bind; [apply _ | frame | intros w].
    destruct (negb _); [frame |].
    apply respects_bind; [apply _ | apply for_results_extends | intros _; apply IH].
Qed.

Lemma streaming_transcribe_extends responses stream_end :
  texts_left_alone handlers -> respects extends (worker_run responses stream_end).
Proof.
  intros Hrely. unfold streaming_transcribe.
  apply respects_bind; [apply _ | frame | intros w].
  apply respects_try_except; [apply _ | apply for_responses_extends, Hrely |].
  intros e h E. destruct e; inversion E; subst. apply notify_extends.
Qed.

(** **** While the stream is active, every finalized segment is appended *)

Lemma joined_app (l1 l2 : list pystr) : joined (l1 ++ l2) = joined l1 ++ joined l2.
Proof. unfold joined. rewrite map_app, concat_app. reflexivity. Qed.

Lemma translate_run text target_language w :
  only_exceptions api_generate_text ->
  exists w', worker_translate text target_language w
             = (Returned (translation_of api_generate_text text target_language), w')
             /\ its_session w' = its_session w.
Proof.
  intros Hapi. unfold gemini_translate, translate, translation_of.
  case_bool_decide.
  - exists w. split; reflexivity.
  - specialize (Hapi (translation_prompt text target_language)).
    unfold try_except, bind, modify, await, ret.
    destruct (api_generate_text (translation_prompt text target_language)) as [r | [| msg | msg]];
      try contradiction; eexists; split; reflexivity.
Qed.

Lemma handle_result_run show_timestamps target_language r w :
  only_exceptions api_generate_text ->
  exists w', worker_result show_timestamps target_language r w = (Returned tt, w')
    /\ original_text (its_session w')
       = original_text (its_session w) ++ joined (final_segment r)
    /\ translated_text (its_session w')
       = translated_text (its_session w)
         ++ joined (map (fun t => translation_of api_generate_text t target_language)
                        (final_segment r))
    /\ stream_active (its_session w') = stream_active (its_session w).
Proof.
  intros Hapi. unfold handle_result, final_segment, joined.
  destruct (alternatives r) as [| first rest].
  { exists w. simpl. rewrite !app_nil_r. auto. }
  destruct (is_final r).
  - unfold bind at 1. unfold on_session at 1, modify.
    destruct (translate_run (transcript first) target_language
                (Worker (add_original_text (transcript first ++ cp " ") (its_session w))
                        (prompts w) (notifications w)) Hapi) as (w1 & Hrun & Hs).
    unfold bind at 1. rewrite Hrun.
    eexists. split; [reflexivity |]. simpl. rewrite Hs. simpl.
    rewrite !app_nil_r. auto.
  - eexists. split; [reflexivity |]. simpl. rewrite !app_nil_r. auto.
Qed.

Lemma for_results_run show_timestamps target_language results w :
  only_exceptions api_generate_text ->
  exists w', worker_results show_timestamps target_language results w = (Returned tt, w')
    /\ original_text (its_session w')
       = original_text (its_session w) ++ joined (concat (map final_segment results))
    /\ translated_text (its_session w')
       = translated_text (its_session w)
         ++ joined (map (fun t => translation_of api_generate_text t target_language)
                        (concat (map final_segment results)))
    /\ stream_active (its_session w') = stream_active (its_session w).
Proof.
  intros Hapi. revert w.
  induction results as [| r results IH]; intros w; simpl.
  - exists w. unfold joined. simpl. rewrite !app_nil_r. auto.
  - destruct (handle_result_run show_timestamps target_language r w Hapi)
      as (w1 & Hrun & Ho & Ht & Ha).
    destruct (IH w1) as (w2 & Hrun2 & Ho2 & Ht2 & Ha2).
    exists w2. unfold bind. rewrite Hrun. split; [exact Hrun2 |].
    rewrite Ho2, Ht2, Ha2, Ho, Ht, Ha. rewrite map_app, !joined_app, !app_assoc. auto.
Qed.

Lemma for_responses_run n show_timestamps target_language responses stream_end w :
  only_exceptions api_generate_text ->
  texts_left_alone handlers ->
  stream_kept_active handlers ->
  stream_active (its_session w) = true ->
  exists r w',
    worker_responses n show_timestamps target_language responses stream_end w = (r, w')
    /\ original_text (its_session w')
       = original_text (its_session w) ++ joined (finalized responses)
    /\ translated_text (its_session w')
       = translated_text (its_session w)
         ++ joined (map (fun t => translation_of api_generate_text t target_language)
                        (finalized responses)).
Proof.
  intros Hapi Hrely Hkeep. revert n w.
  induction responses as [| response responses IH]; intros n w Hactive; simpl.
  - unfold finalized, joined. simpl. rewrite !app_nil_r.
    destruct stream_end as [e |]; eexists; eexists; split; try reflexivity; auto.
  - unfold bind at 1. unfold on_session at 1, modify.
    unfold bind at 1. unfold get at 1. simpl.
    rewrite (Hkeep n (its_session w) Hactive). simpl.
    destruct (for_results_run show_timestamps target_language response
                (Worker (handlers n (its_session w)) (prompts w) (notifications w)) Hapi)
      as (w1 & Hrun & Ho & Ht & Ha).
    simpl in Ho, Ht, Ha.
    destruct (Hrely n (its_session w)) as [Hro Hrt]. rewrite Hro in Ho. rewrite Hrt in Ht.
    rewrite (Hkeep n (its_session w) Hactive) in Ha.
    destruct (IH (S n) w1 Ha) as (r & w2 & Hrun2 & Ho2 & Ht2).
    exists r, w2. unfold bind. rewrite Hrun. split; [exact Hrun2 |].
    rewrite Ho2, Ht2, Ho, Ht.
    unfold finalized. simpl. rewrite map_app, !joined_app, !app_assoc. auto.
Qed.

(** C7, as amended.  Between two starts of the session, that is, as long
    as the handlers leave the two texts to the worker, what the worker does
    to them is to append: after any stream of responses each text is what
    it was, followed by something.  And when moreover the stream is not
    stopped and the translation API raises nothing but subclasses of
    [Exception], what is appended to the original text is every finalized
    segment, once, in arrival order, each followed by a space, and what is
    appended to the translated text is their translations, likewise.
    ([transcript_reset_and_cut], below, shows that neither condition can
    be dropped.) *)
Theorem transcript_accumulates responses stream_end w :
  texts_left_alone handlers ->
  let w' := snd (worker_run responses stream_end w) in
  extends w w'
  /\ (only_exceptions api_generate_text ->
      stream_kept_active handlers ->
      stream_active (its_session w) = true ->
      original_text (its_session w')
      = original_text (its_session w) ++ joined (finalized responses)
      /\ translated_text (its_session w')
         = translated_text (its_session w)
           ++ joined (map (fun t => translation_of api_generate_text t
                                      (target_language (its_session w)))
                          (finalized responses))).
Proof.
  intros Hrely w'. subst w'. split.
  - apply (streaming_transcribe_extends responses stream_end Hrely w).
  - intros Hapi Hkeep Hactive.
    unfold streaming_transcribe, bind, get, try_except.
    destruct (for_responses_run 0 (show_timestamps (its_session w))
                (target_language (its_session w)) responses stream_end w
                Hapi Hrely Hkeep Hactive) as (r & w1 & Hrun & Ho & Ht).
    rewrite Hrun.
    destruct r as [u | [| msg | msg]]; simpl; auto.
Qed.
End WorkerFacts.

(** C7 as it is stated does not hold of the code.  Two final segments
    arrive, [hello] and then [world], in two responses; the translation
    API answers every prompt.

    - If the client sends [start_session] again before the second
      response, the handler resets both texts in the record the worker
      holds: the original text, which was [hello ] after the first
      response, is [world ] in the end.  What was there has been removed,
      and the first finalized segment is not in the text.
    - If the client sends [stop_session] before the second response, the
      worker leaves its loop on seeing the stream inactive: the text ends
      as [hello ], without the second finalized segment. *)
Lemma transcript_reset_and_cut :
  let api := fun _ : pystr => Returned (cp "HOLA") in
  let first := [Result [Alternative (cp "hello") (9 # 10)] true None] in
  let second := [Result [Alternative (cp "world") (8 # 10)] true None] in
  let w := Worker (handle_started new_session) [] [] in
  let quiet := fun (_ : nat) (x : session) => x in
  let restart := fun (n : nat) (x : session) =>
    if Nat.eqb n 1
    then on_record "sid" (handle_start_session_begin "sid" (StartData None None None None)) x
    else x in
  let stop := fun (n : nat) (x : session) =>
    if Nat.eqb n 1 then on_record "sid" (handle_stop_session_begin "sid") x else x in
  let midway := snd (streaming_transcribe api restart [first] None w) in
  let restarted := snd (streaming_transcribe api restart [first; second] None w) in
  let stopped := snd (streaming_transcribe api stop [first; second] None w) in
  finalized [first; second] = [cp "hello"; cp "world"]
  /\ original_text (its_session midway) = cp "hello "
  /\ translated_text (its_session midway) = cp "HOLA "
  /\ original_text (its_session restarted) = cp "world "
  /\ translated_text (its_session restarted) = cp "HOLA "
  /\ ~ extends midway restarted
  /\ original_text (its_session restarted)
     <> original_text (its_session w) ++ joined (finalized [first; second])
  /\ original_text (its_session stopped) = cp "hello "
  /\ original_text (its_session stopped)
     <> original_text (its_session w) ++ joined (finalized [first; second]).
Proof.
  intros api first second w quiet restart stop midway restarted stopped.
  assert (Hm : original_text (its_session midway) = cp "hello ") by (vm_compute; reflexivity).
  assert (Hr : original_text (its_session restarted) = cp "world ") by (vm_compute; reflexivity).
  assert (Hs : original_text (its_session stopped) = cp "hello ") by (vm_compute; reflexivity).
  split; [vm_compute; reflexivity |]. split; [exact Hm |].
  split; [vm_compute; reflexivity |]. split; [exact Hr |].
  split; [vm_compute; reflexivity |].
  split.
  { intros [[o Ho] _]. rewrite Hm, Hr in Ho. vm_compute in Ho. discriminate Ho. }
  split.
  { rewrite Hr. vm_compute. discriminate. }
  split; [exact Hs |].
  rewrite Hs. vm_compute. discriminate.
Qed.

(** Two responses, carrying an interim result and then two final ones,
    with an API that answers in capitals: both texts receive the two
    finalized segments in order. *)
Lemma transcript_accumulates_witness :
  let api := fun _ : pystr => Returned (cp "HOLA") in
  let handlers := fun (_ : nat) (x : session) => x in
  let responses :=
    [[Result [Alternative (cp "hel") 0] false None];
     [Result [Alternative (cp "hello") (9 # 10)] true None;
      Result [Alternative (cp "world") (8 # 10)] true None]] in
  let w := Worker (handle_started new_session) [] [] in
  let w' := snd (streaming_transcribe api handlers responses None w) in
  extends w w'
  /\ original_text (its_session w')
     = original_text (its_session w) ++ joined (finalized responses)
  /\ translated_text (its_session w')
     = translated_text (its_session w)
       ++ joined (map (fun t => translation_of api t (target_language (its_session w)))
                      (finalized responses))
  /\ original_text (its_session w') = cp "hello world "
  /\ translated_text (its_session w') = cp "HOLA HOLA ".
Proof.
  intros api handlers responses w w'.
  destruct (transcript_accumulates api handlers responses None w) as [Hext Hall].
  { intros n x. split; reflexivity. }
  destruct Hall as [Ho Ht].
  { intros prompt. exact I. }
  { intros n x Hx. exact Hx. }
  { reflexivity. }
  split; [exact Hext |]. split; [exact Ho |]. split; [exact Ht |].
  split; vm_compute; reflexivity.
Defined.
End TranslatorProofs.

(** ** The guard over whole runs of the event loop *)
Module GuardBehaviour.
Import Guard GuardProofs.



Section Facts.
Variable send_raises : list (nat * string) -> nat -> string -> option exn.
Variable CLOUD_FUNCTIONS : gmap string (option string).
Variable cloud_function : option string -> dict -> dict.

Local Abbreviation tool := (execute_tool CLOUD_FUNCTIONS cloud_function).
Local Abbreviation loop_step := (step send_raises CLOUD_FUNCTIONS cloud_function).
Local Abbreviation loop_run := (run send_raises CLOUD_FUNCTIONS cloud_function).
Local Abbreviation wrapper := (run_and_log_task send_raises).

Lemma slot_busy_cancel_slot_task s :
  slot_busy (cancel_slot_task s) = slot_busy s.
Proof.
  unfold slot_busy, cancel_slot_task.
  destruct (background_task s) as [t |] eqn:Eb; [| rewrite Eb; reflexivity].
  simpl. rewrite Eb, list_lookup_alter_eq.
  destruct (tasks s !! t) as [tk |]; reflexivity.
Qed.

Lemma execute_tool_stop params genai_session s :
  tool "stop_computer_task" params genai_session s
  = if slot_busy s then
      ({[ "status" := "success"; "summary" := "Stop signal sent." ]},
       cancel_slot_task (set_agent_stop_event true s))
    else ({[ "status" := "no_task"; "summary" := "No task is running." ]}, s).
Proof. unfold execute_tool. rewrite bool_decide_eq_true_2 by reflexivity. reflexivity. Qed.

(** X2. A stop request that finds the guard idle is answered [no_task]
    and changes nothing: in particular it does not set the stop signal.
    One that finds a task running sets the signal and requests the
    cancellation of that task, and of no other, but does not free the
    slot: the guard is still busy, and a start request that follows is
    still refused. *)
Theorem stop_request params genai_session s :
  let r := tool "stop_computer_task" params genai_session s in
  if slot_busy s then
    fst r = {[ "status" := "success"; "summary" := "Stop signal sent." ]}
    /\ agent_stop_event (snd r) = true
    /\ background_task (snd r) = background_task s
    /\ slot_busy (snd r) = true
    /\ turns (snd r) = turns s
    /\ (exists t tk,
           background_task s = Some t /\ tasks s !! t = Some tk
           /\ tasks (snd r) !! t
              = Some (Task (task_query tk) (task_session tk) (task_started tk) true false)
           /\ forall t', t' <> t -> tasks (snd r) !! t' = tasks s !! t')
    /\ (forall params' genai_session',
           tool "execute_computer_task" params' genai_session' (snd r)
           = ({[ "status" := "already_running"; "summary" := "A task is in progress." ]},
              snd r))
  else
    r = ({[ "status" := "no_task"; "summary" := "No task is running." ]}, s).
Proof.
  intros r. subst r. rewrite execute_tool_stop.
  destruct (slot_busy s) eqn:Hb; [| reflexivity].
  cbn [fst snd].
  assert (Hb' : slot_busy (cancel_slot_task (set_agent_stop_event true s)) = true).
  { rewrite slot_busy_cancel_slot_task. exact Hb. }
  destruct (slot_busy_pending s Hb) as (t & tk & Et & Etk & Ed).
  assert (Hc : cancel_slot_task (set_agent_stop_event true s)
               = set_tasks
                   (alter (fun tk => Task (task_query tk) (task_session tk) (task_started tk)
                                          true (task_done tk))
                          t (tasks s))
                   (set_agent_stop_event true s)).
  { unfold cancel_slot_task. simpl. rewrite Et. reflexivity. }
  split; [reflexivity |].
  split; [rewrite Hc; reflexivity |].
  split; [rewrite Hc; reflexivity |].
  split; [exact Hb' |].
  split; [rewrite Hc; reflexivity |].
  split.
  - exists t, tk. split; [exact Et |]. split; [exact Etk |]. rewrite Hc. simpl. split.
    + rewrite list_lookup_alter_eq, Etk. simpl. rewrite Ed. reflexivity.
    + intros t' Hne. apply list_lookup_alter_ne. auto.
  - intros params' g'. unfold execute_tool.
    rewrite bool_decide_eq_false_2 by discriminate.
    rewrite bool_decide_eq_true_2 by reflexivity.
    rewrite Hb'. reflexivity.
Qed.

(** One tool call that finds the guard busy leaves it busy with the same
    task, creates no task and sends no turn. *)
Lemma tool_call_keeps_busy tool_name params genai_session s :
  slot_busy s = true ->
  let s' := snd (tool tool_name params genai_session s) in
  slot_busy s' = true /\ background_task s' = background_task s
  /\ length (tasks s') = length (tasks s) /\ turns s' = turns s.
Proof.
  intros Hb. unfold execute_tool. case_bool_decide.
  { rewrite Hb. cbn [snd]. rewrite slot_busy_cancel_slot_task.
    split; [exact Hb |].
    unfold cancel_slot_task. simpl.
    destruct (background_task s) as [t |] eqn:Eb; simpl; rewrite ?length_alter; auto. }
  case_bool_decide.
  { rewrite Hb. simpl. auto. }
  destruct (CLOUD_FUNCTIONS !! tool_name); simpl; auto.
Qed.

(** X3. Tool calls alone never free the slot: while the running task has
    not terminated, whatever start, stop and other tool requests arrive,
    in whatever number and order, the guard stays busy with that same
    task, no task is created and no turn is sent. *)
Theorem only_termination_frees_slot (calls : list (string * dict * option nat)) s :
  slot_busy s = true ->
  let s' := loop_run (map (fun c => ToolCall c.1.1 c.1.2 c.2) calls) s in
  slot_busy s' = true /\ background_task s' = background_task s
  /\ length (tasks s') = length (tasks s) /\ turns s' = turns s.
Proof.
  revert s. induction calls as [| [[n p] g] calls IH]; intros s Hb; simpl; [auto |].
  destruct (tool_call_keeps_busy n p g s Hb) as (Hb1 & Hs1 & Hl1 & Ht1).
  destruct (IH _ Hb1) as (Hb2 & Hs2 & Hl2 & Ht2).
  unfold run in *. simpl in *.
  repeat split; congruence.
Qed.

Lemma step_task_ends s t tk coro :
  tasks s !! t = Some tk -> task_started tk = true -> task_done tk = false ->
  loop_step s (TaskEnds t coro)
  = mark_done t (snd (wrapper coro (task_query tk) (task_session tk) s)).
Proof. intros Ht Hst Hd. simpl. rewrite Ht, Hst, Hd. reflexivity. Qed.

(** X4. Once the running task has terminated, whatever its outcome, the
    next well-formed start request is accepted: it is answered
    [started], a fresh task carrying the query and the conversation is
    scheduled and the slot refers to it, so the guard is busy again. *)
Theorem restart_after_completion s t tk coro params q session :
  tasks s !! t = Some tk ->
  task_started tk = true ->
  task_done tk = false ->
  params !! "query" = Some q ->
  q <> "" ->
  let s1 := loop_step s (TaskEnds t coro) in
  let r := tool "execute_computer_task" params (Some session) s1 in
  fst r = {[ "status" := "started"; "summary" := "Task '" +:+ q +:+ "' has started." ]}
  /\ tasks (snd r) = (tasks s1 ++ [Task q session false false false])%list
  /\ background_task (snd r) = Some (length (tasks s))
  /\ slot_busy (snd r) = true
  /\ turns (snd r) = turns s1.
Proof.
  intros Ht Hst Hd Hq Hne s1 r.
  assert (Hs1 : s1 = mark_done t (snd (wrapper coro (task_query tk) (task_session tk) s)))
    by (apply step_task_ends; assumption).
  assert (Hslot : background_task s1 = None).
  { rewrite Hs1. unfold mark_done. simpl. apply run_and_log_task_slot. }
  assert (Hlen : length (tasks s1) = length (tasks s)).
  { rewrite Hs1. unfold mark_done. simpl. rewrite length_alter.
    f_equal. apply (run_and_log_task_tasks send_raises coro (task_query tk) (task_session tk) s). }
  assert (Hidle : slot_busy s1 = false) by (unfold slot_busy; rewrite Hslot; reflexivity).
  subst r. unfold execute_tool.
  rewrite bool_decide_eq_false_2 by discriminate.
  rewrite bool_decide_eq_true_2 by reflexivity.
  rewrite Hidle, Hq. simpl. rewrite (bool_decide_eq_false_2 (q = "")) by exact Hne.
  simpl. repeat split.
  - rewrite Hlen. reflexivity.
  - unfold slot_busy, create_task. simpl.
    rewrite lookup_app_r by lia. rewrite Nat.sub_diag. reflexivity.
Qed.

(** X5. A start request that carries no query, an empty one, or no
    conversation never creates a task or changes the state.  What it is
    told depends on the guard first: [already_running] while a task runs,
    otherwise the missing query is reported before the missing
    conversation. *)
Theorem malformed_start_has_no_effect params genai_session s :
  truthy_str (params !! "query") = false \/ genai_session = None ->
  let r := tool "execute_computer_task" params genai_session s in
  snd r = s
  /\ fst r = (if slot_busy s then
                {[ "status" := "already_running"; "summary" := "A task is in progress." ]}
              else if truthy_str (params !! "query") then {[ "error" := "Missing session" ]}
              else {[ "error" := "Missing query" ]}).
Proof.
  intros Hbad r. subst r. unfold execute_tool.
  rewrite bool_decide_eq_false_2 by discriminate.
  rewrite bool_decide_eq_true_2 by reflexivity.
  destruct (slot_busy s); [auto |].
  destruct (truthy_str (params !! "query")) eqn:Hq; simpl; [| auto].
  destruct Hbad as [Hbad | ->]; [discriminate | auto].
Qed.

(** *** Turns and completed tasks *)











End Facts.

(** A task runs; a second start, a stop and a call of a tool that is not
    registered arrive before it terminates. *)
Lemma only_termination_frees_slot_witness :
  let s := run (fun _ _ _ => None) ∅ (fun _ _ => ∅)
             [ToolCall "execute_computer_task" {[ "query" := "search for X" ]} (Some 0)]
             initial in
  let s' := run (fun _ _ _ => None) ∅ (fun _ _ => ∅)
              (map (fun c => ToolCall c.1.1 c.1.2 c.2)
                 [("execute_computer_task", {[ "query" := "search for Y" ]}, Some 1);
                  ("stop_computer_task", ∅, None);
                  ("get_weather", ∅, None)]) s in
  slot_busy s' = true /\ background_task s' = background_task s
  /\ length (tasks s') = length (tasks s) /\ turns s' = turns s.
Proof.
  intros s.
  apply (only_termination_frees_slot (fun _ _ _ => None) ∅ (fun _ _ => ∅)
           [("execute_computer_task", {[ "query" := "search for Y" ]}, Some 1);
            ("stop_computer_task", ∅, None);
            ("get_weather", ∅, None)] s).
  vm_compute. reflexivity.
Defined.

(** The first task ends with an error of the agent; the second start is
    accepted. *)
Lemma restart_after_completion_witness :
  let s := run (fun _ _ _ => None) ∅ (fun _ _ => ∅)
             [ToolCall "execute_computer_task" {[ "query" := "search for X" ]} (Some 0);
              TaskStarts 0]
             initial in
  let s1 := step (fun _ _ _ => None) ∅ (fun _ _ => ∅) s
              (TaskEnds 0 (Returned (Some {[ "status" := "error"; "summary" := "boom" ]}))) in
  let r := execute_tool ∅ (fun _ _ => ∅) "execute_computer_task"
             {[ "query" := "search for Y" ]} (Some 1) s1 in
  fst r = {[ "status" := "started"; "summary" := "Task '" +:+ "search for Y" +:+ "' has started." ]}
  /\ tasks (snd r) = (tasks s1 ++ [Task "search for Y" 1 false false false])%list
  /\ background_task (snd r) = Some (length (tasks s))
  /\ slot_busy (snd r) = true
  /\ turns (snd r) = turns s1.
Proof.
  intros s.
  apply (restart_after_completion (fun _ _ _ => None) ∅ (fun _ _ => ∅) s 0
           (Task "search for X" 0 true false false)
           (Returned (Some {[ "status" := "error"; "summary" := "boom" ]}))
           {[ "query" := "search for Y" ]} "search for Y" 1).
  - vm_compute. reflexivity.
  - reflexivity.
  - reflexivity.
  - vm_compute. reflexivity.
  - discriminate.
Defined.

(** A start request with an empty query, on an idle guard. *)
Lemma malformed_start_has_no_effect_witness :
  let r := execute_tool ∅ (fun _ _ => ∅) "execute_computer_task"
             {[ "query" := "" ]} (Some 0) initial in
  snd r = initial
  /\ fst r = (if slot_busy initial then
                {[ "status" := "already_running"; "summary" := "A task is in progress." ]}
              else if truthy_str (({[ "query" := "" ]} : dict) !! "query")
                   then {[ "error" := "Missing session" ]}
              else {[ "error" := "Missing query" ]}).
Proof.
  apply (malformed_start_has_no_effect ∅ (fun _ _ => ∅) {[ "query" := "" ]} (Some 0) initial).
  left. vm_compute. reflexivity.
Defined.
End GuardBehaviour.

(** ** The web handler of the transcription service, request by request *)
Module HandlerBehaviour.
Import Transcribe TranscribeProofs HandlerSamples.

Section Facts.
Context {F : Type} `{PyFloat F}.
Variable download_youtube_audio : string -> outcome file.
Variable audio_length_ms : file -> outcome Z.
Variable api_count_tokens : string -> contents -> outcome Z.
Variable api_generate_content : string -> contents -> outcome response.
Variable api_upload_file : file -> outcome string.
Variable api_delete_file : string -> outcome unit.
Variable permission_denied : string -> bool.

Local Abbreviation web_transcribe :=
  (transcribe download_youtube_audio audio_length_ms api_count_tokens
     api_generate_content api_upload_file api_delete_file permission_denied).
Local Abbreviation web_transcribe_body :=
  (transcribe_body download_youtube_audio audio_length_ms api_count_tokens
     api_generate_content api_upload_file api_delete_file permission_denied).
Local Abbreviation at_transcribe :=
  (AudioTranscriber_transcribe api_count_tokens api_generate_content).
Local Abbreviation at_summarize :=
  (AudioTranscriber_summarize api_count_tokens api_generate_content).
Local Abbreviation url_of data := (strip (default "" (youtube_url data))).
Local Abbreviation is_youtube url := (contains "youtube.com" url || contains "youtu.be" url).

(** *** What each step does to the record of actions *)









(** The three ways the handler ends without running its body. *)
Lemma transcribe_cases key data (st : tstate F) :
  (truthy_str key = false
   /\ web_transcribe key data st
      = (Returned (Failure 500 "GEMINI_API_KEY environment variable not set. Create a .env file with GEMINI_API_KEY=your_key"), st))
  \/ (truthy_str key = true /\ url_of data = ""
      /\ web_transcribe key data st
         = (Returned (Failure 400 "Please provide a YouTube URL"), st))
  \/ (truthy_str key = true /\ url_of data <> "" /\ is_youtube (url_of data) = false
      /\ web_transcribe key data st
         = (Returned (Failure 400
                        "Invalid YouTube URL. Please provide a valid YouTube video URL."), st))
  \/ (truthy_str key = true /\ url_of data <> "" /\ is_youtube (url_of data) = true
      /\ web_transcribe key data st
         = try_except
             (web_transcribe_body (default "" key) data (url_of data) (validated_model data))
             (fun e =>
                match e with
                | Exception error_msg => Some (ret (Failure 500 error_msg))
                | _ => None
                end) st).
Proof.
  unfold transcribe. destruct (truthy_str key); simpl; [| auto].
  right. case_bool_decide as Hurl; [auto |].
  right. destruct (_ || _); simpl; auto.
Qed.



Lemma AudioTranscriber_available m :
  m ∈ dom (AVAILABLE_MODELS (F := F)) -> AudioTranscriber (F := F) m = TState m None [].
Proof.
  intros Hin. unfold AudioTranscriber. rewrite bool_decide_eq_true_2 by exact Hin. reflexivity.
Qed.

(** X9. An uploaded file is not deleted when the request fails after the
    upload: if the model raises an [Exception] on a file that was over
    the inline limit and has been uploaded, the reply is a 500 carrying
    the message, and the request ends having made the upload and the
    failed call and no deletion. *)
Theorem upload_kept_when_request_fails key data (st : tstate F) f n h msg :
  truthy_str key = true ->
  url_of data <> "" ->
  is_youtube (url_of data) = true ->
  download_youtube_audio (url_of data) = Returned f ->
  suffix f ∈ SUPPORTED_FORMATS ->
  Qle_bool (size_mb f) WEB_INLINE_LIMIT_MB = false ->
  (forall c, api_count_tokens (validated_model data) c = Returned n) ->
  api_upload_file f = Returned h ->
  (forall c, api_generate_content (validated_model data) c = Raised (Exception msg)) ->
  exists c st',
    web_transcribe key data st = (Returned (Failure 500 msg), st')
    /\ actions st' = [UploadFile f; GenerateContent (validated_model data) c]
    /\ forall h', DeleteFile h' ∉ actions st'.
Proof.
  intros Hk Hu Hy Hdl Hsuf Hbig Hcount Hup Hgen.
  destruct (transcribe_cases key data st)
    as [[Hk' E] | [(_ & Hu' & E) | [(_ & _ & Hy' & E) | (_ & _ & _ & E)]]];
    try congruence.
  rewrite E. clear E.
  pose proof (AudioTranscriber_available _ (validated_model_available data)) as Hm.
  cbv [try_except transcribe_body bind await validate_file ret modify raise
       check_api_enabled get transcribe_transfer upload_file log
       AudioTranscriber_transcribe count_tokens model_name actions last_usage].
  rewrite Hdl, (bool_decide_eq_true_2 _ Hsuf), Hm, Hcount. cbv beta iota zeta delta [negb].
  rewrite Hbig, Hup. cbv beta iota zeta.
  rewrite Hcount. cbv beta iota zeta. rewrite Hgen.
  eexists. eexists. split; [reflexivity |]. cbn [actions]. split; [reflexivity |].
  intros h' Hin. apply elem_of_cons in Hin as [Hin | Hin]; [discriminate Hin |].
  apply elem_of_cons in Hin as [Hin | Hin]; [discriminate Hin |].
  apply elem_of_nil in Hin. exact Hin.
Qed.

(** X10. When the probe of the API fails with an [Exception], the request
    ends there with a 500: nothing is transferred and the model is not
    called.  The reply carries the stock sentence, or the message of the
    exception when that is a denied permission other than a disabled
    API. *)
Theorem failed_probe_stops_request key data (st : tstate F) f msg :
  truthy_str key = true ->
  url_of data <> "" ->
  is_youtube (url_of data) = true ->
  download_youtube_audio (url_of data) = Returned f ->
  suffix f ∈ SUPPORTED_FORMATS ->
  api_count_tokens (validated_model data) CountTest = Raised (Exception msg) ->
  web_transcribe key data st
  = (Returned
       (Failure 500
          (if permission_denied msg && negb (contains "API has not been enabled" msg)
           then msg
           else "Gemini API is not enabled. Please check your API key and project settings.")),
     TState (validated_model data) None []).
Proof.
  intros Hk Hu Hy Hdl Hsuf Hprobe.
  destruct (transcribe_cases key data st)
    as [[Hk' E] | [(_ & Hu' & E) | [(_ & _ & Hy' & E) | (_ & _ & _ & E)]]];
    try congruence.
  rewrite E. clear E.
  pose proof (AudioTranscriber_available _ (validated_model_available data)) as Hm.
  cbv [try_except transcribe_body bind await validate_file ret modify raise
       check_api_enabled get model_name actions last_usage].
  rewrite Hdl, (bool_decide_eq_true_2 _ Hsuf), Hm.
  rewrite Hprobe. destruct (_ && _); reflexivity.
Qed.

(** X11. A token count that fails with an [Exception] does not fail the
    transcription: the count is taken to be 0, the model is called all
    the same, and the estimate recorded for the call has no input
    tokens. *)
Theorem failed_token_count_is_zero audio si ts stt et d (s : tstate F) msg r o t :
  (forall c, api_count_tokens (model_name s) c = Raised (Exception msg)) ->
  (forall c, api_generate_content (model_name s) c = Returned r) ->
  usage_metadata r = Present (Some (UsageMetadata (Present o))) ->
  text r = Returned t ->
  exists c,
    at_transcribe audio si ts stt et d s
    = (Returned t,
       TState (model_name s) (Some (estimate_cost (model_name s) 0 o d))
              (actions s ++ [GenerateContent (model_name s) c])%list)
    /\ input_tokens (estimate_cost (F := F) (model_name s) 0 o d) = 0%Z.
Proof.
  intros Hcount Hgen Hmeta Htext.
  cbv [AudioTranscriber_transcribe bind count_tokens get ret raise log modify await
       set_last_usage extract_output_tokens try_except hasattr_usage_metadata
       getattr_candidates_token_count].
  rewrite Hcount. cbv beta iota zeta. cbn [model_name actions last_usage].
  rewrite Hgen. rewrite Hmeta. cbn [candidates_token_count model_name actions last_usage].
  rewrite Htext. eexists. split; reflexivity.
Qed.
End Facts.


(** A file of one byte over 20 MB is uploaded, the model fails, and the
    uploaded file stays where it is. *)
Lemma upload_kept_when_request_fails_witness :
  exists c st',
    failing_model_transcribe (Some "key") (sample_request None false)
      (AudioTranscriber "gemini-2.5-flash")
    = (Returned (Failure 500 "quota exceeded"), st')
    /\ actions st'
       = [UploadFile big_file;
          GenerateContent (validated_model (F := Q) (sample_request None false)) c]
    /\ forall h', DeleteFile h' ∉ actions st'.
Proof.
  refine (upload_kept_when_request_fails (F := Q)
            (fun _ => Returned big_file) (fun _ => Returned 60000%Z)
            (fun _ _ => Returned 1000%Z) (fun _ _ => Raised (Exception "quota exceeded"))
            (fun _ => Returned "files/abc") (fun _ => Returned tt) (fun _ => false)
            (Some "key") (sample_request None false) (AudioTranscriber "gemini-2.5-flash")
            big_file 1000%Z "files/abc" "quota exceeded" _ _ _ _ _ _ _ _ _).
  - reflexivity.
  - vm_compute. discriminate.
  - vm_compute. reflexivity.
  - reflexivity.
  - apply list_elem_of_here.
  - unfold size_mb, getsize, big_file. cbn [content].
    rewrite repeat_length, N_nat_Z. vm_compute. reflexivity.
  - reflexivity.
  - reflexivity.
  - reflexivity.
Defined.

(** The API is not enabled for the project of the key. *)
Lemma failed_probe_stops_request_witness :
  disabled_api_transcribe (Some "key") (sample_request None false)
    (AudioTranscriber "gemini-2.5-flash")
  = (Returned
       (Failure 500
          (if (fun _ : string => true) "403 API has not been enabled"
              && negb (contains "API has not been enabled" "403 API has not been enabled")
           then "403 API has not been enabled"
           else "Gemini API is not enabled. Please check your API key and project settings.")),
     TState (validated_model (F := Q) (sample_request None false)) None []).
Proof.
  apply (failed_probe_stops_request (F := Q)
           (fun _ => Returned sample_file) (fun _ => Returned 60000%Z)
           (fun _ _ => Raised (Exception "403 API has not been enabled"))
           (fun _ _ => Returned sample_response)
           (fun _ => Returned "files/abc") (fun _ => Returned tt) (fun _ => true)
           (Some "key") (sample_request None false) (AudioTranscriber "gemini-2.5-flash")
           sample_file "403 API has not been enabled").
  - reflexivity.
  - vm_compute. discriminate.
  - vm_compute. reflexivity.
  - reflexivity.
  - apply list_elem_of_here.
  - reflexivity.
Defined.

(** The count of tokens fails on every call; the sample response is
    transcribed all the same. *)
Lemma failed_token_count_is_zero_witness :
  exists c,
    AudioTranscriber_transcribe (F := Q)
      (fun _ _ => Raised (Exception "503 unavailable")) (fun _ _ => Returned sample_response)
      (InlineData "audio/mp3" (content sample_file)) None false None None 60%Q
      (AudioTranscriber "gemini-2.5-flash")
    = (Returned "abcdefgh",
       TState (model_name (AudioTranscriber (F := Q) "gemini-2.5-flash"))
         (Some (estimate_cost (model_name (AudioTranscriber (F := Q) "gemini-2.5-flash"))
                  0 2000 60%Q))
         (actions (AudioTranscriber (F := Q) "gemini-2.5-flash")
          ++ [GenerateContent (model_name (AudioTranscriber (F := Q) "gemini-2.5-flash")) c])%list)
    /\ input_tokens (estimate_cost (F := Q)
                       (model_name (AudioTranscriber (F := Q) "gemini-2.5-flash")) 0 2000 60%Q)
       = 0%Z.
Proof.
  apply (failed_token_count_is_zero (F := Q)
           (fun _ _ => Raised (Exception "503 unavailable")) (fun _ _ => Returned sample_response)
           (InlineData "audio/mp3" (content sample_file)) None false None None 60%Q
           (AudioTranscriber "gemini-2.5-flash") "503 unavailable" sample_response
           2000%Z "abcdefgh").
  - reflexivity.
  - reflexivity.
  - reflexivity.
  - reflexivity.
Defined.
End HandlerBehaviour.

(** ** The translation service: downloads, speech and the end of a connection *)
Module ServiceProofs.
Import Translator Service.
Local Open Scope list_scope.

(** *** Little-endian numbers *)

Lemma byte_of_Z_value (k : Z) :
  (0 <= k < 256)%Z -> Z.of_N (Byte.to_N (byte_of_Z k)) = k.
Proof.
  intros Hk. unfold byte_of_Z.
  destruct (Byte.of_N (Z.to_N k)) as [b |] eqn:E; simpl.
  - apply Byte.to_of_N in E. rewrite E. lia.
  - apply Byte.of_N_None_iff in E. lia.
Qed.

Lemma le_bytes_length (n : nat) (z : Z) : length (le_bytes n z) = n.
Proof. revert z. induction n as [| n IH]; intros z; simpl; [reflexivity | rewrite IH; reflexivity]. Qed.

(** Decoding gives back the number that was encoded, when it fits. *)
Lemma le_value_le_bytes (n : nat) (z : Z) :
  (0 <= z < 256 ^ Z.of_nat n)%Z -> le_value (le_bytes n z) = z.
Proof.
  revert z. induction n as [| n IH]; intros z Hz.
  - simpl in *. lia.
  - cbn [le_bytes le_value].
    rewrite Nat2Z.inj_succ, Z.pow_succ_r in Hz by lia.
    rewrite byte_of_Z_value by (apply Z.mod_pos_bound; lia).
    rewrite IH.
    + pose proof (Z.div_mod z 256). lia.
    + split; [apply Z.div_pos; lia |]. apply Z.div_lt_upper_bound; lia.
Qed.

(** *** The WAV header *)

(** The header of a recording of [n] bytes. *)
Local Abbreviation header_of n :=
  (list_byte_of_string "RIFF" ++ le_bytes 4 (36 + n)
   ++ list_byte_of_string "WAVE" ++ list_byte_of_string "fmt "
   ++ le_bytes 4 16 ++ le_bytes 2 1 ++ le_bytes 2 CHANNELS
   ++ le_bytes 4 SAMPLE_RATE ++ le_bytes 4 32000 ++ le_bytes 2 2 ++ le_bytes 2 16
   ++ list_byte_of_string "data" ++ le_bytes 4 n).

Lemma create_wav_file_fits (audio_chunks : list bytes) :
  (36 + Z.of_nat (length (concat audio_chunks)) <= 4294967295)%Z ->
  create_wav_file audio_chunks
  = Returned (header_of (Z.of_nat (length (concat audio_chunks))) ++ concat audio_chunks).
Proof.
  intros Hfit. unfold create_wav_file.
  set (n := Z.of_nat (length (concat audio_chunks))) in *.
  assert (H1 : ((0 <=? 36 + n) && (36 + n <=? 4294967295))%Z = true).
  { apply andb_true_intro. split; apply Z.leb_le; lia. }
  assert (H2 : ((0 <=? n) && (n <=? 4294967295))%Z = true).
  { apply andb_true_intro. split; apply Z.leb_le; lia. }
  cbn [struct_pack pack_field]. rewrite H1, H2.
  reflexivity.
Qed.

Lemma create_wav_file_overflows (audio_chunks : list bytes) :
  (4294967295 < 36 + Z.of_nat (length (concat audio_chunks)))%Z ->
  exists msg, create_wav_file audio_chunks = Raised (Exception msg).
Proof.
  intros Hbig. unfold create_wav_file.
  set (n := Z.of_nat (length (concat audio_chunks))) in *.
  assert (H1 : ((0 <=? 36 + n) && (36 + n <=? 4294967295))%Z = false).
  { apply andb_false_intro2. apply Z.leb_gt. lia. }
  cbn [struct_pack pack_field]. rewrite H1.
  destruct ((0 <=? n) && (n <=? 4294967295))%Z; eexists; reflexivity.
Qed.

(** X12. A recording whose size fits the 32-bit field is written as a
    44-byte RIFF/WAVE header followed by the chunks joined in order.  The
    header reads back, field by field, as what a reader of WAV files
    expects: the RIFF size is the data size plus 36 (the length of the file
    less 8), the format chunk has 16 bytes and says PCM, one channel,
    16000 samples a second, 32000 bytes a second, blocks of 2 bytes and
    16 bits a sample, and the data size is the number of bytes recorded. *)
Theorem wav_file_layout (audio_chunks : list bytes) :
  (36 + Z.of_nat (length (concat audio_chunks)) <= 4294967295)%Z ->
  exists header,
    create_wav_file audio_chunks = Returned (header ++ concat audio_chunks)
    /\ length header = 44%nat
    /\ drop 44 (header ++ concat audio_chunks) = concat audio_chunks
    /\ take 4 header = list_byte_of_string "RIFF"
    /\ le_value (take 4 (drop 4 header)) = (36 + Z.of_nat (length (concat audio_chunks)))%Z
    /\ le_value (take 4 (drop 4 header))
       = (Z.of_nat (length (header ++ concat audio_chunks)) - 8)%Z
    /\ take 8 (drop 8 header) = list_byte_of_string "WAVEfmt "
    /\ le_value (take 4 (drop 16 header)) = 16%Z
    /\ le_value (take 2 (drop 20 header)) = 1%Z
    /\ le_value (take 2 (drop 22 header)) = CHANNELS
    /\ le_value (take 4 (drop 24 header)) = SAMPLE_RATE
    /\ le_value (take 4 (drop 28 header)) = (SAMPLE_RATE * CHANNELS * 2)%Z
    /\ le_value (take 2 (drop 32 header)) = (CHANNELS * 2)%Z
    /\ le_value (take 2 (drop 34 header)) = 16%Z
    /\ take 4 (drop 36 header) = list_byte_of_string "data"
    /\ le_value (take 4 (drop 40 header)) = Z.of_nat (length (concat audio_chunks)).
Proof.
  intros Hfit.
  set (n := Z.of_nat (length (concat audio_chunks))) in *.
  assert (Hn : (0 <= n)%Z) by (subst n; lia).
  exists (header_of n).
  split; [apply create_wav_file_fits; exact Hfit |].
  assert (Hlen : length (header_of n) = 44%nat) by reflexivity.
  split; [exact Hlen |].
  split; [rewrite <- Hlen at 1; apply drop_app_length |].
  split; [reflexivity |].
  assert (Hriff : le_value (take 4 (drop 4 (header_of n))) = (36 + n)%Z).
  { change (take 4 (drop 4 (header_of n))) with (le_bytes 4 (36 + n)).
    apply le_value_le_bytes. change (256 ^ Z.of_nat 4)%Z with 4294967296%Z. lia. }
  split; [exact Hriff |].
  split; [rewrite Hriff, length_app, Hlen; subst n; lia |].
  split; [reflexivity |].
  split; [reflexivity |]. split; [reflexivity |]. split; [reflexivity |].
  split; [reflexivity |]. split; [reflexivity |]. split; [reflexivity |].
  split; [reflexivity |]. split; [reflexivity |].
  change (take 4 (drop 40 (header_of n))) with (le_bytes 4 n).
  apply le_value_le_bytes. change (256 ^ Z.of_nat 4)%Z with 4294967296%Z. lia.
Qed.

Lemma wav_file_layout_witness :
  (36 + Z.of_nat (length (concat [[x01; x02]; [x03; x04]])) <= 4294967295)%Z
  /\ exists header,
       create_wav_file [[x01; x02]; [x03; x04]] = Returned (header ++ [x01; x02; x03; x04])
       /\ length header = 44%nat
       /\ le_value (take 4 (drop 4 header)) = 40%Z
       /\ le_value (take 4 (drop 40 header)) = 4%Z.
Proof.
  assert (Hfit : (36 + Z.of_nat (length (concat [[x01; x02]; [x03; x04]])) <= 4294967295)%Z)
    by (simpl; lia).
  split; [exact Hfit |].
  destruct (wav_file_layout [[x01; x02]; [x03; x04]] Hfit)
    as (header & Hw & Hl & _ & _ & Hr & _ & _ & _ & _ & _ & _ & _ & _ & _ & _ & Hd).
  exists header. auto.
Defined.

(** X13. [create_wav_file] returns a file exactly when the size of the
    recording plus 36 fits an unsigned 32-bit number, and the file then
    has 44 bytes more than the recording; beyond that, [struct.pack]
    raises and no file is made. *)
Theorem wav_file_size_limit (audio_chunks : list bytes) :
  if (36 + Z.of_nat (length (concat audio_chunks)) <=? 4294967295)%Z
  then exists wav, create_wav_file audio_chunks = Returned wav
                   /\ length wav = (44 + length (concat audio_chunks))%nat
  else exists msg, create_wav_file audio_chunks = Raised (Exception msg).
Proof.
  destruct (36 + Z.of_nat (length (concat audio_chunks)) <=? 4294967295)%Z eqn:E.
  - apply Z.leb_le in E. eexists. split; [apply create_wav_file_fits; exact E |].
    rewrite length_app. reflexivity.
  - apply Z.leb_gt in E. apply create_wav_file_overflows. exact E.
Qed.

(** *** Audio of a connection *)

(** What a run of [audio_data] messages does to the record of the
    connection. *)
Lemma receive_audio_record (session_id : string) (chunks : list bytes) (s : server)
    (x : session) :
  sessions s !! session_id = Some x ->
  exists x',
    sessions (receive_audio session_id chunks s) !! session_id = Some x'
    /\ audio_chunks x' = audio_chunks x ++ chunks
    /\ stream_active x' = stream_active x
    /\ audio_queue x' = audio_queue x ++ (if stream_active x then chunks else [])
    /\ pending_audio x' = pending_audio x ++ (if stream_active x then [] else chunks)
    /\ original_text x' = original_text x
    /\ translated_text x' = translated_text x
    /\ tts_audio x' = tts_audio x
    /\ emitted (receive_audio session_id chunks s) = emitted s
    /\ threads (receive_audio session_id chunks s) = threads s.
Proof.
  revert s x. induction chunks as [| c chunks IH]; intros s x Hx.
  - exists x. simpl. rewrite !app_nil_r. destruct (stream_active x); rewrite ?app_nil_r; auto 10.
  - change (receive_audio session_id (c :: chunks) s)
      with (receive_audio session_id chunks (handle_audio_data session_id (Returned c) s)).
    set (s1 := handle_audio_data session_id (Returned c) s).
    assert (H1 : exists x1, sessions s1 !! session_id = Some x1
                 /\ audio_chunks x1 = audio_chunks x ++ [c]
                 /\ stream_active x1 = stream_active x
                 /\ audio_queue x1 = audio_queue x ++ (if stream_active x then [c] else [])
                 /\ pending_audio x1 = pending_audio x ++ (if stream_active x then [] else [c])
                 /\ original_text x1 = original_text x
                 /\ translated_text x1 = translated_text x
                 /\ tts_audio x1 = tts_audio x
                 /\ emitted s1 = emitted s /\ threads s1 = threads s).
    { subst s1. unfold handle_audio_data. rewrite Hx. eexists.
      split; [apply lookup_insert_eq |]. simpl.
      destruct (stream_active x); rewrite ?app_nil_r; auto 10. }
    destruct H1 as (x1 & Hx1 & Hc1 & Ha1 & Hq1 & Hp1 & Ho1 & Ht1 & Hs1 & He1 & Hth1).
    destruct (IH s1 x1 Hx1) as (x' & Hx' & Hc & Ha & Hq & Hp & Ho & Ht & Hs & He & Hth).
    exists x'. split; [exact Hx' |].
    rewrite Hc, Ha, Hq, Hp, Ho, Ht, Hs, He, Hth, Hc1, Ha1, Hq1, Hp1.
    destruct (stream_active x); rewrite <- ?app_assoc, ?app_nil_r; simpl; auto 10.
Qed.

(** X14. The recording that can be downloaded grows by every chunk the
    connection sends, in arrival order and whether or not the chunk was
    handed to the recogniser: after any run of [audio_data] messages the
    download is the WAV file of the chunks recorded before followed by the
    new ones, and it is refused with a 404 only if there is none at all.
    ([start_session] empties the record's list, so the recording holds
    what arrived since the last start.) *)
Theorem recording_holds_every_chunk (session_id : string) (chunks : list bytes)
    (s : server) (x : session) :
  sessions s !! session_id = Some x ->
  download_audio session_id (receive_audio session_id chunks s)
  = match audio_chunks x ++ chunks with
    | [] => Returned (JsonError 404 "No audio recorded")
    | _ :: _ =>
        match create_wav_file (audio_chunks x ++ chunks) with
        | Returned wav_data =>
            Returned (SendFile wav_data "audio/wav" ("recording_" +:+ session_id +:+ ".wav"))
        | Raised e => Raised e
        end
    end.
Proof.
  intros Hx. destruct (receive_audio_record session_id chunks s x Hx) as (x' & Hx' & Hc & _).
  unfold download_audio. rewrite Hx', Hc. reflexivity.
Qed.

Lemma recording_holds_every_chunk_witness :
  exists wav_data,
    download_audio "sid"
      (receive_audio "sid" [[x03]; [x04; x05]]
         (handle_start_session "sid" (StartData None None None None) (fun s => s)
            (receive_audio "sid" [[x01; x02]] (handle_connect "sid" (Server ∅ [] [])))))
    = Returned (SendFile wav_data "audio/wav" "recording_sid.wav")
    /\ drop 44 wav_data = [x03; x04; x05].
Proof.
  eexists. split.
  - refine (eq_trans (recording_holds_every_chunk "sid" [[x03]; [x04; x05]] _ _ _) _).
    + vm_compute. reflexivity.
    + vm_compute. reflexivity.
  - reflexivity.
Defined.

(** X15. Each chunk that arrives is handed on exactly once: while the
    stream is active every chunk of a run is put on the queue, in arrival
    order, and none is left pending; while it is not, every chunk is
    appended to the pending list and none is queued.  Receiving audio
    never switches the stream on or off, emits nothing and leaves the
    texts alone. *)
Theorem audio_is_queued_or_pending (session_id : string) (chunks : list bytes)
    (s : server) (x : session) :
  sessions s !! session_id = Some x ->
  exists x',
    sessions (receive_audio session_id chunks s) !! session_id = Some x'
    /\ stream_active x' = stream_active x
    /\ audio_queue x' ++ pending_audio x'
       = (if stream_active x
          then (audio_queue x ++ chunks) ++ pending_audio x
          else audio_queue x ++ (pending_audio x ++ chunks))
    /\ (stream_active x = true ->
        audio_queue x' = audio_queue x ++ chunks /\ pending_audio x' = pending_audio x)
    /\ (stream_active x = false ->
        audio_queue x' = audio_queue x /\ pending_audio x' = pending_audio x ++ chunks)
    /\ original_text x' = original_text x
    /\ translated_text x' = translated_text x
    /\ emitted (receive_audio session_id chunks s) = emitted s.
Proof.
  intros Hx.
  destruct (receive_audio_record session_id chunks s x Hx)
    as (x' & Hx' & Hc & Ha & Hq & Hp & Ho & Ht & Hs & He & Hth).
  exists x'. split; [exact Hx' |]. split; [exact Ha |].
  rewrite Hq, Hp. destruct (stream_active x); rewrite ?app_nil_r.
  - repeat split; auto; discriminate.
  - repeat split; auto; discriminate.
Qed.

Lemma audio_is_queued_or_pending_witness :
  exists x',
    sessions (receive_audio "sid" [[x01]; [x02]] (handle_connect "sid" (Server ∅ [] [])))
      !! "sid" = Some x'
    /\ audio_queue x' = [] /\ pending_audio x' = [[x01]; [x02]].
Proof.
  destruct (audio_is_queued_or_pending "sid" [[x01]; [x02]]
              (handle_connect "sid" (Server ∅ [] [])) new_session)
    as (x' & Hx' & _ & _ & _ & Hoff & _).
  - vm_compute. reflexivity.
  - exists x'. split; [exact Hx' |]. apply Hoff. reflexivity.
Defined.

(** *** Speech *)

Section SpeechFacts.
Variable upper : pystr -> pystr.
Variable synthesize_speech : synthesis -> outcome bytes.

Local Abbreviation speech := (generate_speech upper synthesize_speech).
Local Abbreviation request_tts := (handle_request_tts upper synthesize_speech).

(** X16. The speech made for a connection can be downloaded until the
    next request or start: when the text is not blank and the synthesis
    returns audio, the handler sends that audio to the connection, stores
    it in the record and touches nothing else in it, and the download
    route then serves exactly that audio (a 404 if it is empty); a later
    [start_session] discards it, after which the download is refused. *)
Theorem tts_audio_round_trip session_id data (s : server) (x : session) (audio : bytes) :
  sessions s !! session_id = Some x ->
  strip_cp (default [] (tts_text data)) <> [] ->
  speech (default [] (tts_text data))
    (default (cp "Spanish") (tts_target_language data))
    (default (cp "NEUTRAL") (tts_voice_gender data)) = Returned audio ->
  let r := request_tts session_id data s in
  snd r = Some (TtsMessage audio "mp3" (default (cp "NEUTRAL") (tts_voice_gender data)))
  /\ emitted (fst r) = emitted s
  /\ (exists x', sessions (fst r) !! session_id = Some x'
                 /\ tts_audio x' = Some audio
                 /\ audio_chunks x' = audio_chunks x
                 /\ original_text x' = original_text x
                 /\ translated_text x' = translated_text x
                 /\ stream_active x' = stream_active x
                 /\ audio_queue x' = audio_queue x
                 /\ pending_audio x' = pending_audio x)
  /\ download_tts_audio session_id (fst r)
     = match audio with
       | [] => JsonError 404 "No TTS audio available"
       | _ :: _ =>
           SendFile audio "audio/mpeg" ("translation_audio_" +:+ session_id +:+ ".mp3")
       end
  /\ (forall data', download_tts_audio session_id
                      (handle_start_session_begin session_id data' (fst r))
                    = JsonError 404 "No TTS audio available").
Proof.
  intros Hx Htext Hspeech r. subst r. unfold handle_request_tts.
  rewrite (bool_decide_eq_false_2 _ Htext), Hspeech, Hx. cbn [fst snd].
  split; [reflexivity |]. split; [reflexivity |].
  split.
  { eexists. split; [apply lookup_insert_eq |]. simpl. auto 10. }
  split.
  { unfold download_tts_audio, set_session. cbn [sessions].
    rewrite lookup_insert_eq. simpl. destruct audio; reflexivity. }
  intros data'. unfold download_tts_audio, handle_start_session_begin, set_session.
  cbn [sessions]. rewrite lookup_insert_eq. cbn [sessions].
  rewrite lookup_insert_eq. reflexivity.
Qed.
End SpeechFacts.

Lemma tts_audio_round_trip_witness :
  let synthesize := fun q : synthesis =>
    if String.eqb (language_code q) "fr-FR" then Returned [x49; x44; x33]
    else Raised (Exception "unsupported") in
  let data := TtsData (Some (cp "bonjour")) (Some (cp "French")) None in
  let r := handle_request_tts (fun g => g) synthesize "sid" data
             (handle_connect "sid" (Server ∅ [] [])) in
  snd r = Some (TtsMessage [x49; x44; x33] "mp3" (cp "NEUTRAL"))
  /\ download_tts_audio "sid" (fst r)
      = SendFile [x49; x44; x33] "audio/mpeg" "translation_audio_sid.mp3".
Proof.
  intros synthesize data r.
  destruct (tts_audio_round_trip (fun g => g) synthesize "sid" data
              (handle_connect "sid" (Server ∅ [] [])) new_session [x49; x44; x33])
    as (Hm & _ & _ & Hd & _).
  - vm_compute. reflexivity.
  - vm_compute. discriminate.
  - vm_compute. reflexivity.
  - split; [exact Hm | exact Hd].
Defined.

(** *** The end of a connection *)

(** X17. After a disconnection the server has forgotten the connection,
    whatever the other handlers did while it waited for the worker: the
    downloads answer 404, audio that still arrives is ignored, and a
    [start_session] or [stop_session] of that connection starts no worker
    and changes no record; the first only reports the missing record, the
    second only acknowledges. *)
Theorem disconnect_forgets_session (session_id : string)
    (during_join : server -> server) (s : server) :
  let s' := handle_disconnect session_id during_join s in
  sessions s' !! session_id = None
  /\ download_audio session_id s' = Returned (JsonError 404 "Session not found")
  /\ download_tts_audio session_id s' = JsonError 404 "Session not found"
  /\ (forall audio, handle_audio_data session_id audio s' = s')
  /\ (forall data during_sleep,
         handle_start_session session_id data during_sleep s'
         = emit session_id (error (cp "'" ++ cp session_id ++ cp "'")) s')
  /\ (forall during_sleep,
         handle_stop_session session_id during_sleep s'
         = emit session_id session_stopped s').
Proof.
  intros s'.
  assert (Hgone : sessions s' !! session_id = None).
  { subst s'. unfold handle_disconnect.
    destruct (sessions s !! session_id) as [x |] eqn:Hx; [| exact Hx].
    cbn [sessions]. apply lookup_delete_eq. }
  split; [exact Hgone |].
  split; [unfold download_audio; rewrite Hgone; reflexivity |].
  split; [unfold download_tts_audio; rewrite Hgone; reflexivity |].
  split; [intros audio; unfold handle_audio_data; rewrite Hgone; reflexivity |].
  split.
  - intros data ds. unfold handle_start_session, handle_start_session_begin.
    rewrite Hgone. reflexivity.
  - intros ds. unfold handle_stop_session. rewrite Hgone. reflexivity.
Qed.

(** X18. The handlers of one connection leave the records of the other
    connections as they are: whatever message arrives for a connection,
    the record of any other connection is the same before and after. *)
Theorem other_sessions_untouched (session_id other : string) (s : server) :
  session_id <> other ->
  sessions (handle_connect session_id s) !! other = sessions s !! other
  /\ (forall data, sessions (handle_start_session_begin session_id data s) !! other
                   = sessions s !! other)
  /\ (forall data, sessions (handle_start_session_flush session_id data s) !! other
                   = sessions s !! other)
  /\ (forall audio, sessions (handle_audio_data session_id audio s) !! other
                    = sessions s !! other)
  /\ sessions (handle_stop_session_begin session_id s) !! other = sessions s !! other
  /\ sessions (handle_stop_session session_id (fun s => s) s) !! other = sessions s !! other
  /\ sessions (handle_disconnect session_id (fun s => s) s) !! other = sessions s !! other
  /\ (forall upper synthesize_speech data,
         sessions (fst (handle_request_tts upper synthesize_speech session_id data s)) !! other
         = sessions s !! other).
Proof.
  intros Hne.
  assert (Hset : forall x s0, sessions (set_session session_id x s0) !! other
                              = sessions s0 !! other).
  { intros x s0. unfold set_session. cbn [sessions]. apply lookup_insert_ne. exact Hne. }
  assert (Hemit : forall e s0, sessions (emit session_id e s0) = sessions s0)
    by reflexivity.
  assert (Hstop : sessions (handle_stop_session_begin session_id s) !! other
                  = sessions s !! other).
  { unfold handle_stop_session_begin.
    destruct (sessions s !! session_id); [apply Hset | reflexivity]. }
  split; [unfold handle_connect; rewrite Hemit; apply Hset |].
  split.
  { intros data. unfold handle_start_session_begin.
    destruct (sessions s !! session_id); [| reflexivity].
    cbn [sessions]. apply lookup_insert_ne. exact Hne. }
  split.
  { intros data. unfold handle_start_session_flush.
    destruct (sessions s !! session_id); [| reflexivity].
    rewrite Hemit. apply Hset. }
  split.
  { intros audio. unfold handle_audio_data.
    destruct (sessions s !! session_id); [| reflexivity].
    destruct audio as [a | [| msg | msg]]; try reflexivity. apply Hset. }
  split; [exact Hstop |].
  split.
  { unfold handle_stop_session.
    destruct (sessions s !! session_id) eqn:Hx; [| reflexivity].
    destruct (sessions (handle_stop_session_begin session_id s) !! session_id);
      [| exact Hstop].
    rewrite Hemit, Hset. exact Hstop. }
  split.
  { unfold handle_disconnect.
    destruct (sessions s !! session_id); [| reflexivity].
    cbn [sessions]. rewrite lookup_delete_ne by exact Hne. apply lookup_insert_ne. exact Hne. }
  intros upper synth data. unfold handle_request_tts.
  case_bool_decide; [reflexivity |].
  destruct (generate_speech _ _ _ _ _) as [a | [| msg | msg]]; try reflexivity.
  cbn [fst]. destruct (sessions s !! session_id); [apply Hset | reflexivity].
Qed.

Lemma other_sessions_untouched_witness :
  let s := handle_connect "b" (handle_connect "a" (Server ∅ [] [])) in
  sessions (handle_disconnect "a" (fun s => s) s) !! "b" = Some new_session
  /\ sessions (handle_audio_data "a" (Returned [x01]) s) !! "b" = Some new_session.
Proof.
  intros s.
  assert (Hne : "a" <> "b") by discriminate.
  destruct (other_sessions_untouched "a" "b" s Hne) as (_ & _ & _ & Ha & _ & _ & Hd & _).
  split.
  - rewrite Hd. vm_compute. reflexivity.
  - rewrite Ha. vm_compute. reflexivity.
Defined.
End ServiceProofs.

(** ** The streaming worker: what it sends, and how it ends *)
Module WorkerBehaviour.
Import Translator WorkerMessages.
Local Open Scope list_scope.

Section Facts.
Variable api_generate_text : pystr -> outcome pystr.
Variable handlers : nat -> session -> session.

Local Abbreviation worker_translate := (gemini_translate api_generate_text).
Local Abbreviation worker_result := (handle_result api_generate_text).
Local Abbreviation worker_results := (for_results api_generate_text).
Local Abbreviation worker_responses := (for_responses api_generate_text handlers).
Local Abbreviation worker_run := (streaming_transcribe api_generate_text handlers).
Local Abbreviation message_of := (notification_of api_generate_text).

Lemma in_removelast {A : Type} (e : A) (l : list A) : In e (removelast l) -> e ∈ l.
Proof.
  induction l as [| a l IH]; simpl; [tauto |].
  destruct l as [| b l]; [simpl; tauto |].
  intros [-> | H]; apply elem_of_cons; [left; reflexivity | right; apply IH, H].
Qed.

Lemma translate_trace text target_language w :
  only_exceptions api_generate_text ->
  exists w', worker_translate text target_language w
             = (Returned (translation_of api_generate_text text target_language), w')
             /\ its_session w' = its_session w
             /\ notifications w' = notifications w
             /\ prompts w' = prompts w ++ prompt_of target_language text.
Proof.
  intros Hapi. unfold gemini_translate, translate, translation_of, prompt_of.
  case_bool_decide.
  - exists w. rewrite app_nil_r. auto.
  - specialize (Hapi (translation_prompt text target_language)).
    unfold try_except, bind, modify, await, ret.
    destruct (api_generate_text (translation_prompt text target_language)) as [r | [| msg | msg]];
      try contradiction; eexists; (split; [reflexivity |]); simpl; auto.
Qed.

Lemma handle_result_trace show_timestamps target_language r w :
  only_exceptions api_generate_text ->
  exists w', worker_result show_timestamps target_language r w = (Returned tt, w')
    /\ notifications w' = notifications w ++ message_of show_timestamps target_language r
    /\ prompts w' = prompts w ++ flat_map (prompt_of target_language) (final_segment r)
    /\ stream_active (its_session w') = stream_active (its_session w).
Proof.
  intros Hapi. unfold handle_result, notification_of, final_segment.
  destruct (alternatives r) as [| first rest].
  { exists w. simpl. rewrite !app_nil_r. auto. }
  destruct (is_final r).
  - unfold bind at 1. unfold on_session at 1, modify.
    destruct (translate_trace (transcript first) target_language
                (Worker (add_original_text (transcript first ++ cp " ") (its_session w))
                        (prompts w) (notifications w)) Hapi) as (w1 & Hrun & Hs & Hn & Hp).
    unfold bind at 1. rewrite Hrun.
    eexists. split; [reflexivity |]. simpl. rewrite Hs, Hn, Hp. simpl.
    rewrite !app_nil_r. auto.
  - eexists. split; [reflexivity |]. simpl. rewrite !app_nil_r. auto.
Qed.

Lemma for_results_trace show_timestamps target_language results w :
  only_exceptions api_generate_text ->
  exists w', worker_results show_timestamps target_language results w = (Returned tt, w')
    /\ notifications w'
       = notifications w ++ flat_map (message_of show_timestamps target_language) results
    /\ prompts w'
       = prompts w ++ flat_map (prompt_of target_language) (concat (map final_segment results))
    /\ stream_active (its_session w') = stream_active (its_session w).
Proof.
  intros Hapi. revert w.
  induction results as [| r results IH]; intros w; simpl.
  - exists w. rewrite !app_nil_r. auto.
  - destruct (handle_result_trace show_timestamps target_language r w Hapi)
      as (w1 & Hrun & Hn & Hp & Ha).
    destruct (IH w1) as (w2 & Hrun2 & Hn2 & Hp2 & Ha2).
    exists w2. unfold bind. rewrite Hrun. split; [exact Hrun2 |].
    rewrite Hn2, Hp2, Ha2, Hn, Hp, Ha. rewrite flat_map_app, !app_assoc. auto.
Qed.

Lemma for_responses_trace n show_timestamps target_language responses stream_end w :
  only_exceptions api_generate_text ->
  stream_kept_active handlers ->
  stream_active (its_session w) = true ->
  exists w',
    worker_responses n show_timestamps target_language responses stream_end w
    = (match stream_end with Some e => Raised e | None => Returned tt end, w')
    /\ notifications w'
       = notifications w
         ++ flat_map (message_of show_timestamps target_language) (concat responses)
    /\ prompts w'
       = prompts w ++ flat_map (prompt_of target_language) (finalized responses).
Proof.
  intros Hapi Hkeep. revert n w.
  induction responses as [| response responses IH]; intros n w Hactive; simpl.
  - unfold finalized. simpl. rewrite !app_nil_r.
    destruct stream_end as [e |]; eexists; split; try reflexivity; auto.
  - unfold bind at 1. unfold on_session at 1, modify.
    unfold bind at 1. unfold get at 1. simpl.
    rewrite (Hkeep n (its_session w) Hactive). simpl.
    destruct (for_results_trace show_timestamps target_language response
                (Worker (handlers n (its_session w)) (prompts w) (notifications w)) Hapi)
      as (w1 & Hrun & Hn & Hp & Ha).
    simpl in Hn, Hp, Ha.
    rewrite (Hkeep n (its_session w) Hactive) in Ha.
    destruct (IH (S n) w1 Ha) as (w2 & Hrun2 & Hn2 & Hp2).
    exists w2. unfold bind. rewrite Hrun. split; [exact Hrun2 |].
    rewrite Hn2, Hp2, Hn, Hp.
    unfold finalized. simpl. rewrite !flat_map_app, !app_assoc. auto.
Qed.

(** X19. While the stream stays active and the translation API raises
    nothing but subclasses of [Exception], the worker tells the connection
    of every result that has an alternative, once and in arrival order: a
    final result with its translation and confidence, an interim one with
    neither; it sends one prompt for each finalized segment that is not
    blank, in order, and none for interim results.  An [Exception] that
    ends the response stream is reported last, as one [error] message, and
    the worker returns; only another kind of exception leaves it. *)
Theorem results_notified_in_order responses stream_end w :
  only_exceptions api_generate_text ->
  stream_kept_active handlers ->
  stream_active (its_session w) = true ->
  let run := worker_run responses stream_end w in
  let show_timestamps := show_timestamps (its_session w) in
  let target_language := target_language (its_session w) in
  notifications (snd run)
  = notifications w
    ++ flat_map (message_of show_timestamps target_language) (concat responses)
    ++ closing_error stream_end
  /\ prompts (snd run)
     = prompts w ++ flat_map (prompt_of target_language) (finalized responses)
  /\ fst run = match stream_end with
               | None | Some (Exception _) => Returned tt
               | Some e => Raised e
               end.
Proof.
  intros Hapi Hkeep Hactive run st tl. subst run st tl.
  unfold streaming_transcribe, bind, get, try_except.
  destruct (for_responses_trace 0 (show_timestamps (its_session w))
              (target_language (its_session w)) responses stream_end w
              Hapi Hkeep Hactive) as (w1 & Hrun & Hn & Hp).
  rewrite Hrun.
  destruct stream_end as [[| msg | msg] |]; simpl; rewrite Hn, Hp, ?app_nil_r, <- ?app_assoc; auto.
Qed.

Lemma for_responses_stopped n show_timestamps target_language pre response post
    stream_end w :
  only_exceptions api_generate_text ->
  (forall k x, (k < length pre)%nat -> stream_active x = true ->
               stream_active (handlers (n + k) x) = true) ->
  (forall x, stream_active (handlers (n + length pre) x) = false) ->
  stream_active (its_session w) = true ->
  exists w1,
    worker_responses n show_timestamps target_language pre None w = (Returned tt, w1)
    /\ worker_responses n show_timestamps target_language (pre ++ response :: post)
         stream_end w
       = (Returned tt,
          Worker (handlers (n + length pre) (its_session w1)) (prompts w1) (notifications w1)).
Proof.
  intros Hapi. revert n w.
  induction pre as [| p pre IH]; intros n w Hkeep Hstop Hactive.
  - exists w. split; [reflexivity |]. simpl in Hstop. simpl.
    rewrite Nat.add_0_r in *.
    unfold bind at 1. unfold on_session at 1, modify.
    unfold bind at 1. unfold get at 1. simpl.
    rewrite Hstop. reflexivity.
  - assert (Hk0 : stream_active (handlers n (its_session w)) = true).
    { specialize (Hkeep 0%nat (its_session w)). rewrite Nat.add_0_r in Hkeep.
      apply Hkeep; [simpl; lia | exact Hactive]. }
    destruct (for_results_trace show_timestamps target_language p
                (Worker (handlers n (its_session w)) (prompts w) (notifications w)) Hapi)
      as (w1 & Hrun & _ & _ & Ha).
    simpl in Ha. rewrite Hk0 in Ha.
    destruct (IH (S n) w1) as (w2 & Hpre & Hall).
    + intros k x Hk Hx. replace (S n + k)%nat with (n + S k)%nat by lia.
      apply Hkeep; [simpl; lia | exact Hx].
    + intros x. replace (S n + length pre)%nat with (n + length (p :: pre))%nat
        by (simpl; lia). apply Hstop.
    + exact Ha.
    + exists w2.
      replace (n + length (p :: pre))%nat with (S n + length pre)%nat by (simpl; lia).
      split.
      * simpl. unfold bind at 1. unfold on_session at 1, modify.
        unfold bind at 1. unfold get at 1. simpl. rewrite Hk0. simpl.
        unfold bind. rewrite Hrun. exact Hpre.
      * simpl. unfold bind at 1. unfold on_session at 1, modify.
        unfold bind at 1. unfold get at 1. simpl. rewrite Hk0. simpl.
        unfold bind. rewrite Hrun. exact Hall.
Qed.

(** X20. Once the worker finds the stream switched off it reads no
    further: if the handlers keep the stream active up to some response
    and have switched it off when the worker looks at that one, the worker
    returns in the state it would have reached had the stream ended
    normally just before, but for what the handlers did to the record.
    That response and all later ones are neither recorded, translated nor
    notified, and the exception the stream would have ended with is never
    seen. *)
Theorem stop_ends_the_worker pre response post stream_end w :
  only_exceptions api_generate_text ->
  (forall k x, (k < length pre)%nat -> stream_active x = true ->
               stream_active (handlers k x) = true) ->
  (forall x, stream_active (handlers (length pre) x) = false) ->
  stream_active (its_session w) = true ->
  let w1 := snd (worker_run pre None w) in
  worker_run (pre ++ response :: post) stream_end w
  = (Returned tt,
     Worker (handlers (length pre) (its_session w1)) (prompts w1) (notifications w1)).
Proof.
  intros Hapi Hkeep Hstop Hactive w1. subst w1.
  destruct (for_responses_stopped 0 (show_timestamps (its_session w))
              (target_language (its_session w)) pre response post stream_end w Hapi)
    as (w1 & Hpre & Hall); try assumption.
  unfold streaming_transcribe, bind, get, try_except.
  simpl in Hall. rewrite Hpre, Hall. reflexivity.
Qed.

(** X21. No [Exception] leaves the worker, whatever the stream, the
    handlers and the translation API do: the worker returns or ends with
    an error that is not an [Exception], and it sends an [error] message
    only as the last thing it does. *)
Theorem worker_contains_exceptions responses stream_end w :
  let run := worker_run responses stream_end w in
  (forall msg, fst run <> Raised (Exception msg))
  /\ (forall e, In e (removelast (drop (length (notifications w)) (notifications (snd run)))) ->
                forall msg, e <> error msg).
Proof.
  intros run. subst run.
  assert (Htranslate : forall text tl w0,
             notifications (snd (worker_translate text tl w0)) = notifications w0
             /\ forall e, fst (worker_translate text tl w0) = Raised e -> True).
  { intros. split; [| trivial]. unfold gemini_translate, translate.
    case_bool_decide; [reflexivity |].
    unfold try_except, bind, modify, await, ret.
    destruct (api_generate_text _) as [r | [| msg | msg]]; reflexivity. }
  (* every message the loop sends is a transcription *)
  assert (Hres : forall st tl r w0,
             exists l, notifications (snd (worker_result st tl r w0)) = notifications w0 ++ l
                       /\ Forall (fun e => forall msg, e <> error msg) l).
  { intros st tl r w0. unfold handle_result.
    destruct (alternatives r) as [| first rest].
    { exists []. rewrite app_nil_r. split; [reflexivity | constructor]. }
    destruct (is_final r).
    - unfold bind at 1. unfold on_session at 1, modify.
      unfold bind at 1.
      pose proof (Htranslate (transcript first) tl
                    (Worker (add_original_text (transcript first ++ cp " ") (its_session w0))
                            (prompts w0) (notifications w0))) as [Hn _].
      destruct (worker_translate _ _ _) as [[t | e] w1]; simpl in Hn.
      + eexists. split; [simpl; rewrite Hn; reflexivity |].
        constructor; [intros msg; discriminate | constructor].
      + exists []. rewrite app_nil_r. split; [simpl; exact Hn | constructor].
    - eexists. split; [reflexivity |].
      constructor; [intros msg; discriminate | constructor]. }
  assert (Hress : forall st tl rs w0,
             exists l, notifications (snd (worker_results st tl rs w0)) = notifications w0 ++ l
                       /\ Forall (fun e => forall msg, e <> error msg) l).
  { intros st tl rs. induction rs as [| r rs IH]; intros w0; simpl.
    - exists []. rewrite app_nil_r. split; [reflexivity | constructor].
    - destruct (Hres st tl r w0) as (l1 & Hl1 & Hf1).
      unfold bind. destruct (worker_result st tl r w0) as [[u | e] w1]; simpl in Hl1.
      + destruct (IH w1) as (l2 & Hl2 & Hf2).
        exists (l1 ++ l2). rewrite Hl2, Hl1, app_assoc. split; [reflexivity |].
        apply Forall_app; auto.
      + exists l1. split; [exact Hl1 | exact Hf1]. }
  assert (Hloop : forall st tl rs n w0,
             exists l, notifications (snd (worker_responses n st tl rs stream_end w0))
                       = notifications w0 ++ l
                       /\ Forall (fun e => forall msg, e <> error msg) l).
  { intros st tl rs. induction rs as [| r rs IH]; intros n w0; simpl.
    - exists []. rewrite app_nil_r. split; [| constructor].
      destruct stream_end; reflexivity.
    - unfold bind at 1. unfold on_session at 1, modify.
      unfold bind at 1. unfold get at 1. simpl.
      destruct (negb (stream_active (handlers n (its_session w0)))).
      + exists []. rewrite app_nil_r. split; [reflexivity | constructor].
      + destruct (Hress st tl r (Worker (handlers n (its_session w0)) (prompts w0)
                                   (notifications w0))) as (l1 & Hl1 & Hf1).
        unfold bind.
        destruct (worker_results st tl r _) as [[u | e] w1]; simpl in Hl1.
        * destruct (IH (S n) w1) as (l2 & Hl2 & Hf2).
          exists (l1 ++ l2). rewrite Hl2, Hl1, app_assoc. split; [reflexivity |].
          apply Forall_app; auto.
        * exists l1. split; [exact Hl1 | exact Hf1]. }
  unfold streaming_transcribe, bind, get, try_except.
  destruct (Hloop (show_timestamps (its_session w)) (target_language (its_session w))
              responses 0%nat w) as (l & Hl & Hf).
  rewrite Forall_forall in Hf.
  destruct (worker_responses 0 _ _ responses stream_end w) as [[u | [| msg | msg]] w1];
    simpl in Hl; simpl;
    (split; [intros msg'; discriminate |]).
  - rewrite Hl, drop_app_length. intros e He. apply Hf, in_removelast, He.
  - rewrite Hl, drop_app_length. intros e He. apply Hf, in_removelast, He.
  - rewrite Hl, <- app_assoc, drop_app_length, removelast_last.
    intros e He. apply Hf, list_elem_of_In, He.
  - rewrite Hl, drop_app_length. intros e He. apply Hf, in_removelast, He.
Qed.
End Facts.

Lemma results_notified_in_order_witness :
  let api := fun _ : pystr => Returned (cp " hola ") in
  let handlers := fun (_ : nat) (x : session) => x in
  let run :=
    streaming_transcribe api handlers
      [[Result [Alternative (cp "hel") 0] false None;
        Result [Alternative (cp "hello") (9 # 10)] true None];
       [Result [] true None; Result [Alternative (cp " ") (1 # 2)] true None]]
      (Some (Exception "deadline exceeded"))
      (Worker (handle_started new_session) [] []) in
  notifications (snd run)
  = [transcription (cp "hel") None false None None;
     transcription (cp "hello") (Some (cp "hola")) true (Some (9 # 10)) None;
     transcription (cp " ") (Some []) true (Some (1 # 2)) None;
     error (cp "deadline exceeded")]
  /\ prompts (snd run) = [translation_prompt (cp "hello") (cp "Spanish")]
  /\ fst run = Returned tt.
Proof.
  intros api handlers run.
  destruct (results_notified_in_order api handlers
              [[Result [Alternative (cp "hel") 0] false None;
                Result [Alternative (cp "hello") (9 # 10)] true None];
               [Result [] true None; Result [Alternative (cp " ") (1 # 2)] true None]]
              (Some (Exception "deadline exceeded"))
              (Worker (handle_started new_session) [] [])) as (Hn & Hp & Hr).
  - intros prompt. exact I.
  - intros n x Hx. exact Hx.
  - reflexivity.
  - subst run. rewrite Hn, Hp, Hr. repeat split; vm_compute; reflexivity.
Defined.

Lemma stop_ends_the_worker_witness :
  let api := fun _ : pystr => Returned (cp "hola") in
  let handlers := fun (n : nat) =>
    if Nat.eqb n 1 then on_record "sid" (handle_stop_session_begin "sid")
    else fun x : session => x in
  let run :=
    streaming_transcribe api handlers
      [[Result [Alternative (cp "hello") (9 # 10)] true None];
       [Result [Alternative (cp "world") (9 # 10)] true None]]
      (Some (Exception "deadline exceeded"))
      (Worker (handle_started new_session) [] []) in
  fst run = Returned tt
  /\ notifications (snd run)
     = [transcription (cp "hello") (Some (cp "hola")) true (Some (9 # 10)) None]
  /\ original_text (its_session (snd run)) = cp "hello "
  /\ stream_active (its_session (snd run)) = false.
Proof.
  intros api handlers run.
  assert (Hapi : only_exceptions api) by (intros prompt; exact I).
  assert (Hkeep : forall k x, (k < 1)%nat -> stream_active x = true ->
                              stream_active (handlers k x) = true).
  { intros k x Hk Hx. destruct k as [| k]; [exact Hx | lia]. }
  assert (Hstop : forall x, stream_active (handlers 1%nat x) = false).
  { intros x. unfold handlers, on_record, handle_stop_session_begin, set_session.
    cbn [Nat.eqb sessions]. rewrite lookup_singleton_eq.
    cbn [sessions]. rewrite lookup_insert_eq. reflexivity. }
  pose proof (stop_ends_the_worker api handlers
                [[Result [Alternative (cp "hello") (9 # 10)] true None]]
                [Result [Alternative (cp "world") (9 # 10)] true None] []
                (Some (Exception "deadline exceeded"))
                (Worker (handle_started new_session) [] [])
                Hapi Hkeep Hstop eq_refl) as H.
  cbn [app] in H. subst run.
  rewrite H. repeat split; vm_compute; reflexivity.
Defined.
End WorkerBehaviour.

(** ** The wait for an uploaded file *)
Module UploadProofs.
Import Upload.

Section Facts.
Variable getsize : string -> outcome Z.
Variable api_upload_file : string -> outcome remote_file.
Variable api_get_file : nat -> string -> outcome remote_file.

Local Abbreviation wait := (wait_while_processing api_get_file).
Local Abbreviation upload := (upload_file getsize api_upload_file api_get_file).
Local Abbreviation answer := (polled api_get_file).

Lemma polled_raised polls e i : answer polls (Raised e) i = Raised e.
Proof. destruct i; reflexivity. Qed.

Lemma wait_run k : forall fuel polls f0 r,
  (forall i, (i < k)%nat ->
             exists f, answer polls (Returned f0) i = Returned f
                       /\ state_name f = "PROCESSING") ->
  answer polls (Returned f0) k = r ->
  (forall f, r = Returned f -> state_name f <> "PROCESSING") ->
  (k <= fuel)%nat ->
  wait fuel polls f0 = Some (r, (polls + k)%nat).
Proof.
  induction k as [| k IH]; intros fuel polls f0 r Hbusy Hk Hdone Hfuel.
  - simpl in Hk. subst r. rewrite Nat.add_0_r.
    specialize (Hdone f0 eq_refl). apply String.eqb_neq in Hdone.
    destruct fuel; simpl; rewrite Hdone; reflexivity.
  - destruct (Hbusy 0%nat) as (f & Hf & Hp); [lia |].
    simpl in Hf. injection Hf as <-. apply String.eqb_eq in Hp.
    destruct fuel as [| fuel]; [lia |].
    simpl. rewrite Hp. simpl in Hk.
    destruct (api_get_file polls (remote_name f0)) as [f1 | e] eqn:Hget.
    + replace (polls + S k)%nat with (S polls + k)%nat by lia.
      apply IH; [| exact Hk | exact Hdone | lia].
      intros i Hi. destruct (Hbusy (S i)) as (f & Hf & Hpf); [lia |].
      simpl in Hf. rewrite Hget in Hf. exists f. split; assumption.
    + rewrite polled_raised in Hk. subst r.
      destruct k as [| k].
      * replace (polls + 1)%nat with (S polls) by lia. reflexivity.
      * destruct (Hbusy 1%nat) as (f & Hf & _); [lia |].
        simpl in Hf. rewrite Hget in Hf. discriminate.
Qed.

Lemma wait_forever fuel : forall polls f0,
  (forall i, exists f, answer polls (Returned f0) i = Returned f
                       /\ state_name f = "PROCESSING") ->
  wait fuel polls f0 = None.
Proof.
  induction fuel as [| fuel IH]; intros polls f0 Hbusy.
  - destruct (Hbusy 0%nat) as (f & Hf & Hp). simpl in Hf. injection Hf as <-.
    apply String.eqb_eq in Hp. simpl. rewrite Hp. reflexivity.
  - destruct (Hbusy 0%nat) as (f & Hf & Hp). simpl in Hf. injection Hf as <-.
    apply String.eqb_eq in Hp. simpl. rewrite Hp.
    destruct (Hbusy 1%nat) as (f1 & Hf1 & _). simpl in Hf1.
    destruct (api_get_file polls (remote_name f0)) as [f1' | e] eqn:Hget; [| discriminate].
    apply IH. intros i. destruct (Hbusy (S i)) as (f & Hf & Hpf).
    simpl in Hf. rewrite Hget in Hf. exists f. split; assumption.
Qed.

(** X22. [upload_file] asks for the file again every two seconds for as
    long as the service says it is being processed, and stops at the first
    answer that says otherwise: if the first [k] answers (the upload's
    included) are files in state PROCESSING and the next is not, then,
    given time for [k] rounds, the call ends after exactly [k] calls of
    [get_file]; it returns the file of that answer if its state is
    ACTIVE, raises an [Exception] naming the state if it is another, and
    lets through what the service raised. *)
Theorem upload_waits_while_processing (file_path : string) (size : Z) (k fuel : nat)
    (r : outcome remote_file) :
  getsize file_path = Returned size ->
  (forall i, (i < k)%nat -> processing_at api_upload_file api_get_file file_path i) ->
  answer 0 (api_upload_file file_path) k = r ->
  (forall f, r = Returned f -> state_name f <> "PROCESSING") ->
  (k <= fuel)%nat ->
  upload fuel file_path
  = Some (match r with
          | Returned f =>
              if String.eqb (state_name f) "ACTIVE" then Returned f
              else Raised (Exception ("File upload failed with state: " ++ state_name f))
          | Raised e => Raised e
          end, k).
Proof.
  intros Hsize Hbusy Hk Hdone Hfuel. unfold upload_file. rewrite Hsize.
  destruct (api_upload_file file_path) as [f0 | e] eqn:Hup.
  - rewrite (wait_run k fuel 0%nat f0 r); [| | exact Hk | exact Hdone | exact Hfuel].
    + simpl. destruct r as [f | e]; [| reflexivity].
      destruct (String.eqb (state_name f) "ACTIVE"); reflexivity.
    + intros i Hi. destruct (Hbusy i Hi) as (f & Hf & Hp). rewrite Hup in Hf.
      exists f. split; assumption.
  - rewrite polled_raised in Hk. subst r.
    destruct k as [| k]; [reflexivity |].
    destruct (Hbusy 0%nat) as (f & Hf & _); [lia |].
    simpl in Hf. rewrite Hup in Hf. discriminate.
Qed.

(** X23. The wait has no time limit: when the service keeps answering
    that the file is being processed, [upload_file] has not ended after
    any number of rounds. *)
Theorem upload_has_no_time_limit (file_path : string) (size : Z) :
  getsize file_path = Returned size ->
  (forall i, processing_at api_upload_file api_get_file file_path i) ->
  forall fuel, upload fuel file_path = None.
Proof.
  intros Hsize Hbusy fuel. unfold upload_file. rewrite Hsize.
  destruct (Hbusy 0%nat) as (f0 & Hf0 & _). simpl in Hf0. rewrite Hf0.
  rewrite (wait_forever fuel 0%nat f0); [reflexivity |].
  intros i. destruct (Hbusy i) as (f & Hf & Hp). rewrite Hf0 in Hf.
  exists f. split; assumption.
Qed.
End Facts.

Lemma upload_waits_while_processing_witness :
  let getsize := fun _ : string => Returned 1024%Z in
  let api_upload_file := fun path : string =>
    Returned (RemoteFile "files/abc" "PROCESSING" "") in
  let api_get_file := fun (n : nat) (name : string) =>
    if Nat.ltb n 2 then Returned (RemoteFile name "PROCESSING" "")
    else Returned (RemoteFile name "ACTIVE" "https://files/abc") in
  upload_file getsize api_upload_file api_get_file 10 "talk.mp3"
  = Some (Returned (RemoteFile "files/abc" "ACTIVE" "https://files/abc"), 3%nat).
Proof.
  intros getsize api_upload_file api_get_file.
  refine (upload_waits_while_processing getsize api_upload_file api_get_file
            "talk.mp3" 1024 3 10
            (Returned (RemoteFile "files/abc" "ACTIVE" "https://files/abc")) _ _ _ _ _).
  - reflexivity.
  - intros i Hi. exists (RemoteFile "files/abc" "PROCESSING" "").
    destruct i as [| [| [| i]]]; [split; reflexivity .. | lia].
  - reflexivity.
  - intros f Hf. injection Hf as <-. discriminate.
  - lia.
Defined.

Lemma upload_has_no_time_limit_witness :
  let getsize := fun _ : string => Returned 1024%Z in
  let api_upload_file := fun path : string =>
    Returned (RemoteFile "files/abc" "PROCESSING" "") in
  let api_get_file := fun (n : nat) (name : string) =>
    Returned (RemoteFile name "PROCESSING" "") in
  upload_file getsize api_upload_file api_get_file 1800 "talk.mp3" = None.
Proof.
  intros getsize api_upload_file api_get_file.
  refine (upload_has_no_time_limit getsize api_upload_file api_get_file
            "talk.mp3" 1024 _ _ 1800%nat).
  - reflexivity.
  - intros i. exists (RemoteFile "files/abc" "PROCESSING" "").
    split; [| reflexivity].
    unfold api_upload_file. generalize 0%nat.
    induction i as [| i IH]; intros n; [reflexivity | apply (IH (S n))].
Defined.
End UploadProofs.
